(** * Fluxnova CDC pipeline and external-task worker: model and properties

    A shallow embedding of the Go packages
      - [internal/fluxnova]  (REST client and checkpointed poller),
      - [internal/kafka]     (producer),
      - [internal/pipeline]  (orchestrator),
      - [demo/worker]        (external-task dispatch loop),
    followed by the properties proved about them.

    Go values are modelled as follows.
      - [error] values by their message ([err.Error()]); a Go result pair
        [(v, err)] by [result].
      - [time.Time] by the instant it denotes and the offset of the
        zone it carries: [time.Parse] keeps the offset of the text and
        [Time.Format] prints it back, while [Time.After] compares
        instants only.
      - [*T] by [option T]; slices by lists (a nil slice is []); a
        [map[string]any] by [gmap string Any], a nil map by [None].
      - everything outside the process (HTTP server, Kafka broker, clock,
        task handlers) by oracles on an abstract [World]; every call is
        appended to a trace together with its outcome, as is every log
        call (format string and arguments, not rendered). *)

From Stdlib Require Import ZArith Ascii String DecimalString.
From stdpp Require Import base option list strings gmap sorting.

Local Open Scope Z_scope.

(** ** Go values *)

Definition error := string.

Inductive result (A : Type) : Type :=
| Ok (a : A)
| Err (e : error).
Arguments Ok {A} a.
Arguments Err {A} e.

(** [time.Time]: the instant, as a count of time units since the Unix
    epoch (the scripted platform below counts milliseconds, the
    resolution of the layout), and the offset of its zone, in seconds
    east of UTC. *)
Record Time := { instant : Z; offset : Z }.

#[global] Instance Time_eq_dec : EqDecision Time.
Proof. solve_decision. Defined.

(** [t.After(u)]. *)
Definition After (t u : Time) : Prop := instant u < instant t.

#[global] Instance After_dec t u : Decision (After t u).
Proof. unfold After. apply _. Defined.

(** [any]: the dynamic values that occur in records and variable bags. *)
#[warnings="-register-all"]
Inductive Any : Type :=
| ANil
| ABool (b : bool)
| AInt (z : Z)
| AFloat (literal : string)
| AStr (s : string)
| AList (l : list Any)
| AMap (m : gmap string Any).

Definition optStr (o : option string) : Any :=
  match o with Some s => AStr s | None => ANil end.

Definition optInt (o : option Z) : Any :=
  match o with Some z => AInt z | None => ANil end.

Definition optMap (o : option (gmap string Any)) : Any :=
  match o with Some m => AMap m | None => ANil end.

(** [%d] of [fmt]. *)
Definition itoa (z : Z) : string := NilZero.string_of_int (Z.to_int z).

(** ** The outside world *)

(** An HTTP request; [Payload] is the value whose JSON encoding is the body. *)
Record Request := {
  Method : string;
  URL : string;
  Header : list (string * string);
  Payload : option Any
}.

Inductive HttpOutcome : Type :=
| HttpErr (e : error)
| HttpResp (StatusCode : Z) (Body : string).

(** A [kafka.Writer] (the fields the producer sets). *)
Record Writer := { Addr : list string; Topic : string }.

(** A [kafka.Message]; [Value] is the value whose JSON encoding is the payload. *)
Record Message := { Key : string; Value : Any }.

Inductive Event : Type :=
| EvHttp (req : Request) (out : HttpOutcome)
| EvWrite (w : Writer) (msg : Message) (out : option error)
| EvClose (w : Writer) (out : option error)
| EvActivity (topic pid : string) (vars : gmap string Any) (out : result string)
| EvLog (format : string) (args : list Any).

(** Oracles for the libraries that talk to the outside: [net/http],
    [kafka-go] and the clock.  [http_do] stands for [http.NewRequest]
    followed by [Client.Do] (or [http.Post]). *)
Class Platform (World : Type) := {
  http_do : Request -> World -> HttpOutcome * World;
  kafka_write : Writer -> Message -> World -> option error * World;
  kafka_close : Writer -> World -> option error * World;
  time_now : World -> Time * World
}.

(** [time.Parse] and [Time.Format] with the layout
    ["2006-01-02T15:04:05.000-0700"]. *)
Class TimeLayout := {
  time_parse : string -> option Time;
  time_format : Time -> string
}.

(** [string(json.Marshal(v))], the error dropped. *)
Class JSONEncode := json_marshal : Any -> string.

(** [json.NewDecoder(body).Decode(&v)] for a target of type [T]. *)
Class JSONDecode (T : Type) := json_decode : string -> result T.

(** ** State, trace and sequencing *)

Record St (World : Type) := MkSt { world : World; trace : list Event }.
Arguments MkSt {World} world trace.
Arguments world {World} s.
Arguments trace {World} s.

Definition M (World A : Type) : Type := St World -> A * St World.

Definition ret {World A} (a : A) : M World A := fun s => (a, s).

Definition bind {World A B} (c : M World A) (k : A -> M World B) : M World B :=
  fun s => let (a, s') := c s in k a s'.

Declare Scope go_scope.
Delimit Scope go_scope with go.
Notation "x <- c ;; k" := (bind c (fun x => k))
  (at level 100, c at next level, right associativity) : go_scope.
Notation "c ;;; k" := (bind c (fun _ => k))
  (at level 100, right associativity) : go_scope.
Local Open Scope go_scope.

(** One oracle call: run it on the world and record it with its outcome. *)
Definition call {World A} (f : World -> A * World) (ev : A -> Event) : M World A :=
  fun s => let (a, w') := f (world s) in (a, MkSt w' (trace s ++ [ev a])).

(** An oracle call that leaves no record (reading the clock). *)
Definition peek {World A} (f : World -> A * World) : M World A :=
  fun s => let (a, w') := f (world s) in (a, MkSt w' (trace s)).

(** [log.Printf(format, args...)]; the line is recorded unrendered. *)
Definition logf {World} (format : string) (args : list Any) : M World unit :=
  fun s => (tt, MkSt (world s) (trace s ++ [EvLog format args])).

(** [for _, x := range l { body }] carrying the loop state [acc]. *)
Fixpoint foldM {World A S} (body : S -> A -> M World S) (l : list A) (acc : S) : M World S :=
  match l with
  | [] => ret acc
  | x :: l' => acc' <- body acc x ;; foldM body l' acc'
  end.

(** [for _, x := range l { body }] without loop state. *)
Fixpoint forM_ {World A} (l : list A) (body : A -> M World unit) : M World unit :=
  match l with
  | [] => ret tt
  | x :: l' => body x ;;; forM_ l' body
  end.

(** ** Package [internal/fluxnova] *)

Module fluxnova.

(** [Client]; the [http.Client] inside it is the [Platform] oracle. *)
Record Client := { baseURL : string; authHeader : string }.

Record HistoricProcessInstance := {
  hpi_ID : string;
  hpi_BusinessKey : option string;
  hpi_ProcessDefinitionID : string;
  hpi_ProcessDefinitionKey : string;
  hpi_ProcessDefinitionName : option string;
  hpi_ProcessDefinitionVersion : Z;
  hpi_StartTime : string;
  hpi_EndTime : option string;
  hpi_DurationInMillis : option Z;
  hpi_StartUserID : option string;
  hpi_StartActivityID : string;
  hpi_DeleteReason : option string;
  hpi_SuperProcessInstanceID : option string;
  hpi_TenantID : option string;
  hpi_State : string
}.

Record HistoricActivityInstance := {
  hai_ID : string;
  hai_ParentActivityInstanceID : option string;
  hai_ActivityID : string;
  hai_ActivityName : option string;
  hai_ActivityType : string;
  hai_ProcessDefinitionKey : string;
  hai_ProcessDefinitionID : string;
  hai_ProcessInstanceID : string;
  hai_ExecutionID : string;
  hai_TaskID : option string;
  hai_Assignee : option string;
  hai_CalledProcessInstanceID : option string;
  hai_CalledCaseInstanceID : option string;
  hai_StartTime : string;
  hai_EndTime : option string;
  hai_DurationInMillis : option Z;
  hai_Canceled : bool;
  hai_CompleteScope : bool;
  hai_TenantID : option string
}.

Record HistoricVariableInstance := {
  hvi_ID : string;
  hvi_Name : string;
  hvi_Type : string;
  hvi_Value : Any;
  hvi_ProcessDefinitionID : string;
  hvi_ProcessInstanceID : string;
  hvi_ExecutionID : option string;
  hvi_ActivityInstanceID : option string;
  hvi_TaskID : option string;
  hvi_CreateTime : string;
  hvi_State : string;
  hvi_TenantID : option string
}.

(** [ProcessEvent]: a CDC event for a process instance. *)
Record ProcessEvent := {
  EventType : string;
  ProcessInstanceID : string;
  ProcessDefinition : string;
  BusinessKey : option string;
  State : string;
  StartTime : string;
  EndTime : option string;
  DurationMillis : option Z;
  Activities : list HistoricActivityInstance;
  Variables : option (gmap string Any);
  Timestamp : Time
}.

(** [Poller]; [lastPollTime] is the watermark. *)
Record Poller := {
  client : Client;
  batchSize : Z;
  lastPollTime : option Time
}.

Definition NewPoller (c : Client) (batchSize : Z) : Poller :=
  {| client := c; batchSize := batchSize; lastPollTime := None |}.

Definition SetCheckpoint (p : Poller) (t : Time) : Poller :=
  {| client := client p; batchSize := batchSize p; lastPollTime := Some t |}.

Definition GetCheckpoint (p : Poller) : option Time := lastPollTime p.

Section Client.
Context {World : Type} `{!Platform World} `{!TimeLayout}.

Definition authHeaders (c : Client) : list (string * string) :=
  if decide (authHeader c = EmptyString) then [] else [("Authorization", authHeader c)].

(** The second half of [Client.get]: status check, then JSON decode
    of the body into the target type [T]. *)
Definition get_result {T} `{!JSONDecode T} (out : HttpOutcome) : result T :=
  match out with
  | HttpErr e => Err e
  | HttpResp status body =>
      if decide (status = 200) then json_decode body
      else Err ("Fluxnova API error " +:+ itoa status +:+ ": " +:+ body)
  end.

(** The request built by [Client.get]. *)
Definition get_request (c : Client) (url : string) : Request :=
  {| Method := "GET"; URL := url;
     Header := authHeaders c ++ [("Accept", "application/json")];
     Payload := None |}.

(** [Client.get]. *)
Definition get {T} `{!JSONDecode T} (c : Client) (url : string) : M World (result T) :=
  out <- call (http_do (get_request c url)) (EvHttp (get_request c url)) ;;
  ret (get_result out).

Context `{!JSONDecode (list HistoricProcessInstance)}
        `{!JSONDecode (list HistoricActivityInstance)}
        `{!JSONDecode (list HistoricVariableInstance)}.

Definition processes_url (c : Client) (startedAfter : option Time) (maxResults : Z)
    : string :=
  let url := baseURL c
             +:+ "/history/process-instance?sortBy=startTime&sortOrder=asc&maxResults="
             +:+ itoa maxResults in
  match startedAfter with
  | Some t => url +:+ "&startedAfter=" +:+ time_format t
  | None => url
  end.

Definition GetHistoricProcessInstances (c : Client) (startedAfter : option Time)
    (maxResults : Z) : M World (result (list HistoricProcessInstance)) :=
  get c (processes_url c startedAfter maxResults).

Definition activities_url (c : Client) (processInstanceID : string) : string :=
  baseURL c +:+ "/history/activity-instance?processInstanceId="
  +:+ processInstanceID +:+ "&sortBy=startTime&sortOrder=asc".

Definition GetHistoricActivityInstances (c : Client) (processInstanceID : string)
    : M World (result (list HistoricActivityInstance)) :=
  get c (activities_url c processInstanceID).

Definition variables_url (c : Client) (processInstanceID : string) : string :=
  baseURL c +:+ "/history/variable-instance?processInstanceId=" +:+ processInstanceID.

Definition GetHistoricVariableInstances (c : Client) (processInstanceID : string)
    : M World (result (list HistoricVariableInstance)) :=
  get c (variables_url c processInstanceID).

(** The request built by [Client.Ping]. *)
Definition Ping_request (c : Client) : Request :=
  {| Method := "GET"; URL := baseURL c +:+ "/engine";
     Header := authHeaders c; Payload := None |}.

(** The second half of [Client.Ping]: the status check. *)
Definition Ping_result (out : HttpOutcome) : option error :=
  match out with
  | HttpErr e => Some e
  | HttpResp status _ =>
      if decide (status = 200) then None
      else Some ("Fluxnova ping failed with status " +:+ itoa status)
  end.

(** [Client.Ping]. *)
Definition Ping (c : Client) : M World (option error) :=
  out <- call (http_do (Ping_request c)) (EvHttp (Ping_request c)) ;;
  ret (Ping_result out).

(** The variable bag of an event: [make(map[string]any)] filled in
    slice order, a later name overwriting an earlier one. *)
Definition collectVariables (variables : list HistoricVariableInstance) : gmap string Any :=
  foldl (fun m v => <[hvi_Name v := hvi_Value v]> m) ∅ variables.

(** The watermark update at the end of one loop iteration of [Poll]. *)
Definition advance (p : Poller) (startTime : string) : Poller :=
  match time_parse startTime with
  | Some t =>
      match lastPollTime p with
      | None => SetCheckpoint p t
      | Some last => if decide (After t last) then SetCheckpoint p t else p
      end
  | None => p
  end.

(** One iteration of the loop of [Poll]: the loop state is the slice
    [events] and the poller. *)
Definition Poll_step (acc : list ProcessEvent * Poller) (proc : HistoricProcessInstance)
    : M World (list ProcessEvent * Poller) :=
  let '(events, p) := acc in
  now <- peek time_now ;;
  activities <- GetHistoricActivityInstances (client p) (hpi_ID proc) ;;
  acts <- match activities with
          | Err e => logf "Warning: failed to fetch activities for %s: %v"
                          [AStr (hpi_ID proc); AStr e] ;;; ret []
          | Ok l => ret l
          end ;;
  variables <- GetHistoricVariableInstances (client p) (hpi_ID proc) ;;
  vars <- match variables with
          | Err e => logf "Warning: failed to fetch variables for %s: %v"
                          [AStr (hpi_ID proc); AStr e] ;;; ret None
          | Ok l => ret (Some (collectVariables l))
          end ;;
  let event := {| EventType := "ProcessInstance";
                  ProcessInstanceID := hpi_ID proc;
                  ProcessDefinition := hpi_ProcessDefinitionKey proc;
                  BusinessKey := hpi_BusinessKey proc;
                  State := hpi_State proc;
                  StartTime := hpi_StartTime proc;
                  EndTime := hpi_EndTime proc;
                  DurationMillis := hpi_DurationInMillis proc;
                  Activities := acts;
                  Variables := vars;
                  Timestamp := now |} in
  ret (events ++ [event], advance p (hpi_StartTime proc)).

(** [Poller.Poll]. *)
Definition Poll (p : Poller) : M World (result (list ProcessEvent) * Poller) :=
  processes <- GetHistoricProcessInstances (client p) (lastPollTime p) (batchSize p) ;;
  match processes with
  | Err e => ret (Err e, p)
  | Ok [] => ret (Ok [], p)
  | Ok processes =>
      acc <- foldM Poll_step processes ([], p) ;;
      ret (Ok (fst acc), snd acc)
  end.
End Client.

End fluxnova.

(** ** Package [internal/kafka] *)

Module kafka.

Record Producer := { eventsWriter : Writer; processesWriter : Writer }.

Definition NewProducer (brokers : list string) (eventsTopic processesTopic : string) : Producer :=
  {| eventsWriter := {| Addr := brokers; Topic := eventsTopic |};
     processesWriter := {| Addr := brokers; Topic := processesTopic |} |}.

Section Producer.
Context {World : Type} `{!Platform World}.

(** [SendEvent].  The records handed over are JSON values, on which
    [json.Marshal] does not fail; the message keeps the value itself. *)
Definition SendEvent (p : Producer) (key : string) (event : Any) : M World (option error) :=
  let msg := {| Key := key; Value := event |} in
  r <- call (kafka_write (eventsWriter p) msg) (EvWrite (eventsWriter p) msg) ;;
  match r with
  | Some e => ret (Some e)
  | None => logf "Sent event to Kafka: %s" [AStr key] ;;; ret None
  end.

(** [SendProcess]. *)
Definition SendProcess (p : Producer) (key : string) (process : Any) : M World (option error) :=
  let msg := {| Key := key; Value := process |} in
  r <- call (kafka_write (processesWriter p) msg) (EvWrite (processesWriter p) msg) ;;
  match r with
  | Some e => ret (Some e)
  | None => logf "Sent process to Kafka: %s" [AStr key] ;;; ret None
  end.

(** [Close]: closes the Kafka writers. *)
Definition Close (p : Producer) : M World (option error) :=
  r <- call (kafka_close (eventsWriter p)) (EvClose (eventsWriter p)) ;;
  match r with
  | Some e => ret (Some e)
  | None => call (kafka_close (processesWriter p)) (EvClose (processesWriter p))
  end.
End Producer.

End kafka.

(** ** Package [internal/config] (the types) *)

Module config.

Record FluxnovaConfig := { BaseURL : string; Username : string; Password : string }.
Record KafkaConfig := { Brokers : list string; EventsTopic : string; ProcessesTopic : string }.
Record PipelineConfig := { PollInterval : Z; BatchSize : Z }.
Record Config := {
  Fluxnova : FluxnovaConfig;
  Kafka : KafkaConfig;
  Pipeline : PipelineConfig;
  LogLevel : string
}.

End config.

(** The outcome of [select] at one wake-up of a loop: the context was
    cancelled, or the ticker fired. *)
Inductive Wake := Cancelled | Tick.

(** What a function with a loop has done once a finite schedule of
    wake-ups is used up: it waits in [select], it has returned, or it
    has panicked, with the value of the panic. *)
Inductive Exit (A : Type) : Type :=
| Waiting
| Returned (a : A)
| Panicked (reason : string).
Arguments Waiting {A}.
Arguments Returned {A} a.
Arguments Panicked {A} reason.

(** ** Package [internal/pipeline] *)

Module pipeline.
Import fluxnova.

Record Pipeline := {
  cfg : config.Config;
  client : fluxnova.Client;
  poller : fluxnova.Poller;
  producer : kafka.Producer
}.

Definition withPoller (p : Pipeline) (poller' : Poller) : Pipeline :=
  {| cfg := cfg p; client := client p; poller := poller'; producer := producer p |}.

Section Pipeline.
Context {World : Type} `{!Platform World} `{!TimeLayout} `{!JSONEncode}
        `{!JSONDecode (list HistoricProcessInstance)}
        `{!JSONDecode (list HistoricActivityInstance)}
        `{!JSONDecode (list HistoricVariableInstance)}.

(** [len(event.Variables)]. *)
Definition lenVariables (event : ProcessEvent) : nat :=
  match Variables event with Some m => size m | None => 0%nat end.

(** The map literal [processRecord] of [poll]. *)
Definition processRecord (event : ProcessEvent) : gmap string Any :=
  list_to_map [
    ("_id", AStr (ProcessInstanceID event));
    ("process_instance_id", AStr (ProcessInstanceID event));
    ("process_definition_key", AStr (ProcessDefinition event));
    ("business_key", optStr (BusinessKey event));
    ("state", AStr (State event));
    ("start_time", AStr (StartTime event));
    ("end_time", optStr (EndTime event));
    ("duration_millis", optInt (DurationMillis event));
    ("variables", optMap (Variables event));
    ("_valid_from", AStr (StartTime event))
  ].

(** The map [activityRecord] of [poll], after the optional
    [process_variables] entry was added. *)
Definition activityRecord (event : ProcessEvent) (activity : HistoricActivityInstance)
    : gmap string Any :=
  let record : gmap string Any := list_to_map [
    ("_id", AStr (hai_ID activity));
    ("process_instance_id", AStr (hai_ProcessInstanceID activity));
    ("activity_id", AStr (hai_ActivityID activity));
    ("activity_name", optStr (hai_ActivityName activity));
    ("activity_type", AStr (hai_ActivityType activity));
    ("execution_id", AStr (hai_ExecutionID activity));
    ("task_id", optStr (hai_TaskID activity));
    ("assignee", optStr (hai_Assignee activity));
    ("start_time", AStr (hai_StartTime activity));
    ("end_time", optStr (hai_EndTime activity));
    ("duration_millis", optInt (hai_DurationInMillis activity));
    ("canceled", ABool (hai_Canceled activity));
    ("_valid_from", AStr (hai_StartTime activity))
  ] in
  if decide (0 < lenVariables event)%nat
  then <["process_variables" := AStr (json_marshal (optMap (Variables event)))]> record
  else record.

(** The inner loop of [poll]: one event per activity. *)
Definition poll_activities (p : Pipeline) (event : ProcessEvent) : M World unit :=
  forM_ (Activities event) (fun activity =>
    r <- kafka.SendEvent (producer p) (hai_ID activity) (AMap (activityRecord event activity)) ;;
    match r with
    | Some e => logf "Failed to send activity %s: %v" [AStr (hai_ID activity); AStr e]
    | None => ret tt
    end).

(** The body of the outer loop of [poll]. *)
Definition poll_event (p : Pipeline) (event : ProcessEvent) : M World unit :=
  r <- kafka.SendProcess (producer p) (ProcessInstanceID event) (AMap (processRecord event)) ;;
  match r with
  | Some e =>
      logf "Failed to send process %s: %v" [AStr (ProcessInstanceID event); AStr e]
  | None => poll_activities p event
  end.

(** [Pipeline.poll]: one poll-and-publish cycle. *)
Definition poll (p : Pipeline) : M World (option error * Pipeline) :=
  r <- Poll (poller p) ;;
  let '(events, poller') := r in
  let p' := withPoller p poller' in
  match events with
  | Err e => ret (Some e, p')
  | Ok [] => ret (None, p')
  | Ok events =>
      logf "Polled %d process events from Fluxnova" [AInt (Z.of_nat (length events))] ;;;
      forM_ events (poll_event p') ;;;
      ret (None, p')
  end.

(** The [for { select { ... } }] loop of [Run], driven by the
    outcomes of [select] at its successive wake-ups. *)
Fixpoint Run_loop (wakes : list Wake) (p : Pipeline) : M World (Exit (option error) * Pipeline) :=
  match wakes with
  | [] => ret (Waiting, p)
  | Cancelled :: _ =>
      logf "Shutting down pipeline" [] ;;;
      r <- kafka.Close (producer p) ;;
      ret (Returned r, p)
  | Tick :: wakes' =>
      r <- poll p ;;
      let '(err, p') := r in
      match err with
      | Some e => logf "Poll error: %v" [AStr e]
      | None => ret tt
      end ;;;
      Run_loop wakes' p'
  end.

(** [Pipeline.Run].  [time.NewTicker(d)] panics when [d <= 0]; the
    deferred [ticker.Stop()] has nothing to do then. *)
Definition Run (wakes : list Wake) (p : Pipeline) : M World (Exit (option error) * Pipeline) :=
  logf "Starting Fluxnova CDC pipeline" [] ;;;
  logf "  Fluxnova: %s" [AStr (config.BaseURL (config.Fluxnova (cfg p)))] ;;;
  logf "  Kafka: %v" [AList (AStr <$> config.Brokers (config.Kafka (cfg p)))] ;;;
  logf "  Poll interval: %s" [AInt (config.PollInterval (config.Pipeline (cfg p)))] ;;;
  ping <- Ping (client p) ;;
  match ping with
  | Some e => ret (Returned (Some ("failed to connect to Fluxnova: " +:+ e)), p)
  | None =>
      logf "Connected to Fluxnova" [] ;;;
      if decide (config.PollInterval (config.Pipeline (cfg p)) <= 0)
      then ret (Panicked "non-positive interval for NewTicker", p)
      else
        r <- poll p ;;
        let '(err, p') := r in
        match err with
        | Some e => logf "Initial poll error: %v" [AStr e]
        | None => ret tt
        end ;;;
        Run_loop wakes p'
  end.
End Pipeline.

End pipeline.

(** ** Package [demo/worker] *)

Module worker.

Definition WorkerID : string := "customer-service-worker".
Definition LockTimeout : Z := 30000.

Record ExternalTask := {
  ID : string;
  task_WorkerID : string;
  TopicName : string;
  ProcessInstanceID : string;
  ProcessDefinitionID : string;
  ActivityID : string;
  ActivityInstanceID : string;
  ExecutionID : string;
  Variables : gmap string Any
}.

Record TopicSubscription := { sub_TopicName : string; LockDuration : Z }.

Record FetchRequest := {
  fetch_WorkerID : string;
  MaxTasks : Z;
  UsePriority : bool;
  Topics : list TopicSubscription
}.

Record CompleteRequest := {
  complete_WorkerID : string;
  complete_Variables : gmap string Any
}.

Record FailureRequest := {
  failure_WorkerID : string;
  ErrorMessage : string;
  ErrorDetails : string;
  Retries : Z;
  RetryTimeout : Z
}.

(** The JSON documents of the request structs, by their field tags. *)
Definition TopicSubscription_json (t : TopicSubscription) : Any :=
  AMap (list_to_map [("topicName", AStr (sub_TopicName t));
                     ("lockDuration", AInt (LockDuration t))]).

Definition FetchRequest_json (r : FetchRequest) : Any :=
  AMap (list_to_map [("workerId", AStr (fetch_WorkerID r));
                     ("maxTasks", AInt (MaxTasks r));
                     ("usePriority", ABool (UsePriority r));
                     ("topics", AList (TopicSubscription_json <$> Topics r))]).

Definition CompleteRequest_json (r : CompleteRequest) : Any :=
  let doc : gmap string Any := {[ "workerId" := AStr (complete_WorkerID r) ]} in
  AMap (if decide (size (complete_Variables r) = 0%nat) then doc
        else <["variables" := AMap (complete_Variables r)]> doc).

Definition FailureRequest_json (r : FailureRequest) : Any :=
  AMap (list_to_map [("workerId", AStr (failure_WorkerID r));
                     ("errorMessage", AStr (ErrorMessage r));
                     ("errorDetails", AStr (ErrorDetails r));
                     ("retries", AInt (Retries r));
                     ("retryTimeout", AInt (RetryTimeout r))]).

(** The subscriptions set up in [main]. *)
Definition topics : list TopicSubscription := [
  {| sub_TopicName := "analyze-sentiment"; LockDuration := LockTimeout |};
  {| sub_TopicName := "lookup-customer-profile"; LockDuration := LockTimeout |};
  {| sub_TopicName := "check-churn-signals"; LockDuration := LockTimeout |};
  {| sub_TopicName := "decide-routing"; LockDuration := LockTimeout |};
  {| sub_TopicName := "generate-response"; LockDuration := LockTimeout |}
].

(** The [switch task.TopicName] of [handleTask]: the method of
    [workflow.Activities] a topic is routed to and the process variable
    its result is stored under; [None] is the [default] arm. *)
Definition route (topicName : string) : option (string * string) :=
  if decide (topicName = "analyze-sentiment") then Some ("AnalyzeSentiment", "sentiment")
  else if decide (topicName = "lookup-customer-profile")
       then Some ("LookupCustomerProfile", "customerProfile")
  else if decide (topicName = "check-churn-signals")
       then Some ("CheckChurnSignals", "churnSignals")
  else if decide (topicName = "decide-routing") then Some ("DecideRouting", "routingDecision")
  else if decide (topicName = "generate-response") then Some ("GenerateResponse", "responseDraft")
  else None.

(** The methods of [workflow.Activities] (package [demo/workflow]): the
    method named [method], called for process instance [pid] with the
    input extracted from the task variables [vars], returns an error
    or a result, given here as [toJSON(result)]. *)
Class Activities (World : Type) :=
  activity_call : string -> string -> gmap string Any -> World -> result string * World.

Section Worker.
Context {World : Type} `{!Platform World} `{!Activities World}
        `{!JSONDecode (list ExternalTask)}.

(** The request of [http.Post(url, "application/json", body)]. *)
Definition post_request (url : string) (body : Any) : Request :=
  {| Method := "POST"; URL := url;
     Header := [("Content-Type", "application/json")];
     Payload := Some body |}.

(** [http.Post(url, "application/json", body)]. *)
Definition post (url : string) (body : Any) : M World HttpOutcome :=
  call (http_do (post_request url body)) (EvHttp (post_request url body)).

Definition fetchAndLock (baseURL : string) (topics : list TopicSubscription)
    : M World (result (list ExternalTask)) :=
  let req := {| fetch_WorkerID := WorkerID; MaxTasks := 10; UsePriority := true;
                Topics := topics |} in
  out <- post (baseURL +:+ "/external-task/fetchAndLock") (FetchRequest_json req) ;;
  match out with
  | HttpErr e => ret (Err e)
  | HttpResp status body =>
      if decide (status = 200) then ret (json_decode body)
      else ret (Err ("fetch failed with status " +:+ itoa status +:+ ": " +:+ body))
  end.

(** The error, if any, that [completeTask] draws from the reply to
    its request. *)
Definition completeTask_error (out : HttpOutcome) : option error :=
  match out with
  | HttpErr e => Some e
  | HttpResp status body =>
      if decide (status ≠ 204 ∧ status ≠ 200)
      then Some ("complete failed with status " +:+ itoa status +:+ ": " +:+ body)
      else None
  end.

Definition completeTask (baseURL taskID : string) (variables : gmap string Any)
    : M World (option error) :=
  let req := {| complete_WorkerID := WorkerID; complete_Variables := variables |} in
  out <- post (baseURL +:+ "/external-task/" +:+ taskID +:+ "/complete")
              (CompleteRequest_json req) ;;
  match completeTask_error out with
  | Some e => ret (Some e)
  | None => logf "Completed task %s" [AStr taskID] ;;; ret None
  end.

(** The request struct built by [failTask]. *)
Definition failureRequest (errorMessage : string) : FailureRequest :=
  {| failure_WorkerID := WorkerID; ErrorMessage := errorMessage; ErrorDetails := EmptyString;
     Retries := 0; RetryTimeout := 0 |}.

Definition failTask (baseURL taskID errorMessage : string) : M World unit :=
  out <- post (baseURL +:+ "/external-task/" +:+ taskID +:+ "/failure")
              (FailureRequest_json (failureRequest errorMessage)) ;;
  match out with
  | HttpErr e => logf "Failed to report failure for task %s: %v" [AStr taskID; AStr e]
  | HttpResp _ _ => logf "Reported failure for task %s" [AStr taskID]
  end.

Definition handleTask (baseURL : string) (task : ExternalTask) : M World (option error) :=
  logf "Handling task %s (topic: %s, process: %s)"
       [AStr (ID task); AStr (TopicName task); AStr (ProcessInstanceID task)] ;;;
  match route (TopicName task) with
  | Some (method, variable) =>
      let run := activity_call method (ProcessInstanceID task) (Variables task) in
      r <- call run (EvActivity method (ProcessInstanceID task) (Variables task)) ;;
      match r with
      | Err e => ret (Some e)
      | Ok json =>
          completeTask baseURL (ID task)
            {[ variable := AMap {[ "value" := AStr json ]} ]}
      end
  | None => ret (Some ("unknown topic: " +:+ TopicName task))
  end.

(** The body of [for _, task := range tasks] in [main]. *)
Definition main_task (baseURL : string) (task : ExternalTask) : M World unit :=
  r <- handleTask baseURL task ;;
  match r with
  | Some e =>
      logf "Error handling task %s: %v" [AStr (ID task); AStr e] ;;;
      failTask baseURL (ID task) e
  | None => ret tt
  end.

(** The [case <-ticker.C] arm of the loop of [main]. *)
Definition main_tick (baseURL : string) : M World unit :=
  r <- fetchAndLock baseURL topics ;;
  match r with
  | Err e => logf "Error fetching tasks: %v" [AStr e]
  | Ok tasks => forM_ tasks (main_task baseURL)
  end.

(** The [for { select { ... } }] loop of [main], driven by the outcomes
    of [select] at its successive wake-ups. *)
Fixpoint main_loop (baseURL : string) (wakes : list Wake) : M World (Exit unit) :=
  match wakes with
  | [] => ret Waiting
  | Cancelled :: _ => logf "Worker shutting down" [] ;;; ret (Returned tt)
  | Tick :: wakes' => main_tick baseURL ;;; main_loop baseURL wakes'
  end.
End Worker.

End worker.

(** ** A scripted platform

    A concrete world on which the packages can be run: the replies of
    the server, the broker and the task handlers are read off scripts.
    Used for the worked examples below. *)

Module scripted.
Import fluxnova.

(** *** The layout ["2006-01-02T15:04:05.000-0700"]

    The canonical fixed-width rendering (28 characters): this is what
    the engine emits and what [Time.Format] produces. *)

Definition digit (c : ascii) : option Z :=
  let n := Z.of_nat (nat_of_ascii c) in
  if decide (48 <= n <= 57) then Some (n - 48) else None.

Fixpoint number (s : string) (acc : Z) : option Z :=
  match s with
  | EmptyString => Some acc
  | String c s' => match digit c with
                   | Some d => number s' (10 * acc + d)
                   | None => None
                   end
  end.

Definition field (s : string) (start len : nat) : option Z :=
  number (substring start len s) 0.

Definition literal (s : string) (pos : nat) (c : string) : bool :=
  bool_decide (substring pos 1 s = c).

Definition isLeap (y : Z) : bool :=
  bool_decide (y mod 4 = 0 ∧ (y mod 100 ≠ 0 ∨ y mod 400 = 0)).

Definition daysIn (y m : Z) : Z :=
  if decide (m = 2) then (if isLeap y then 29 else 28)
  else if decide (m = 4 ∨ m = 6 ∨ m = 9 ∨ m = 11) then 30 else 31.

(** Days from 1970-01-01 to the civil date [y-m-d]. *)
Definition daysFromCivil (y m d : Z) : Z :=
  let y' := if decide (m <= 2) then y - 1 else y in
  let era := y' / 400 in
  let yoe := y' - era * 400 in
  let mp := if decide (m <= 2) then m + 9 else m - 3 in
  let doy := (153 * mp + 2) / 5 + d - 1 in
  let doe := yoe * 365 + yoe / 4 - yoe / 100 + doy in
  era * 146097 + doe - 719468.

Definition parse (s : string) : option Time :=
  if negb (bool_decide (String.length s = 28%nat)) then None
  else if negb (literal s 4 "-" && literal s 7 "-" && literal s 10 "T" && literal s 13 ":"
                && literal s 16 ":" && literal s 19 ".") then None
  else
    match field s 0 4, field s 5 2, field s 8 2, field s 11 2, field s 14 2,
          field s 17 2, field s 20 3, field s 24 2, field s 26 2 with
    | Some y, Some mo, Some d, Some h, Some mi, Some sec, Some ms, Some zh, Some zm =>
        let sign := if literal s 23 "+" then Some 1
                    else if literal s 23 "-" then Some (-1) else None in
        match sign with
        | Some sg =>
            if bool_decide (1 <= mo <= 12 ∧ 1 <= d <= daysIn y mo ∧ h < 24 ∧ mi < 60
                            ∧ sec < 60 ∧ zh <= 24 ∧ zm <= 60)
            then Some {| instant := (((daysFromCivil y mo d * 24 + h) * 60 + mi) * 60 + sec)
                                    * 1000 + ms - sg * (zh * 60 + zm) * 60000;
                         offset := sg * (zh * 60 + zm) * 60 |}
            else None
        | None => None
        end
    | _, _, _, _, _, _, _, _, _ => None
    end.

(** The civil date [(y, m, d)] of a day count. *)
Definition civilFromDays (z : Z) : Z * Z * Z :=
  let z := z + 719468 in
  let era := z / 146097 in
  let doe := z - era * 146097 in
  let yoe := (doe - doe / 1460 + doe / 36524 - doe / 146096) / 365 in
  let doy := doe - (365 * yoe + yoe / 4 - yoe / 100) in
  let mp := (5 * doy + 2) / 153 in
  let d := doy - (153 * mp + 2) / 5 + 1 in
  let m := if decide (mp < 10) then mp + 3 else mp - 9 in
  let y := yoe + era * 400 in
  (if decide (m <= 2) then y + 1 else y, m, d).

(** A number in [width] decimal digits, zero-padded. *)
Fixpoint padded (width : nat) (z : Z) : string :=
  match width with
  | O => EmptyString
  | S w => padded w (z / 10) +:+ itoa (z mod 10)
  end.

(** The rendering of a time: the wall clock of its zone, then the offset. *)
Definition format (t : Time) : string :=
  let wall := instant t + offset t * 1000 in
  let days := wall / 86400000 in
  let rest := wall mod 86400000 in
  let '(y, m, d) := civilFromDays days in
  let minutes := Z.abs (offset t) / 60 in
  padded 4 y +:+ "-" +:+ padded 2 m +:+ "-" +:+ padded 2 d +:+ "T"
  +:+ padded 2 (rest / 3600000) +:+ ":" +:+ padded 2 (rest / 60000 mod 60) +:+ ":"
  +:+ padded 2 (rest / 1000 mod 60) +:+ "." +:+ padded 3 (rest mod 1000)
  +:+ (if decide (0 <= offset t) then "+" else "-")
  +:+ padded 2 (minutes / 60) +:+ padded 2 (minutes mod 60).

#[export] Instance layout : TimeLayout := {| time_parse := parse; time_format := format |}.

(** *** JSON text

    A plain encoder: object keys in ascending order, strings quoted
    without escapes, floats by their literal.  [depth] bounds the nesting. *)

Definition quote (s : string) : string :=
  String (ascii_of_nat 34) s +:+ String (ascii_of_nat 34) EmptyString.

Definition joined (parts : list string) : string :=
  match parts with
  | [] => EmptyString
  | x :: l => foldl (fun acc y => acc +:+ "," +:+ y) x l
  end.

Definition byKey (a b : string * Any) : Prop := String.leb a.1 b.1 = true.

#[export] Instance byKey_dec : RelDecision byKey.
Proof. intros a b. unfold byKey. apply _. Defined.

Fixpoint encode (depth : nat) (v : Any) : string :=
  match v with
  | ANil => "null"
  | ABool b => if b then "true" else "false"
  | AInt z => itoa z
  | AFloat x => x
  | AStr s => quote s
  | AList l =>
      match depth with
      | O => "[]"
      | S n => "[" +:+ joined (encode n <$> l) +:+ "]"
      end
  | AMap m =>
      match depth with
      | O => "{}"
      | S n => "{" +:+ joined ((fun kv => quote kv.1 +:+ ":" +:+ encode n kv.2)
                               <$> merge_sort byKey (map_to_list m)) +:+ "}"
      end
  end.

#[export] Instance encoder : JSONEncode := encode 16.

(** *** Documents

    Response bodies are named by their text; a decoder looks the text
    up in a table of the documents of its type. *)

Definition lookupDocument {T} (table : list (string * T)) (body : string) : result T :=
  match list_find (fun kv => kv.1 = body) table with
  | Some (_, (_, v)) => Ok v
  | None => Err "invalid character looking for beginning of value"
  end.

(** *** The world *)

Record World := {
  http_replies : list HttpOutcome;
  write_replies : list (option error);
  close_replies : list (option error);
  activity_replies : list (result string);
  clock : Z
}.

(** The next HTTP reply of the script; none left: the server is gone. *)
Definition http (req : Request) (w : World) : HttpOutcome * World :=
  match http_replies w with
  | [] => (HttpErr "connection refused", w)
  | r :: l => (r, {| http_replies := l; write_replies := write_replies w;
                     close_replies := close_replies w;
                     activity_replies := activity_replies w; clock := clock w |})
  end.

(** The next broker reply of the script; none left: the write succeeds. *)
Definition write (wr : Writer) (msg : Message) (w : World) : option error * World :=
  match write_replies w with
  | [] => (None, w)
  | r :: l => (r, {| http_replies := http_replies w; write_replies := l;
                     close_replies := close_replies w;
                     activity_replies := activity_replies w; clock := clock w |})
  end.

Definition close (wr : Writer) (w : World) : option error * World :=
  match close_replies w with
  | [] => (None, w)
  | r :: l => (r, {| http_replies := http_replies w; write_replies := write_replies w;
                     close_replies := l;
                     activity_replies := activity_replies w; clock := clock w |})
  end.

(** The clock advances by one millisecond per reading; it is read in UTC. *)
Definition now (w : World) : Time * World :=
  ({| instant := clock w; offset := 0 |}, {| http_replies := http_replies w; write_replies := write_replies w;
               close_replies := close_replies w;
               activity_replies := activity_replies w; clock := clock w + 1 |}).

(** The next handler reply of the script; none left: the handler fails. *)
Definition activity (method pid : string) (vars : gmap string Any) (w : World)
    : result string * World :=
  match activity_replies w with
  | [] => (Err "activity unavailable", w)
  | r :: l => (r, {| http_replies := http_replies w; write_replies := write_replies w;
                     close_replies := close_replies w;
                     activity_replies := l; clock := clock w |})
  end.

#[export] Instance platform : Platform World :=
  {| http_do := http; kafka_write := write; kafka_close := close; time_now := now |}.

#[export] Instance activities : worker.Activities World := activity.

(** A world with the given HTTP and broker scripts. *)
Definition serving (http : list HttpOutcome) (writes : list (option error)) : St World :=
  MkSt {| http_replies := http; write_replies := writes; close_replies := [];
          activity_replies := []; clock := 1700000000000 |} [].

End scripted.

(** ** Vocabulary of the properties *)

(** The order on watermarks, by their instants: an absent watermark
    is below every time. *)
Module watermark.

Definition le (a b : option Time) : Prop :=
  match a, b with
  | None, _ => True
  | Some _, None => False
  | Some x, Some y => instant x <= instant y
  end.

Definition lt (a b : option Time) : Prop :=
  match a, b with
  | _, None => False
  | None, Some _ => True
  | Some x, Some y => instant x < instant y
  end.

(** The later of two watermarks; at the same instant, the first. *)
Definition join (a b : option Time) : option Time :=
  match a, b with
  | None, _ => b
  | _, None => a
  | Some x, Some y => if decide (After y x) then Some y else Some x
  end.

(** The latest of a list of times: the first of those at the latest
    instant. *)
Definition latest (l : list Time) : option Time :=
  foldr (fun t acc => join (Some t) acc) None l.

End watermark.

(** Projections of a trace. *)
Definition http_calls (tr : list Event) : list (Request * HttpOutcome) :=
  omap (fun ev => match ev with EvHttp req out => Some (req, out) | _ => None end) tr.

Definition writes (tr : list Event) : list (Writer * Message * option error) :=
  omap (fun ev => match ev with EvWrite w msg out => Some (w, msg, out) | _ => None end) tr.

Definition closes (tr : list Event) : list (Writer * option error) :=
  omap (fun ev => match ev with EvClose w out => Some (w, out) | _ => None end) tr.

(** A trace without its log lines: the calls to the outside. *)
Definition calls (tr : list Event) : list Event :=
  omap (fun ev => match ev with EvLog _ _ => None | _ => Some ev end) tr.

Module poller_props.
Import fluxnova.

Section Vocabulary.
Context {World : Type} `{!Platform World} `{!TimeLayout}
        `{!JSONDecode (list HistoricProcessInstance)}
        `{!JSONDecode (list HistoricActivityInstance)}
        `{!JSONDecode (list HistoricVariableInstance)}.

(** The start times of a batch that parse, as instants. *)
Definition startInstants (starts : list string) : list Time := omap time_parse starts.

(** [n] consecutive calls of [Poll] on one poller: the watermark after
    each call, and the poller at the end. *)
Fixpoint Polls (n : nat) (p : Poller) : M World (list (option Time) * Poller) :=
  match n with
  | O => ret ([], p)
  | S n' =>
      r <- Poll p ;;
      let p' := snd r in
      rest <- Polls n' p' ;;
      ret (lastPollTime p' :: fst rest, snd rest)
  end%go.

(** The base fields an event copies from its process instance. *)
Definition base (proc : HistoricProcessInstance) (ev : ProcessEvent) : Prop :=
  EventType ev = "ProcessInstance"
  ∧ ProcessInstanceID ev = hpi_ID proc
  ∧ ProcessDefinition ev = hpi_ProcessDefinitionKey proc
  ∧ BusinessKey ev = hpi_BusinessKey proc
  ∧ State ev = hpi_State proc
  ∧ StartTime ev = hpi_StartTime proc
  ∧ EndTime ev = hpi_EndTime proc
  ∧ DurationMillis ev = hpi_DurationInMillis proc.

(** [assembled c procs events calls]: the events are, in order, one
    per process instance, each made of the base fields of its
    instance and of the outcomes of its own two sub-queries, which
    are the HTTP calls [calls], two per instance.  A failed
    sub-query leaves [Activities] empty or [Variables] absent. *)
Inductive assembled (c : Client)
  : list HistoricProcessInstance -> list ProcessEvent
    -> list (Request * HttpOutcome) -> Prop :=
| assembled_nil : assembled c [] [] []
| assembled_cons proc ev outA outV procs events calls :
    base proc ev ->
    Activities ev = match get_result outA with Ok l => l | Err _ => [] end ->
    Variables ev = match get_result outV with
                   | Ok l => Some (collectVariables l)
                   | Err _ => None
                   end ->
    assembled c procs events calls ->
    assembled c (proc :: procs) (ev :: events)
      ((get_request c (activities_url c (hpi_ID proc)), outA)
       :: (get_request c (variables_url c (hpi_ID proc)), outV) :: calls).
End Vocabulary.

End poller_props.

Module publisher_props.
Import fluxnova kafka pipeline.

Section Vocabulary.
Context `{!JSONEncode}.

(** The message of the process-level record of an event. *)
Definition processMessage (ev : ProcessEvent) : Message :=
  {| Key := ProcessInstanceID ev; Value := AMap (processRecord ev) |}.

(** The message of the activity-level record of an activity of an event. *)
Definition activityMessage (ev : ProcessEvent) (a : HistoricActivityInstance) : Message :=
  {| Key := hai_ID a; Value := AMap (activityRecord ev a) |}.

(** The log line that follows a write of an activity-level record. *)
Definition activityLog (a : HistoricActivityInstance) (out : option error) : Event :=
  match out with
  | Some e => EvLog "Failed to send activity %s: %v" [AStr (hai_ID a); AStr e]
  | None => EvLog "Sent event to Kafka: %s" [AStr (hai_ID a)]
  end.

(** The log line that follows a write of a process-level record. *)
Definition processLog (ev : ProcessEvent) (out : option error) : Event :=
  match out with
  | Some e => EvLog "Failed to send process %s: %v" [AStr (ProcessInstanceID ev); AStr e]
  | None => EvLog "Sent process to Kafka: %s" [AStr (ProcessInstanceID ev)]
  end.

(** [activitiesSent P ev acts tr]: [tr] is one write to the events
    writer per activity of [acts], in order, each followed by its
    log line, whatever the outcomes of the writes. *)
Inductive activitiesSent (P : Producer) (ev : ProcessEvent)
  : list HistoricActivityInstance -> list Event -> Prop :=
| activitiesSent_nil : activitiesSent P ev [] []
| activitiesSent_cons a out acts tr :
    activitiesSent P ev acts tr ->
    activitiesSent P ev (a :: acts)
      (EvWrite (eventsWriter P) (activityMessage ev a) out :: activityLog a out :: tr).

(** [published P events tr]: [tr] is the trace of the publish loop
    over [events].  Each event has its process-level record written,
    whatever happened to the events before it; when that write
    fails the event's activities are skipped, when it succeeds each
    of them is written. *)
Inductive published (P : Producer) : list ProcessEvent -> list Event -> Prop :=
| published_nil : published P [] []
| published_failed ev e events tr :
    published P events tr ->
    published P (ev :: events)
      (EvWrite (processesWriter P) (processMessage ev) (Some e)
       :: processLog ev (Some e) :: tr)
| published_sent ev atr events tr :
    activitiesSent P ev (Activities ev) atr ->
    published P events tr ->
    published P (ev :: events)
      (EvWrite (processesWriter P) (processMessage ev) None
       :: processLog ev None :: atr ++ tr).

(** The line logged before a non-empty batch is published. *)
Definition polled (events : list ProcessEvent) : list Event :=
  match events with
  | [] => []
  | _ => [EvLog "Polled %d process events from Fluxnova" [AInt (Z.of_nat (length events))]]
  end.

(** The [process_variables] entry of a record, if any. *)
Definition snapshot (record : gmap string Any) : option Any := record !! "process_variables".
End Vocabulary.

End publisher_props.

Module orchestrator_props.
Import fluxnova kafka pipeline.

Section Vocabulary.
Context {World : Type} `{!Platform World} `{!TimeLayout} `{!JSONEncode}
        `{!JSONDecode (list HistoricProcessInstance)}
        `{!JSONDecode (list HistoricActivityInstance)}
        `{!JSONDecode (list HistoricVariableInstance)}.

(** The lines [Run] logs before it checks the connection. *)
Definition banner (p : Pipeline) : list Event :=
  [EvLog "Starting Fluxnova CDC pipeline" [];
   EvLog "  Fluxnova: %s" [AStr (config.BaseURL (config.Fluxnova (cfg p)))];
   EvLog "  Kafka: %v" [AList (AStr <$> config.Brokers (config.Kafka (cfg p)))];
   EvLog "  Poll interval: %s" [AInt (config.PollInterval (config.Pipeline (cfg p)))]].

(** One poll-and-publish cycle; an error it returns is logged under
    [format] and goes no further. *)
Definition cycle (format : string) (p : Pipeline) : M World Pipeline :=
  (r <- poll p ;;
   match r.1 with
   | Some e => logf format [AStr e]
   | None => ret tt
   end ;;;
   ret r.2)%go.

(** [n] cycles in a row. *)
Fixpoint cycles (n : nat) (p : Pipeline) : M World Pipeline :=
  match n with
  | O => ret p
  | S n' => (p' <- cycle "Poll error: %v" p ;; cycles n' p')%go
  end.

(** The start of [Run]: the banner, then the connectivity check. *)
Definition checked (p : Pipeline) : M World (option error) :=
  (logf "Starting Fluxnova CDC pipeline" [] ;;;
   logf "  Fluxnova: %s" [AStr (config.BaseURL (config.Fluxnova (cfg p)))] ;;;
   logf "  Kafka: %v" [AList (AStr <$> config.Brokers (config.Kafka (cfg p)))] ;;;
   logf "  Poll interval: %s" [AInt (config.PollInterval (config.Pipeline (cfg p)))] ;;;
   Ping (client p))%go.

(** After a successful check: the line [Run] logs. *)
Definition connected : M World unit := logf "Connected to Fluxnova" [].

(** After a successful check, with a ticker: the line logged, the
    initial cycle, then [n] cycles, one per tick. *)
Definition running (n : nat) (p : Pipeline) : M World Pipeline :=
  (logf "Connected to Fluxnova" [] ;;;
   p0 <- cycle "Initial poll error: %v" p ;;
   cycles n p0)%go.

(** The shutdown: the line logged, then the producer closed. *)
Definition shutdown (p : Pipeline) : M World (option error) :=
  (logf "Shutting down pipeline" [] ;;; Close (producer p))%go.
End Vocabulary.

End orchestrator_props.

Module worker_props.
Import worker.

Section Vocabulary.
Context {World : Type} `{!Platform World} `{!Activities World}
        `{!JSONDecode (list ExternalTask)}.

(** The report of a task failure to the engine: the message, and no
    retries left. *)
Definition failureReport (baseURL taskID message : string) : Request :=
  {| Method := "POST";
     URL := baseURL +:+ "/external-task/" +:+ taskID +:+ "/failure";
     Header := [("Content-Type", "application/json")];
     Payload := Some (FailureRequest_json
                        {| failure_WorkerID := WorkerID; ErrorMessage := message;
                           ErrorDetails := EmptyString; Retries := 0; RetryTimeout := 0 |}) |}.

(** The report of a task completion: the handler's result, as JSON
    text, under the variable of the topic. *)
Definition completionReport (baseURL taskID variable json : string) : Request :=
  {| Method := "POST";
     URL := baseURL +:+ "/external-task/" +:+ taskID +:+ "/complete";
     Header := [("Content-Type", "application/json")];
     Payload := Some (CompleteRequest_json
                        {| complete_WorkerID := WorkerID;
                           complete_Variables :=
                             {[ variable := AMap {[ "value" := AStr json ]} ]} |}) |}.

(** A completion report that failed: a transport error, or a status
    other than 200 and 204; with the error [completeTask] returns. *)
Inductive failedCompletion : HttpOutcome -> error -> Prop :=
| failedCompletion_transport e : failedCompletion (HttpErr e) e
| failedCompletion_status status body :
    status ≠ 200 -> status ≠ 204 ->
    failedCompletion (HttpResp status body)
      ("complete failed with status " +:+ itoa status +:+ ": " +:+ body).

(** [handled baseURL task cs]: [cs] are the calls to the outside made
    for one task: the handler call, if the topic has a handler, and
    the reports to the engine. *)
Inductive handled (baseURL : string) (task : ExternalTask) : list Event -> Prop :=
| handled_unknown out :
    route (TopicName task) = None ->
    handled baseURL task
      [EvHttp (failureReport baseURL (ID task) ("unknown topic: " +:+ TopicName task)) out]
| handled_failed method variable e out :
    route (TopicName task) = Some (method, variable) ->
    handled baseURL task
      [EvActivity method (ProcessInstanceID task) (Variables task) (Err e);
       EvHttp (failureReport baseURL (ID task) e) out]
| handled_completed method variable json out :
    route (TopicName task) = Some (method, variable) ->
    completeTask_error out = None ->
    handled baseURL task
      [EvActivity method (ProcessInstanceID task) (Variables task) (Ok json);
       EvHttp (completionReport baseURL (ID task) variable json) out]
| handled_unconfirmed method variable json out e out' :
    route (TopicName task) = Some (method, variable) ->
    failedCompletion out e ->
    handled baseURL task
      [EvActivity method (ProcessInstanceID task) (Variables task) (Ok json);
       EvHttp (completionReport baseURL (ID task) variable json) out;
       EvHttp (failureReport baseURL (ID task) e) out'].

(** [dispatched baseURL tasks cs]: [cs] are the calls made for a batch:
    those of each task in turn, whatever happened to the others. *)
Inductive dispatched (baseURL : string) : list ExternalTask -> list Event -> Prop :=
| dispatched_nil : dispatched baseURL [] []
| dispatched_cons task cs tasks cs' :
    handled baseURL task cs ->
    dispatched baseURL tasks cs' ->
    dispatched baseURL (task :: tasks) (cs ++ cs').
End Vocabulary.

End worker_props.

(** ** Sample data for the worked examples *)

Module examples.
Import fluxnova scripted.

Definition engine : Client :=
  {| baseURL := "http://localhost:8080/engine-rest"; authHeader := EmptyString |}.

Definition instance (id start state : string) (finish : option string) (millis : option Z)
    : HistoricProcessInstance :=
  {| hpi_ID := id; hpi_BusinessKey := None;
     hpi_ProcessDefinitionID := "customer-service:1:7";
     hpi_ProcessDefinitionKey := "customer-service";
     hpi_ProcessDefinitionName := None; hpi_ProcessDefinitionVersion := 1;
     hpi_StartTime := start; hpi_EndTime := finish; hpi_DurationInMillis := millis;
     hpi_StartUserID := None; hpi_StartActivityID := "StartEvent_1";
     hpi_DeleteReason := None; hpi_SuperProcessInstanceID := None;
     hpi_TenantID := None; hpi_State := state |}.

(** Three instances: [P1] starts at [T0]; [P2] and [P3] both start at
    [T1], one second later. *)
Definition T0 : Time := {| instant := 1704067200000; offset := 0 |}.
Definition T1 : Time := {| instant := 1704067201000; offset := 0 |}.

Definition P1 := instance "P1" "2024-01-01T00:00:00.000+0000" "ACTIVE" None None.
Definition P2 := instance "P2" "2024-01-01T00:00:01.000+0000" "COMPLETED"
                          (Some "2024-01-01T00:00:03.000+0000") (Some 2000).
Definition P3 := instance "P3" "2024-01-01T00:00:01.000+0000" "ACTIVE" None None.

Definition step (id pid name start : string) : HistoricActivityInstance :=
  {| hai_ID := id; hai_ParentActivityInstanceID := Some pid;
     hai_ActivityID := name; hai_ActivityName := None; hai_ActivityType := "serviceTask";
     hai_ProcessDefinitionKey := "customer-service";
     hai_ProcessDefinitionID := "customer-service:1:7";
     hai_ProcessInstanceID := pid; hai_ExecutionID := pid;
     hai_TaskID := None; hai_Assignee := None;
     hai_CalledProcessInstanceID := None; hai_CalledCaseInstanceID := None;
     hai_StartTime := start; hai_EndTime := None; hai_DurationInMillis := None;
     hai_Canceled := false; hai_CompleteScope := false; hai_TenantID := None |}.

Definition A1 := step "A1" "P1" "analyze" "2024-01-01T00:00:00.100+0000".
Definition A2 := step "A2" "P1" "route" "2024-01-01T00:00:00.200+0000".

Definition variable (name : string) (value : Any) : HistoricVariableInstance :=
  {| hvi_ID := "V-" +:+ name; hvi_Name := name; hvi_Type := "String"; hvi_Value := value;
     hvi_ProcessDefinitionID := "customer-service:1:7"; hvi_ProcessInstanceID := "P1";
     hvi_ExecutionID := None; hvi_ActivityInstanceID := None; hvi_TaskID := None;
     hvi_CreateTime := "2024-01-01T00:00:00.000+0000"; hvi_State := "CREATED";
     hvi_TenantID := None |}.

(** The documents the scripted engine serves, by type. *)
#[export] Instance processDocuments : JSONDecode (list HistoricProcessInstance) :=
  lookupDocument [("[]", []); ("[P1]", [P1]); ("[P3]", [P3]);
                  ("[P1,P2]", [P1; P2]); ("[P2,P3]", [P2; P3])].

#[export] Instance activityDocuments : JSONDecode (list HistoricActivityInstance) :=
  lookupDocument [("[]", []); ("[A1]", [A1]); ("[A1,A2]", [A1; A2])].

#[export] Instance variableDocuments : JSONDecode (list HistoricVariableInstance) :=
  lookupDocument [("[]", []); ("[tier]", [variable "tier" (AStr "gold")])].

Definition freshPoller : Poller := NewPoller engine 100.

(** A reply [200 OK] with the given document. *)
Definition ok (body : string) : HttpOutcome := HttpResp 200 body.


(** The ids of the events a call of [Poll] returned. *)
Definition ids (r : result (list ProcessEvent)) : list string :=
  match r with Ok events => ProcessInstanceID <$> events | Err _ => [] end.

(** An idle engine: the history query finds nothing. *)
Definition idleWorld : St World := serving [ok "[]"] [].

(** A first cycle that finds [P1] and [P2] (their sub-queries find
    nothing), then a second cycle that finds [P3], which started in
    the same millisecond as [P2]. *)
Definition tieWorld : St World :=
  serving [ok "[P1,P2]"; ok "[]"; ok "[]"; ok "[]"; ok "[]";
           ok "[P3]"; ok "[]"; ok "[]"] [].
Definition tieFirst := Poll freshPoller tieWorld.
Definition tieSecond := Poll tieFirst.1.2 tieFirst.2.

(** A cycle that finds [P1] with one activity and one variable, and
    [P2], both of whose sub-queries fail. *)
Definition partialWorld : St World :=
  serving [ok "[P1,P2]"; ok "[A1]"; ok "[tier]"; HttpResp 500 "boom"; HttpErr "timeout"] [].


(** An engine that is down. *)
Definition downWorld : St World := serving [HttpErr "connection refused"] [].


(** A pipeline on the scripted platform. *)
Definition settings : config.Config :=
  {| config.Fluxnova := {| config.BaseURL := "http://localhost:8080/engine-rest";
                           config.Username := EmptyString; config.Password := EmptyString |};
     config.Kafka := {| config.Brokers := ["localhost:9092"];
                        config.EventsTopic := "fluxnova-events";
                        config.ProcessesTopic := "fluxnova-processes" |};
     config.Pipeline := {| config.PollInterval := 10000000000; config.BatchSize := 100 |};
     config.LogLevel := "info" |}.

Definition pipe : pipeline.Pipeline :=
  {| pipeline.cfg := settings; pipeline.client := engine; pipeline.poller := freshPoller;
     pipeline.producer := kafka.NewProducer ["localhost:9092"] "fluxnova-events"
                            "fluxnova-processes" |}.

(** The same pipeline with a poll interval of zero. *)
Definition hasty : pipeline.Pipeline :=
  {| pipeline.cfg :=
       {| config.Fluxnova := config.Fluxnova settings; config.Kafka := config.Kafka settings;
          config.Pipeline := {| config.PollInterval := 0; config.BatchSize := 100 |};
          config.LogLevel := "info" |};
     pipeline.client := engine; pipeline.poller := freshPoller;
     pipeline.producer := pipeline.producer pipe |}.

(** What is left of [Ok events]. *)
Definition batch (r : result (list ProcessEvent)) : list ProcessEvent :=
  match r with Ok events => events | Err _ => [] end.

(** The writes of a trace: topic, key and outcome. *)
Definition attempts (s : St World) : list (string * string * option error) :=
  (fun x => (Topic x.1.1, Key x.1.2, x.2)) <$> writes (trace s).

(** The writes of a trace to the events topic: key and [process_variables] entry. *)
Definition activitySnapshots (s : St World) : list (string * option Any) :=
  omap (fun x => if decide (Topic x.1.1 = "fluxnova-events")
                 then Some (Key x.1.2,
                            match Value x.1.2 with
                            | AMap record => publisher_props.snapshot record
                            | _ => None
                            end)
                 else None) (writes (trace s)).

(** [P1] with two activities and a variable; the broker refuses the
    process-level record. *)
Definition refusedWorld : St World :=
  serving [ok "[P1]"; ok "[A1,A2]"; ok "[tier]"] [Some "broker unavailable"].

(** [P1] with two activities; the broker refuses the first
    activity-level record only. *)
Definition flakyWorld : St World :=
  serving [ok "[P1]"; ok "[A1,A2]"; ok "[tier]"] [None; Some "write timeout"; None].

(** [P1] with one activity; its variable query fails. *)
Definition bareWorld : St World :=
  serving [ok "[P1]"; ok "[A1]"; HttpErr "timeout"] [].


(** Tasks for the worker. *)
Definition leased (id topic : string) : worker.ExternalTask :=
  {| worker.ID := id; worker.task_WorkerID := worker.WorkerID; worker.TopicName := topic;
     worker.ProcessInstanceID := "P1"; worker.ProcessDefinitionID := "customer-service:1:7";
     worker.ActivityID := topic; worker.ActivityInstanceID := topic +:+ ":1";
     worker.ExecutionID := "P1";
     worker.Variables := {[ "customerId" := AMap {[ "value" := AStr "C42" ]} ]} |}.

Definition K1 := leased "K1" "analyze-sentiment".
Definition K2 := leased "K2" "lookup-customer-profile".
Definition K3 := leased "K3" "archive-ticket".

#[export] Instance taskDocuments : JSONDecode (list worker.ExternalTask) :=
  lookupDocument [("[]", []); ("[K1,K2,K3]", [K1; K2; K3]); ("[K2]", [K2])].

(** A world with the given HTTP and handler scripts. *)
Definition working (http : list HttpOutcome) (handlers : list (result string)) : St World :=
  MkSt {| http_replies := http; write_replies := []; close_replies := [];
          activity_replies := handlers; clock := 1700000000000 |} [].

(** A batch of three: the handler of [K1] fails, [K2] is handled and
    completed, [K3] has a topic without handler.  The replies are:
    the batch, then one per report. *)
Definition batchOfThree : St World :=
  working [ok "[K1,K2,K3]"; HttpResp 204 EmptyString; HttpResp 204 EmptyString; HttpErr "connection reset"]
          [Err "model unavailable"; Ok "{}"].

(** [K2] is handled, and the engine answers the completion report
    with status 500. *)
Definition unconfirmed : St World :=
  working [HttpResp 500 "engine error"; HttpResp 204 EmptyString] [Ok "{}"].

(** The requests of a trace: URL, [errorMessage] and [retries] of the
    body if it has them, and outcome. *)
Definition requests (s : St World)
    : list (string * option Any * option Any * HttpOutcome) :=
  (fun x => (URL x.1,
             match Payload x.1 with Some (AMap doc) => doc !! "errorMessage" | _ => None end,
             match Payload x.1 with Some (AMap doc) => doc !! "retries" | _ => None end,
             x.2)) <$> http_calls (trace s).

(** The engine answers the check and the initial cycle, is down at
    the first tick, and is back, idle, at the second. *)
Definition outageWorld : St World :=
  serving [ok "{}"; ok "[]"; HttpErr "connection reset"; ok "[]"] [].


(** The engine answers the check and is idle; at shutdown the close
    of the events writer fails. *)
Definition stuckWorld : St World :=
  MkSt {| http_replies := [ok "{}"; ok "[]"]; write_replies := [];
          close_replies := [Some "flush failed"];
          activity_replies := []; clock := 1700000000000 |} [].

End examples.

(** ** The rest of package [internal/fluxnova]: the constructor of the client *)

(** [base64.StdEncoding.EncodeToString]. *)
Class Base64 := base64_encode : string -> string.

Module fluxnova_client.
Import fluxnova.

(** [NewClient]; the timeout of the [http.Client] belongs to the oracle. *)
Definition NewClient `{!Base64} (baseURL username password : string) : Client :=
  if decide (username ≠ EmptyString ∧ password ≠ EmptyString)
  then {| baseURL := baseURL;
          authHeader := "Basic " +:+ base64_encode (username +:+ ":" +:+ password) |}
  else {| baseURL := baseURL; authHeader := EmptyString |}.

End fluxnova_client.

(** ** Package [internal/config]: [Load] *)

(** [yaml.Unmarshal(data, cfg)]: the configuration as the document
    leaves it, or the error. *)
Class YAML := yaml_unmarshal : string -> config.Config -> result config.Config.

(** What a process finds around it: the files it can read and its
    environment.  A file that cannot be read, for whatever reason, is
    absent; a variable that is not set reads as the empty string. *)
Record Process := { files : gmap string string; environ : gmap string string }.

Module config_load.
Import config.

Definition ReadFile (os : Process) (name : string) : option string := files os !! name.

Definition Getenv (os : Process) (name : string) : string :=
  default EmptyString (environ os !! name).

(** The configuration [Load] starts from. *)
Definition defaults : Config :=
  {| Fluxnova := {| BaseURL := "http://localhost:8080/engine-rest";
                    Username := EmptyString; Password := EmptyString |};
     Kafka := {| Brokers := ["localhost:9092"]; EventsTopic := "fluxnova-events";
                 ProcessesTopic := "fluxnova-processes" |};
     Pipeline := {| PollInterval := 10 * 1000000000; BatchSize := 100 |};
     LogLevel := "info" |}.

(** The assignments [cfg.Fluxnova.BaseURL = v] and the like. *)
Definition setBaseURL (v : string) (cfg : Config) : Config :=
  {| Fluxnova := {| BaseURL := v; Username := Username (Fluxnova cfg);
                    Password := Password (Fluxnova cfg) |};
     Kafka := Kafka cfg; Pipeline := Pipeline cfg; LogLevel := LogLevel cfg |}.

Definition setUsername (v : string) (cfg : Config) : Config :=
  {| Fluxnova := {| BaseURL := BaseURL (Fluxnova cfg); Username := v;
                    Password := Password (Fluxnova cfg) |};
     Kafka := Kafka cfg; Pipeline := Pipeline cfg; LogLevel := LogLevel cfg |}.

Definition setPassword (v : string) (cfg : Config) : Config :=
  {| Fluxnova := {| BaseURL := BaseURL (Fluxnova cfg); Username := Username (Fluxnova cfg);
                    Password := v |};
     Kafka := Kafka cfg; Pipeline := Pipeline cfg; LogLevel := LogLevel cfg |}.

Definition setBrokers (v : list string) (cfg : Config) : Config :=
  {| Fluxnova := Fluxnova cfg;
     Kafka := {| Brokers := v; EventsTopic := EventsTopic (Kafka cfg);
                 ProcessesTopic := ProcessesTopic (Kafka cfg) |};
     Pipeline := Pipeline cfg; LogLevel := LogLevel cfg |}.

Definition setLogLevel (v : string) (cfg : Config) : Config :=
  {| Fluxnova := Fluxnova cfg; Kafka := Kafka cfg; Pipeline := Pipeline cfg;
     LogLevel := v |}.

(** [if v := os.Getenv(name); v != "" { set v }]. *)
Definition fromEnv (os : Process) (name : string) (set : string -> Config -> Config)
    (cfg : Config) : Config :=
  if decide (Getenv os name ≠ EmptyString) then set (Getenv os name) cfg else cfg.

(** [Load]. *)
Definition Load `{!YAML} (os : Process) : result Config :=
  let loaded := match ReadFile os "config.yaml" with
                | Some data => yaml_unmarshal data defaults
                | None => Ok defaults
                end in
  match loaded with
  | Err e => Err e
  | Ok cfg =>
      let cfg := fromEnv os "FLUXNOVA_BASE_URL" setBaseURL cfg in
      let cfg := fromEnv os "FLUXNOVA_USERNAME" setUsername cfg in
      let cfg := fromEnv os "FLUXNOVA_PASSWORD" setPassword cfg in
      let cfg := fromEnv os "KAFKA_BROKERS" (fun v => setBrokers [v]) cfg in
      let cfg := fromEnv os "LOG_LEVEL" setLogLevel cfg in
      Ok cfg
  end.

End config_load.

(** ** The rest of package [internal/pipeline]: [New] *)

Module pipeline_new.
Import pipeline.

(** [New]. *)
Definition New `{!Base64} (cfg : config.Config) : result Pipeline :=
  let client := fluxnova_client.NewClient (config.BaseURL (config.Fluxnova cfg))
                  (config.Username (config.Fluxnova cfg))
                  (config.Password (config.Fluxnova cfg)) in
  let producer := kafka.NewProducer (config.Brokers (config.Kafka cfg))
                    (config.EventsTopic (config.Kafka cfg))
                    (config.ProcessesTopic (config.Kafka cfg)) in
  let poller := fluxnova.NewPoller client (config.BatchSize (config.Pipeline cfg)) in
  Ok {| cfg := cfg; client := client; poller := poller; producer := producer |}.

End pipeline_new.

(** ** The command of the pipeline: [main] *)

Module cdc_main.
Import pipeline.

Section Main.
Context {World : Type} `{!Platform World} `{!TimeLayout} `{!JSONEncode} `{!Base64} `{!YAML}
        `{!JSONDecode (list fluxnova.HistoricProcessInstance)}
        `{!JSONDecode (list fluxnova.HistoricActivityInstance)}
        `{!JSONDecode (list fluxnova.HistoricVariableInstance)}.

(** [log.Fatal(label, err)]: the operands are logged and the process
    exits with status 1. *)
Definition Fatal (label : string) (e : error) : M World (Exit Z) :=
  logf label [AStr e] ;;; ret (Returned 1).

(** [main]: what the process does up to a schedule of wake-ups of
    the loop of [Run], and the status it exits with.  The signal
    handler cancels the context; its effect is the wake-up [Cancelled].
    A panic of [Run] is not recovered: the process dies of it. *)
Definition main (os : Process) (wakes : list Wake) : M World (Exit Z) :=
  match config_load.Load os with
  | Err e => Fatal "Failed to load config:" e
  | Ok cfg =>
      match pipeline_new.New cfg with
      | Err e => Fatal "Failed to create pipeline:" e
      | Ok p =>
          r <- Run wakes p ;;
          match r.1 with
          | Waiting => ret Waiting
          | Returned (Some e) => Fatal "Pipeline error:" e
          | Returned None => ret (Returned 0)
          | Panicked reason => ret (Panicked reason)
          end
      end
  end.
End Main.

End cdc_main.

(** ** The rest of package [demo/worker]: reading task variables *)

(** [json.Unmarshal([]byte(text), &target)], the error dropped: the
    target as the call leaves it. *)
Class JSONUnmarshal (T : Type) := json_unmarshal : string -> T -> T.

Module worker_vars.

(** [workflow.TicketInput]. *)
Record TicketInput := {
  TicketID : string;
  CustomerID : string;
  Subject : string;
  Body : string;
  Channel : string;
  SubmittedAt : string
}.

Definition getStringVar (vars : gmap string Any) (name : string) : string :=
  match vars !! name with
  | Some (AMap m) =>
      match m !! "value" with
      | Some (AStr val) => val
      | _ => EmptyString
      end
  | Some (AStr s) => s
  | _ => EmptyString
  end.

Definition getJSONVar {T} `{!JSONUnmarshal T} (vars : gmap string Any) (name : string)
    (target : T) : T :=
  match vars !! name with
  | Some (AMap m) =>
      match m !! "value" with
      | Some (AStr val) => json_unmarshal val target
      | _ => target
      end
  | Some (AStr s) => json_unmarshal s target
  | _ => target
  end.

Definition extractTicketInput `{!JSONUnmarshal TicketInput} (vars : gmap string Any)
    : TicketInput :=
  let zero := {| TicketID := EmptyString; CustomerID := EmptyString; Subject := EmptyString;
                 Body := EmptyString; Channel := EmptyString;
                 SubmittedAt := EmptyString |} in
  let ticket := getJSONVar vars "ticket" zero in
  if decide (TicketID ticket = EmptyString)
  then {| TicketID := getStringVar vars "ticketId";
          CustomerID := getStringVar vars "customerId";
          Subject := getStringVar vars "subject";
          Body := getStringVar vars "body";
          Channel := getStringVar vars "channel";
          SubmittedAt := SubmittedAt ticket |}
  else ticket.

End worker_vars.

(** ** Package [demo/xtdb]: quoting *)

Module xtdb.

(** [strings.ReplaceAll(s, old, new)] for a pattern [old] of one character. *)
Fixpoint ReplaceAll (s : string) (old : ascii) (new : string) : string :=
  match s with
  | EmptyString => EmptyString
  | String c s' =>
      if decide (c = old) then new +:+ ReplaceAll s' old new
      else String c (ReplaceAll s' old new)
  end.

Definition apostrophe : ascii := ascii_of_nat 39.

(** [quote]: a string as an SQL string literal.  The same function is
    in [demo/ui] and in the loaders. *)
Definition quote (s : string) : string :=
  let escaped := ReplaceAll s apostrophe (String apostrophe (String apostrophe EmptyString)) in
  String apostrophe escaped +:+ String apostrophe EmptyString.

End xtdb.

(** ** Vocabulary of the further properties *)

Module sql.
Import xtdb.

(** The body of an SQL string literal, read after its opening
    apostrophe: two apostrophes in a row stand for one, a single one
    ends the literal.  The result is the string denoted and the text
    that follows the literal. *)
Fixpoint readBody (s : string) : option (string * string) :=
  match s with
  | EmptyString => None
  | String c s' =>
      if decide (c = apostrophe) then
        match s' with
        | String c' s'' =>
            if decide (c' = apostrophe)
            then match readBody s'' with
                 | Some (v, rest) => Some (String apostrophe v, rest)
                 | None => None
                 end
            else Some (EmptyString, s')
        | EmptyString => Some (EmptyString, EmptyString)
        end
      else match readBody s' with
           | Some (v, rest) => Some (String c v, rest)
           | None => None
           end
  end.

(** An SQL string literal at the head of a text. *)
Definition readLiteral (s : string) : option (string * string) :=
  match s with
  | String c s' => if decide (c = apostrophe) then readBody s' else None
  | EmptyString => None
  end.

(** The text does not go on with an apostrophe. *)
Definition clear (rest : string) : Prop :=
  match rest with
  | String c _ => c ≠ apostrophe
  | EmptyString => True
  end.

End sql.

(** A trace that holds nothing but log lines and GET requests without body. *)
Definition reading (tr : list Event) : Prop :=
  Forall (fun ev => match ev with
                    | EvLog _ _ => True
                    | EvHttp req _ => Method req = "GET" ∧ Payload req = None
                    | _ => False
                    end) tr.

Module config_props.
Import config config_load.

(** What [Load] starts the overrides from: the defaults, or what the
    configuration file made of them. *)
Definition loaded `{!YAML} (os : Process) : result Config :=
  match ReadFile os "config.yaml" with
  | Some data => yaml_unmarshal data defaults
  | None => Ok defaults
  end.

End config_props.

Module worker_ticks.
Import worker.

Section Vocabulary.
Context {World : Type} `{!Platform World} `{!Activities World}
        `{!JSONDecode (list ExternalTask)}.

(** [n] ticks of the worker in a row. *)
Fixpoint ticks (baseURL : string) (n : nat) : M World unit :=
  match n with
  | O => ret tt
  | S n' => (main_tick baseURL ;;; ticks baseURL n')%go
  end.

(** The reports of one task to the engine, with their outcomes: a
    failure report; or a completion report that was accepted; or a
    completion report that failed and then a failure report. *)
Definition reported (baseURL : string) (task : ExternalTask)
    (reports : list (Request * HttpOutcome)) : Prop :=
  let complete := baseURL +:+ "/external-task/" +:+ ID task +:+ "/complete" in
  let failure := baseURL +:+ "/external-task/" +:+ ID task +:+ "/failure" in
  match reports with
  | [(req, out)] =>
      URL req = failure ∨ (URL req = complete ∧ completeTask_error out = None)
  | [(req1, out1); (req2, out2)] =>
      URL req1 = complete ∧ completeTask_error out1 ≠ None ∧ URL req2 = failure
  | _ => False
  end.

(** The request of [fetchAndLock]. *)
Definition fetchRequest (baseURL : string) (topics : list TopicSubscription) : Request :=
  post_request (baseURL +:+ "/external-task/fetchAndLock")
    (FetchRequest_json {| fetch_WorkerID := WorkerID; MaxTasks := 10; UsePriority := true;
                          Topics := topics |}).
End Vocabulary.

End worker_ticks.

(** ** Further sample data *)

Module samples.
Import scripted examples.

(** The standard base64 encoding. *)
Definition alphabet : string :=
  "ABCDEFGHIJKLMNOPQRSTUVWXYZabcdefghijklmnopqrstuvwxyz0123456789+/".

Definition sextet (n : N) : ascii :=
  default (ascii_of_nat 61) (String.get (N.to_nat n) alphabet).

Fixpoint encodeBytes (l : list N) : string :=
  match l with
  | a :: b :: c :: rest =>
      let n := (a * 65536 + b * 256 + c)%N in
      String (sextet (n / 262144)) (String (sextet (n / 4096 mod 64))
        (String (sextet (n / 64 mod 64)) (String (sextet (n mod 64)) (encodeBytes rest))))
  | [a; b] =>
      let n := (a * 65536 + b * 256)%N in
      String (sextet (n / 262144)) (String (sextet (n / 4096 mod 64))
        (String (sextet (n / 64 mod 64)) "="))
  | [a] =>
      let n := (a * 65536)%N in
      String (sextet (n / 262144)) (String (sextet (n / 4096 mod 64)) "==")
  | [] => EmptyString
  end.

#[export] Instance base64 : Base64 :=
  fun s => encodeBytes (N_of_ascii <$> list_ascii_of_string s).

(** YAML documents, by their text: what each sets. *)
#[export] Instance yaml : YAML := fun text cfg =>
  if decide (text = "fluxnova: {base_url: http://engine:8080/engine-rest}")
  then Ok (config_load.setBaseURL "http://engine:8080/engine-rest" cfg)
  else if decide (text = "kafka: {brokers: [k1:9092, k2:9092]}")
  then Ok (config_load.setBrokers ["k1:9092"; "k2:9092"] cfg)
  else Err "yaml: unmarshal errors".

(** Tickets, by their JSON text. *)
#[export] Instance tickets : JSONUnmarshal worker_vars.TicketInput := fun text target =>
  if decide (text = "{ticket 7}")
  then {| worker_vars.TicketID := "7"; worker_vars.CustomerID := "C42";
          worker_vars.Subject := "Refund"; worker_vars.Body := "Please refund";
          worker_vars.Channel := "email";
          worker_vars.SubmittedAt := "2024-01-01T00:00:00Z" |}
  else if decide (text = "{submitted only}")
  then {| worker_vars.TicketID := worker_vars.TicketID target;
          worker_vars.CustomerID := worker_vars.CustomerID target;
          worker_vars.Subject := worker_vars.Subject target;
          worker_vars.Body := worker_vars.Body target;
          worker_vars.Channel := worker_vars.Channel target;
          worker_vars.SubmittedAt := "2024-01-01T00:00:00Z" |}
  else target.

(** A process without configuration file and with an empty environment. *)
Definition bare : Process := {| files := ∅; environ := ∅ |}.

(** A configuration file that names two brokers, and an environment
    that names one string with a comma in it. *)
Definition overridden : Process :=
  {| files := {[ "config.yaml" := "kafka: {brokers: [k1:9092, k2:9092]}" ]};
     environ := {[ "KAFKA_BROKERS" := "b1:9092,b2:9092" ]} |}.

(** A configuration file that is not YAML. *)
Definition broken : Process :=
  {| files := {[ "config.yaml" := "{{" ]};
     environ := {[ "FLUXNOVA_BASE_URL" := "http://other/engine-rest" ]} |}.


(** The variables of a task in the two conventions: a typed value and
    a bare string. *)
Definition ticketVars : gmap string Any :=
  {[ "ticket" := AMap {[ "value" := AStr "{ticket 7}"; "type" := AStr "Json" ]};
     "customerId" := AStr "C1" ]}.

Definition flatVars : gmap string Any :=
  {[ "ticketId" := AMap {[ "value" := AStr "9" ]}; "customerId" := AStr "C1";
     "priority" := AMap {[ "value" := AInt 3 ]} ]}.

(** The fetch fails with status 503. *)
Definition unavailable : St World := working [HttpResp 503 "maintenance"] [].

(** Two ticks: a batch with [K2] alone, handled and completed, then
    an empty batch. *)
Definition twoTicks : St World :=
  working [ok "[K2]"; HttpResp 204 EmptyString; ok "[]"] [Ok "{}"].

(** [P4] starts at the instant [T1], like [P2], and the engine renders
    its start time in another zone; the engine lists the two in
    either order. *)
Definition P4 := instance "P4" "2024-01-01T01:00:01.000+0100" "ACTIVE" None None.

Definition eitherOrder : JSONDecode (list fluxnova.HistoricProcessInstance) :=
  lookupDocument [("[P2,P4]", [P2; P4]); ("[P4,P2]", [P4; P2])].

Definition forwards :=
  @fluxnova.Poll World platform layout eitherOrder activityDocuments variableDocuments
    freshPoller (serving [ok "[P2,P4]"; ok "[]"; ok "[]"; ok "[]"; ok "[]"] []).

Definition backwards :=
  @fluxnova.Poll World platform layout eitherOrder activityDocuments variableDocuments
    freshPoller (serving [ok "[P4,P2]"; ok "[A1]"; ok "[]"; ok "[]"; ok "[tier]"] []).

(** A command line: no configuration file, an empty environment. *)
Definition started (wakes : list Wake) := cdc_main.main bare wakes outageWorld.

End samples.

(** * Properties *)

(** Unfolding of the sequencing operations. *)
Ltac run := unfold bind, ret, call, peek, logf in *; simpl in *.

Lemma bind_run {World A B} (c : M World A) (k : A -> M World B) s :
  bind c k s = k (c s).1 (c s).2.
Proof. unfold bind. by destruct (c s). Qed.

Lemma ret_run {World A} (a : A) (s : St World) : ret a s = (a, s).
Proof. done. Qed.

Lemma logf_run {World} format args (s : St World) :
  logf format args s = (tt, MkSt (world s) (trace s ++ [EvLog format args])).
Proof. done. Qed.

Lemma call_run {World A} (f : World -> A * World) ev (s : St World) :
  call f ev s = ((f (world s)).1, MkSt (f (world s)).2 (trace s ++ [ev (f (world s)).1])).
Proof. unfold call. by destruct (f (world s)). Qed.

(** Running a sequence of steps, one equation at a time. *)
Ltac steps :=
  repeat (progress (rewrite ?bind_run, ?ret_run, ?logf_run, ?call_run;
                    cbn [fst snd world trace])).

Lemma foldM_cons {World A S} (body : S -> A -> M World S) x l acc s :
  foldM body (x :: l) acc s = foldM body l (body acc x s).1 (body acc x s).2.
Proof. simpl. unfold bind. by destruct (body acc x s). Qed.


Lemma forM_cons {World A} (body : A -> M World unit) x l s :
  forM_ (x :: l) body s = forM_ l body (body x s).2.
Proof. simpl. unfold bind. by destruct (body x s). Qed.

(** ** The order on watermarks *)

Module watermark_facts.
Import watermark.

Lemma le_refl a : le a a.
Proof. destruct a; simpl; [lia | done]. Qed.

Lemma le_trans a b c : le a b -> le b c -> le a c.
Proof. destruct a, b, c; simpl; try done; lia. Qed.

Lemma join_none_r a : join a None = a.
Proof. by destruct a. Qed.

Lemma join_assoc a b c : join (join a b) c = join a (join b c).
Proof.
  destruct a as [x|], b as [y|], c as [z|]; simpl; try done;
    unfold After; repeat (case_decide; simpl); unfold After in *; done || lia.
Qed.

Lemma le_join_l a b : le a (join a b).
Proof.
  destruct a, b; simpl; try done; try lia.
  case_decide; unfold After in *; simpl; lia.
Qed.

Lemma le_join_r a b : le b (join a b).
Proof.
  destruct a, b; simpl; try done; try lia.
  case_decide; unfold After in *; simpl; lia.
Qed.

Lemma latest_upper t l : t ∈ l -> le (Some t) (latest l).
Proof.
  induction l as [|x l IH]; intros Hin.
  - by apply elem_of_nil in Hin.
  - apply elem_of_cons in Hin as [->|Hin]; cbn [latest foldr].
    + apply le_join_l.
    + eapply le_trans; [by apply IH | apply le_join_r].
Qed.

(** A watermark at or after every time of a list is not moved by it. *)
Lemma join_latest_below wm l :
  (∀ t, t ∈ l -> le (Some t) wm) -> join wm (latest l) = wm.
Proof.
  induction l as [|x l IH]; intros Hall; [apply join_none_r|].
  change (latest (x :: l)) with (join (Some x) (latest l)).
  rewrite <- join_assoc.
  replace (join wm (Some x)) with wm.
  - apply IH. intros t Ht. by apply Hall, list_elem_of_further.
  - pose proof (Hall x (list_elem_of_here _ _)) as Hx.
    destruct wm; simpl in *; [|done]. by rewrite decide_False by (unfold After; lia).
Qed.

End watermark_facts.

(** ** The checkpointed poller *)

Module poller_facts.
Import fluxnova poller_props watermark_facts.

Section Poller.
Context {World : Type} `{!Platform World} `{!TimeLayout}
        `{!JSONDecode (list HistoricProcessInstance)}
        `{!JSONDecode (list HistoricActivityInstance)}
        `{!JSONDecode (list HistoricVariableInstance)}.

Implicit Types (p : Poller) (s : St World) (proc : HistoricProcessInstance).

Lemma advance_watermark p start :
  lastPollTime (advance p start) = watermark.join (lastPollTime p) (time_parse start).
Proof.
  unfold advance. destruct (time_parse start) as [t|]; [|by rewrite join_none_r].
  destruct (lastPollTime p) as [last|] eqn:E; simpl; [|done].
  by case_decide.
Qed.

Lemma advance_client p start : client (advance p start) = client p.
Proof.
  unfold advance. destruct (time_parse start); [|done].
  destruct (lastPollTime p); [case_decide|]; done.
Qed.

Lemma foldl_advance_watermark starts p :
  lastPollTime (foldl advance p starts)
  = watermark.join (lastPollTime p) (watermark.latest (startInstants starts)).
Proof.
  revert p. induction starts as [|x l IH]; intros p; simpl.
  - by rewrite join_none_r.
  - rewrite IH, advance_watermark, join_assoc. unfold startInstants. simpl.
    by destruct (time_parse x).
Qed.

(** What one iteration of the loop does to the loop state and to the trace. *)
Lemma Poll_step_spec events p proc s :
  ∃ ev outA outV logA logV,
    (Poll_step (events, p) proc s).1 = (events ++ [ev], advance p (hpi_StartTime proc))
    ∧ base proc ev
    ∧ Activities ev = match get_result outA with Ok l => l | Err _ => [] end
    ∧ Variables ev = match get_result outV with
                     | Ok l => Some (collectVariables l)
                     | Err _ => None
                     end
    ∧ trace (Poll_step (events, p) proc s).2
      = trace s ++ [EvHttp (get_request (client p) (activities_url (client p) (hpi_ID proc))) outA]
                ++ logA
                ++ [EvHttp (get_request (client p) (variables_url (client p) (hpi_ID proc))) outV]
                ++ logV
    ∧ http_calls logA = [] ∧ http_calls logV = [].
Proof.
  unfold Poll_step, GetHistoricActivityInstances, GetHistoricVariableInstances, get. run.
  destruct (time_now (world s)) as [now w1].
  simpl.
  destruct (http_do (get_request (client p) (activities_url (client p) (hpi_ID proc))) w1)
    as [outA w2] eqn:EA.
  simpl.
  destruct (get_result outA) as [acts|eA] eqn:RA; simpl.
  - destruct (http_do (get_request (client p) (variables_url (client p) (hpi_ID proc))) w2)
      as [outV w3] eqn:EV.
    simpl.
    destruct (get_result outV) as [vars|eV] eqn:RV; simpl.
    + eexists _, outA, outV, [], []. rewrite RA, RV. simpl.
      rewrite <- !app_assoc. repeat split; reflexivity.
    + eexists _, outA, outV, [], [_]. rewrite RA, RV. simpl.
      rewrite <- !app_assoc. repeat split; reflexivity.
  - destruct (http_do (get_request (client p) (variables_url (client p) (hpi_ID proc))) w2)
      as [outV w3] eqn:EV.
    simpl.
    destruct (get_result outV) as [vars|eV] eqn:RV; simpl.
    + eexists _, outA, outV, [_], []. rewrite RA, RV. simpl.
      rewrite <- !app_assoc. repeat split; reflexivity.
    + eexists _, outA, outV, [_], [_]. rewrite RA, RV. simpl.
      rewrite <- !app_assoc. repeat split; reflexivity.
Qed.

(** The loop of [Poll], from any loop state. *)
Lemma Poll_loop_spec procs events0 p s :
  ∃ events tr,
    (foldM Poll_step procs (events0, p) s).1
    = (events0 ++ events, foldl advance p (hpi_StartTime <$> procs))
    ∧ trace (foldM Poll_step procs (events0, p) s).2 = trace s ++ tr
    ∧ assembled (client p) procs events (http_calls tr).
Proof.
  revert events0 p s. induction procs as [|proc procs IH]; intros events0 p s.
  - exists [], []. simpl. unfold ret. simpl. rewrite !app_nil_r.
    repeat split. constructor.
  - destruct (Poll_step_spec events0 p proc s)
      as (ev & outA & outV & logA & logV & Hst & Hbase & Hacts & Hvars & Htr & HlA & HlV).
    rewrite foldM_cons.
    destruct (Poll_step (events0, p) proc s) as [acc s1] eqn:E. simpl in Hst, Htr.
    subst acc. simpl fst. simpl snd.
    destruct (IH (events0 ++ [ev]) (advance p (hpi_StartTime proc)) s1)
      as (events & tr & Hst' & Htr' & Hasm).
    exists (ev :: events),
      ([EvHttp (get_request (client p) (activities_url (client p) (hpi_ID proc))) outA]
       ++ logA
       ++ [EvHttp (get_request (client p) (variables_url (client p) (hpi_ID proc))) outV]
       ++ logV ++ tr).
    split; [|split].
    + rewrite Hst'. simpl. by rewrite <- app_assoc.
    + rewrite Htr', Htr. simpl. rewrite <- !app_assoc. simpl.
      do 2 f_equal. by rewrite <- app_assoc.
    + unfold http_calls in *. rewrite !omap_app, HlA, HlV. simpl.
      rewrite advance_client in Hasm. by constructor.
Qed.

(** The three ways [Poll] can go, by the outcome of the history query. *)
Lemma Poll_spec p s :
  match GetHistoricProcessInstances (client p) (lastPollTime p) (batchSize p) s with
  | (Err e, s1) => Poll p s = (Err e, p, s1)
  | (Ok [], s1) => Poll p s = (Ok [], p, s1)
  | (Ok procs, s1) =>
      ∃ events tr s',
        Poll p s = (Ok events, foldl advance p (hpi_StartTime <$> procs), s')
        ∧ trace s' = trace s1 ++ tr
        ∧ assembled (client p) procs events (http_calls tr)
  end.
Proof.
  unfold Poll. rewrite bind_run.
  destruct (GetHistoricProcessInstances _ _ _ s) as [[procs|e] s1]; [|reflexivity].
  destruct procs as [|proc procs]; [reflexivity|].
  destruct (Poll_loop_spec (proc :: procs) [] p s1) as (events & tr & Hst & Htr & Hasm).
  cbn [fst snd]. rewrite bind_run.
  destruct (foldM Poll_step (proc :: procs) ([], p) s1) as [acc s'] eqn:E.
  simpl in Hst, Htr. subst acc. unfold ret. simpl. exists events, tr, s'. eauto.
Qed.

Lemma assembled_length c procs events calls :
  assembled c procs events calls -> length events = length procs.
Proof. induction 1; simpl; congruence. Qed.

Lemma assembled_starts c procs events calls :
  assembled c procs events calls -> StartTime <$> events = hpi_StartTime <$> procs.
Proof.
  induction 1 as [|proc ev outA outV procs events calls Hb _ _ _ IH]; [done|].
  rewrite !fmap_cons. destruct Hb as (_ & _ & _ & _ & _ & -> & _). by rewrite IH.
Qed.

(** The events of a batch, by position. *)
Lemma assembled_lookup c procs events calls (i : nat) proc :
  assembled c procs events calls -> procs !! i = Some proc ->
  ∃ ev outA outV,
    events !! i = Some ev
    ∧ base proc ev
    ∧ calls !! (2 * i)%nat = Some (get_request c (activities_url c (hpi_ID proc)), outA)
    ∧ calls !! (2 * i + 1)%nat = Some (get_request c (variables_url c (hpi_ID proc)), outV)
    ∧ Activities ev = match get_result outA with Ok l => l | Err _ => [] end
    ∧ Variables ev = match get_result outV with
                     | Ok l => Some (collectVariables l)
                     | Err _ => None
                     end.
Proof.
  intros Hasm. revert i proc.
  induction Hasm as [|proc' ev outA outV procs events calls Hb Ha Hv _ IH]; intros i proc Hi.
  - by rewrite lookup_nil in Hi.
  - destruct i as [|i]; simpl in Hi.
    + simplify_eq. exists ev, outA, outV. split_and!; done.
    + destruct (IH i proc Hi) as (ev' & oA & oV & H1 & H2 & H3 & H4 & H5 & H6).
      exists ev', oA, oV. split_and!; try done.
      * replace (2 * S i)%nat with (S (S (2 * i))) by lia. done.
      * replace (2 * S i + 1)%nat with (S (S (2 * i + 1))) by lia. done.
Qed.
End Poller.

End poller_facts.

(** ** Claims about the checkpointed poller *)

Module poller_claims.
Import fluxnova poller_props watermark_facts poller_facts.

Section Claims.
Context {World : Type} `{!Platform World} `{!TimeLayout}
        `{!JSONDecode (list HistoricProcessInstance)}
        `{!JSONDecode (list HistoricActivityInstance)}
        `{!JSONDecode (list HistoricVariableInstance)}.

Implicit Types (p : Poller) (s : St World).

Lemma Poll_poller p s :
  (Poll p s).1.2 = p
  ∨ ∃ procs events s1,
      (Poll p s).1 = (Ok events, foldl advance p (hpi_StartTime <$> procs))
      ∧ GetHistoricProcessInstances (client p) (lastPollTime p) (batchSize p) s
        = (Ok procs, s1)
      ∧ StartTime <$> events = hpi_StartTime <$> procs.
Proof.
  pose proof (Poll_spec p s) as Hspec.
  destruct (GetHistoricProcessInstances _ _ _ s) as [[[|proc procs]|e] s1].
  - left. by rewrite Hspec.
  - right. destruct Hspec as (events & tr & s' & -> & _ & Hasm).
    exists (proc :: procs), events, s1. split_and!; try done.
    by eapply assembled_starts.
  - left. by rewrite Hspec.
Qed.

Lemma Poll_le p s : watermark.le (lastPollTime p) (lastPollTime (Poll p s).1.2).
Proof.
  destruct (Poll_poller p s) as [->|(procs & events & s1 & -> & _)]; [apply le_refl|].
  simpl. rewrite foldl_advance_watermark. apply le_join_l.
Qed.

Lemma Polls_sorted n p s :
  StronglySorted watermark.le (lastPollTime p :: (Polls n p s).1.1).
Proof.
  revert p s. induction n as [|n IH]; intros p s.
  - simpl. repeat constructor.
  - cbn [Polls]. rewrite bind_run. cbn beta. rewrite bind_run. unfold ret. cbn [fst snd].
    pose proof (Poll_le p s) as Hle.
    specialize (IH (Poll p s).1.2 (Poll p s).2).
    constructor; [done|].
    apply StronglySorted_inv in IH as [_ Hall].
    constructor; [done|].
    eapply Forall_impl; [exact Hall|]. intros w Hw. by eapply le_trans.
Qed.

(** C6.  When the history query returns no process instance, [Poll]
    returns the empty sequence without error and leaves the poller,
    hence the watermark, as it was; nothing else happens. *)
Theorem Poll_idle p s s1 :
  GetHistoricProcessInstances (client p) (lastPollTime p) (batchSize p) s = (Ok [], s1) ->
  Poll p s = (Ok [], p, s1).
Proof. intros Hq. pose proof (Poll_spec p s) as Hs. by rewrite Hq in Hs. Qed.

Lemma lt_join a t c :
  watermark.lt a (Some t) -> watermark.le (Some t) c -> watermark.lt a (watermark.join a c).
Proof.
  destruct a, c; simpl; try done; try lia.
  case_decide; unfold After in *; simpl; lia.
Qed.

(** C1 (amended).  A call of [Poll] never lowers the watermark; it
    raises it strictly when some returned instance has a start time
    that parses and lies strictly after the watermark the call
    started from; over any number of consecutive calls the
    watermarks form a non-decreasing sequence; and returned
    instances that start at the watermark or before it, whether or
    not an earlier call returned them, do not move it. *)
Theorem Poll_watermark_monotone p s r p' s' :
  Poll p s = (r, p', s') ->
  watermark.le (lastPollTime p) (lastPollTime p')
  ∧ (∀ events ev t,
       r = Ok events -> ev ∈ events -> time_parse (StartTime ev) = Some t ->
       watermark.lt (lastPollTime p) (Some t) ->
       watermark.lt (lastPollTime p) (lastPollTime p'))
  ∧ (∀ n, StronglySorted watermark.le (lastPollTime p :: (Polls n p s).1.1))
  ∧ (∀ events,
       r = Ok events ->
       (∀ ev t, ev ∈ events -> time_parse (StartTime ev) = Some t ->
                watermark.le (Some t) (lastPollTime p)) ->
       lastPollTime p' = lastPollTime p).
Proof.
  intros HP. split_and!.
  - pose proof (Poll_le p s) as Hle. by rewrite HP in Hle.
  - intros events ev t -> Hin Ht Hlt.
    pose proof (Poll_spec p s) as Hspec. rewrite HP in Hspec.
    destruct (GetHistoricProcessInstances _ _ _ s) as [[[|proc procs]|e] s1].
    + simplify_eq. by apply elem_of_nil in Hin.
    + destruct Hspec as (events' & tr & s'' & Heq & _ & Hasm). simplify_eq.
      apply assembled_starts in Hasm.
      rewrite foldl_advance_watermark. eapply lt_join; [done|].
      apply latest_upper. unfold startInstants. rewrite <- Hasm.
      apply list_elem_of_omap. exists (StartTime ev). split; [|done].
      by apply list_elem_of_fmap_2.
    + simplify_eq.
  - intros n. apply Polls_sorted.
  - intros events -> Hbelow.
    destruct (Poll_poller p s) as [Hsame|(procs & events' & s1 & Heq & _ & Hstarts)];
      rewrite HP in *; cbn [fst snd] in *; [by subst|].
    simplify_eq. rewrite foldl_advance_watermark. apply join_latest_below.
    intros t Ht. unfold startInstants in Ht. rewrite <- Hstarts in Ht.
    apply list_elem_of_omap in Ht as (start & Hstart & Hparse).
    apply list_elem_of_fmap in Hstart as (ev & -> & Hev). by eapply Hbelow.
Qed.


(** C4.  When the history query succeeds, [Poll] succeeds, with one
    event per process instance, in order.  The event of an instance
    carries the base fields of its record; it is built from the
    outcomes of that instance's own two sub-queries (the calls
    number [2i] and [2i+1] of the loop): a failed activity query
    leaves [Activities] empty, a failed variable query leaves
    [Variables] absent, and neither ends the cycle. *)
Theorem Poll_partial_failure p s procs s1 :
  GetHistoricProcessInstances (client p) (lastPollTime p) (batchSize p) s
  = (Ok procs, s1) ->
  ∃ events p' s' tr,
    Poll p s = (Ok events, p', s')
    ∧ trace s' = trace s1 ++ tr
    ∧ length events = length procs
    ∧ ∀ (i : nat) proc, procs !! i = Some proc ->
        ∃ ev outA outV,
          events !! i = Some ev
          ∧ base proc ev
          ∧ http_calls tr !! (2 * i)%nat
            = Some (get_request (client p) (activities_url (client p) (hpi_ID proc)), outA)
          ∧ http_calls tr !! (2 * i + 1)%nat
            = Some (get_request (client p) (variables_url (client p) (hpi_ID proc)), outV)
          ∧ (∀ e, get_result (T:=list HistoricActivityInstance) outA = Err e ->
                  Activities ev = [])
          ∧ (∀ l, get_result outA = Ok l -> Activities ev = l)
          ∧ (∀ e, get_result (T:=list HistoricVariableInstance) outV = Err e ->
                  Variables ev = None)
          ∧ (∀ l, get_result outV = Ok l -> Variables ev = Some (collectVariables l)).
Proof.
  intros Hq. pose proof (Poll_spec p s) as Hspec. rewrite Hq in Hspec.
  assert (∃ events p' s' tr, Poll p s = (Ok events, p', s') ∧ trace s' = trace s1 ++ tr
                             ∧ assembled (client p) procs events (http_calls tr))
    as (events & p' & s' & tr & HP & Htr & Hasm).
  { destruct procs as [|proc procs].
    - exists [], p, s1, []. rewrite app_nil_r. split_and!; [done..|constructor].
    - destruct Hspec as (events & tr & s' & HP & Htr & Hasm). by eexists _, _, _, _. }
  exists events, p', s', tr. split_and!; [done..|by eapply assembled_length|].
  intros i proc Hi.
  destruct (assembled_lookup _ _ _ _ i proc Hasm Hi)
    as (ev & outA & outV & H1 & H2 & H3 & H4 & H5 & H6).
  exists ev, outA, outV. split_and!; try done.
  - intros e He. by rewrite H5, He.
  - intros l Hl. by rewrite H5, Hl.
  - intros e He. by rewrite H6, He.
  - intros l Hl. by rewrite H6, Hl.
Qed.
End Claims.

End poller_claims.

(** ** The poller on the scripted engine *)

Module poller_examples.
Import fluxnova scripted examples poller_props poller_claims.

(** The scenario of two instances: a fresh poller emits [P1], [P2] in
    order and its watermark becomes [T1]. *)
Example Poll_two_instances :
  ids (Poll freshPoller partialWorld).1.1 = ["P1"; "P2"]
  ∧ lastPollTime (Poll freshPoller partialWorld).1.2 = Some T1.
Proof. by vm_compute. Qed.

Lemma Poll_idle_witness :
  Poll freshPoller idleWorld
  = (Ok [], freshPoller,
     (GetHistoricProcessInstances engine (lastPollTime freshPoller) (batchSize freshPoller)
        idleWorld).2).
Proof. apply Poll_idle. vm_compute. reflexivity. Defined.

(** C1, counterexample.  The second cycle returns [P3], an instance no
    earlier cycle returned, and the watermark stays at [T1]: [P3]
    started in the very millisecond the watermark stands at. *)
Lemma Poll_watermark_tie :
  ids tieFirst.1.1 = ["P1"; "P2"]
  ∧ lastPollTime tieFirst.1.2 = Some T1
  ∧ ids tieSecond.1.1 = ["P3"]
  ∧ lastPollTime tieSecond.1.2 = Some T1
  ∧ ¬ watermark.lt (lastPollTime tieFirst.1.2) (lastPollTime tieSecond.1.2).
Proof. vm_compute. split_and!; try reflexivity. intros Hlt. discriminate Hlt. Qed.

Lemma Poll_watermark_monotone_witness :
  watermark.le (lastPollTime freshPoller) (lastPollTime tieFirst.1.2)
  ∧ watermark.lt (lastPollTime freshPoller) (lastPollTime tieFirst.1.2)
  ∧ StronglySorted watermark.le (lastPollTime freshPoller :: (Polls 2 freshPoller tieWorld).1.1).
Proof.
  assert (HP : Poll freshPoller tieWorld = (tieFirst.1.1, tieFirst.1.2, tieFirst.2))
    by (vm_compute; reflexivity).
  destruct (Poll_watermark_monotone _ _ _ _ _ HP) as (Hle & Hlt & Hsorted & _).
  split_and!; [exact Hle| |exact (Hsorted 2%nat)].
  eapply (Hlt _ _ T0); [reflexivity|apply list_elem_of_here|reflexivity|exact I].
Defined.



Lemma Poll_partial_failure_witness :
  ∃ ev, (match (Poll freshPoller partialWorld).1.1 with Ok l => l | Err _ => [] end) !! 1%nat
        = Some ev
        ∧ ProcessInstanceID ev = "P2" ∧ Activities ev = [] ∧ Variables ev = None.
Proof.
  destruct (Poll_partial_failure freshPoller partialWorld [P1; P2]
              (GetHistoricProcessInstances engine None 100 partialWorld).2)
    as (events & p' & s' & tr & HP & Htr & Hlen & Hev).
  { vm_compute. reflexivity. }
  destruct (Hev 1%nat P2 eq_refl)
    as (ev & outA & outV & Hi & Hbase & HA & HV & HAerr & _ & HVerr & _).
  exists ev. rewrite HP. simpl. split; [exact Hi|].
  destruct Hbase as (_ & Hid & _). split; [exact Hid|].
  assert (Htrace : tr = drop 1 (trace (Poll freshPoller partialWorld).2)).
  { rewrite HP. simpl. rewrite Htr. vm_compute. reflexivity. }
  subst tr. vm_compute in HA, HV. 
  injection HA as <-. injection HV as <-.
  split; [eapply HAerr|eapply HVerr]; vm_compute; reflexivity.
Defined.

End poller_examples.

(** ** The publish step of the pipeline *)

Module publisher_facts.
Import fluxnova kafka pipeline publisher_props.

Section Publisher.
Context {World : Type} `{!Platform World} `{!TimeLayout} `{!JSONEncode}
        `{!JSONDecode (list HistoricProcessInstance)}
        `{!JSONDecode (list HistoricActivityInstance)}
        `{!JSONDecode (list HistoricVariableInstance)}.

Implicit Types (p : Pipeline) (s : St World) (ev : ProcessEvent).

Lemma poll_activities_spec p ev acts s :
  ∃ tr,
    trace (forM_ acts (fun activity =>
             r <- SendEvent (producer p) (hai_ID activity)
                    (AMap (activityRecord ev activity)) ;;
             match r with
             | Some e => logf "Failed to send activity %s: %v"
                           [AStr (hai_ID activity); AStr e]
             | None => ret tt
             end)%go s).2 = trace s ++ tr
    ∧ activitiesSent (producer p) ev acts tr.
Proof.
  revert s. induction acts as [|a acts IH]; intros s.
  - exists []. simpl. rewrite app_nil_r. split; [done|constructor].
  - rewrite forM_cons.
    match goal with |- context [forM_ acts ?b ?s1] => destruct (IH s1) as (tr & Htr & Hsent) end.
    unfold SendEvent in *. rewrite !bind_run in *. unfold call in *.
    destruct (kafka_write (eventsWriter (producer p))
                {| Key := hai_ID a; Value := AMap (activityRecord ev a) |} (world s))
      as [out w1] eqn:E.
    exists (EvWrite (eventsWriter (producer p)) (activityMessage ev a) out
            :: activityLog a out :: tr).
    split; [|by constructor].
    rewrite Htr. destruct out as [e|]; run; rewrite <- !app_assoc; reflexivity.
Qed.

Lemma poll_event_spec p ev s :
  ∃ tr, trace (poll_event p ev s).2 = trace s ++ tr
        ∧ published (producer p) [ev] tr.
Proof.
  unfold poll_event, SendProcess. rewrite !bind_run. unfold call.
  destruct (kafka_write (processesWriter (producer p))
              {| Key := ProcessInstanceID ev; Value := AMap (processRecord ev) |} (world s))
    as [out w1] eqn:E.
  destruct out as [e|].
  - eexists. split; [|apply published_failed, published_nil]. run.
    rewrite <- !app_assoc. reflexivity.
  - unfold poll_activities. run.
    match goal with |- context [forM_ _ ?b ?s1] =>
      destruct (poll_activities_spec p ev (Activities ev) s1) as (tr & Htr & Hsent) end.
    exists (EvWrite (processesWriter (producer p)) (processMessage ev) None
            :: processLog ev None :: tr ++ []).
    split; [|by apply published_sent; [|constructor]].
    run. rewrite Htr. simpl. rewrite <- !app_assoc, app_nil_r. reflexivity.
Qed.

Lemma published_app P events1 events2 tr1 tr2 :
  published P events1 tr1 -> published P events2 tr2 ->
  published P (events1 ++ events2) (tr1 ++ tr2).
Proof.
  induction 1 as [|ev e events tr _ IH|ev atr events tr Ha _ IH]; intros H2; simpl.
  - done.
  - apply published_failed. by apply IH.
  - rewrite <- app_assoc. apply published_sent; [done|]. by apply IH.
Qed.

(** The publish loop over a batch. *)
Lemma poll_loop_spec p events s :
  ∃ tr, trace (forM_ events (poll_event p) s).2 = trace s ++ tr
        ∧ published (producer p) events tr.
Proof.
  revert s. induction events as [|ev events IH]; intros s.
  - exists []. simpl. rewrite app_nil_r. split; [done|constructor].
  - rewrite forM_cons.
    destruct (poll_event_spec p ev s) as (tr1 & Htr1 & H1).
    destruct (IH (poll_event p ev s).2) as (tr2 & Htr2 & H2).
    exists (tr1 ++ tr2). split.
    + by rewrite Htr2, Htr1, <- app_assoc.
    + by apply (published_app _ [ev]).
Qed.

(** One poll-and-publish cycle, by the result of [Poll]. *)
Lemma poll_spec p s r q s1 :
  Poll (poller p) s = (r, q, s1) ->
  match r with
  | Err e => poll p s = (Some e, withPoller p q, s1)
  | Ok events =>
      ∃ tr s', poll p s = (None, withPoller p q, s')
               ∧ trace s' = trace s1 ++ polled events ++ tr
               ∧ published (producer p) events tr
  end.
Proof.
  intros HP. unfold poll. rewrite bind_run, HP. cbn [fst snd].
  destruct r as [[|ev events]|e]; [| |done].
  - exists [], s1. rewrite !app_nil_r. split_and!; [done..|constructor].
  - rewrite !bind_run. unfold ret.
    match goal with |- context [forM_ _ _ ?s2] =>
      destruct (poll_loop_spec (withPoller p q) (ev :: events) s2) as (tr & Htr & Hpub) end.
    eexists tr, _. split_and!; [reflexivity| |exact Hpub].
    rewrite Htr. run. by rewrite <- app_assoc.
Qed.
End Publisher.

End publisher_facts.

Module publisher_claims.
Import fluxnova kafka pipeline publisher_props publisher_facts.

Section Claims.
Context {World : Type} `{!Platform World} `{!TimeLayout} `{!JSONEncode}
        `{!JSONDecode (list HistoricProcessInstance)}
        `{!JSONDecode (list HistoricActivityInstance)}
        `{!JSONDecode (list HistoricVariableInstance)}.

Implicit Types (p : Pipeline) (P : Producer) (s : St World) (ev : ProcessEvent).

Lemma activitiesSent_written P ev acts tr a :
  activitiesSent P ev acts tr -> a ∈ acts ->
  ∃ out, EvWrite (eventsWriter P) (activityMessage ev a) out ∈ tr.
Proof.
  induction 1 as [|a' out acts tr _ IH]; intros Hin.
  - by apply elem_of_nil in Hin.
  - apply elem_of_cons in Hin as [->|Hin].
    + exists out. apply list_elem_of_here.
    + destruct (IH Hin) as [out' Hout]. exists out'. by do 2 apply list_elem_of_further.
Qed.

Lemma activitiesSent_origin P ev acts tr w msg out :
  activitiesSent P ev acts tr -> EvWrite w msg out ∈ tr ->
  ∃ a, a ∈ acts ∧ w = eventsWriter P ∧ msg = activityMessage ev a
       ∧ activityLog a out ∈ tr.
Proof.
  induction 1 as [|a out' acts tr _ IH]; intros Hin.
  - by apply elem_of_nil in Hin.
  - apply elem_of_cons in Hin as [Heq|Hin].
    + simplify_eq. exists a. split_and!; [apply list_elem_of_here|done..|].
      apply list_elem_of_further, list_elem_of_here.
    + apply elem_of_cons in Hin as [Heq|Hin]; [by destruct out'|].
      destruct (IH Hin) as (a' & ? & ? & ? & ?). exists a'.
      split_and!; [by apply list_elem_of_further|done..|].
      by do 2 apply list_elem_of_further.
Qed.

Lemma published_written P events tr ev :
  published P events tr -> ev ∈ events ->
  ∃ out, EvWrite (processesWriter P) (processMessage ev) out ∈ tr
         ∧ (out = None -> ∀ a, a ∈ Activities ev ->
            ∃ out', EvWrite (eventsWriter P) (activityMessage ev a) out' ∈ tr).
Proof.
  induction 1 as [|ev' e events tr _ IH|ev' atr events tr Ha _ IH]; intros Hin.
  - by apply elem_of_nil in Hin.
  - apply elem_of_cons in Hin as [->|Hin].
    + exists (Some e). split; [apply list_elem_of_here|done].
    + destruct (IH Hin) as (out & Hout & Hacts). exists out.
      split; [by do 2 apply list_elem_of_further|].
      intros Hnone a Ha. destruct (Hacts Hnone a Ha) as [out' Hout'].
      exists out'. by do 2 apply list_elem_of_further.
  - apply elem_of_cons in Hin as [->|Hin].
    + exists None. split; [apply list_elem_of_here|].
      intros _ a Hain. destruct (activitiesSent_written _ _ _ _ a Ha Hain) as [out' Hout'].
      exists out'. do 2 apply list_elem_of_further. apply elem_of_app. by left.
    + destruct (IH Hin) as (out & Hout & Hacts). exists out.
      split; [do 2 apply list_elem_of_further; apply elem_of_app; by right|].
      intros Hnone a Hain. destruct (Hacts Hnone a Hain) as [out' Hout'].
      exists out'. do 2 apply list_elem_of_further. apply elem_of_app. by right.
Qed.

Lemma published_origin P events tr w msg out :
  published P events tr -> EvWrite w msg out ∈ tr ->
  (∃ ev, ev ∈ events ∧ w = processesWriter P ∧ msg = processMessage ev
         ∧ processLog ev out ∈ tr)
  ∨ (∃ ev a, ev ∈ events ∧ a ∈ Activities ev ∧ w = eventsWriter P
             ∧ msg = activityMessage ev a ∧ activityLog a out ∈ tr).
Proof.
  induction 1 as [|ev' e events tr _ IH|ev' atr events tr Ha _ IH]; intros Hin.
  - by apply elem_of_nil in Hin.
  - apply elem_of_cons in Hin as [Heq|Hin].
    + simplify_eq. left. exists ev'. split_and!; [apply list_elem_of_here|done..|].
      apply list_elem_of_further, list_elem_of_here.
    + apply elem_of_cons in Hin as [Heq|Hin]; [done|].
      destruct (IH Hin) as [(ev & ? & ? & ? & ?)|(ev & a & ? & ? & ? & ? & ?)].
      * left. exists ev. split_and!; [by apply list_elem_of_further|done..|].
        by do 2 apply list_elem_of_further.
      * right. exists ev, a. split_and!; [by apply list_elem_of_further|done..|].
        by do 2 apply list_elem_of_further.
  - apply elem_of_cons in Hin as [Heq|Hin].
    + simplify_eq. left. exists ev'. split_and!; [apply list_elem_of_here|done..|].
      apply list_elem_of_further, list_elem_of_here.
    + apply elem_of_cons in Hin as [Heq|Hin]; [done|].
      apply elem_of_app in Hin as [Hin|Hin].
      * destruct (activitiesSent_origin _ _ _ _ _ _ _ Ha Hin) as (a & ? & ? & ? & ?).
        right. exists ev', a. split_and!; [apply list_elem_of_here|done..|].
        do 2 apply list_elem_of_further. apply elem_of_app. by left.
      * destruct (IH Hin) as [(ev & ? & ? & ? & ?)|(ev & a & ? & ? & ? & ? & ?)].
        -- left. exists ev. split_and!; [by apply list_elem_of_further|done..|].
           do 2 apply list_elem_of_further. apply elem_of_app. by right.
        -- right. exists ev, a. split_and!; [by apply list_elem_of_further|done..|].
           do 2 apply list_elem_of_further. apply elem_of_app. by right.
Qed.

(** C2 (amended).  In the publish step of a cycle every event has
    its process-level record written, whatever happened to the
    records before it.  When that write succeeds every activity of
    the event has its record written, whatever the outcomes of the
    other activity writes; when it fails the activities of that
    event are skipped (the [published_failed] case).  Every failed
    write is followed by its own log line. *)
Theorem poll_failure_isolation p s events q s1 :
  Poll (poller p) s = (Ok events, q, s1) ->
  ∃ tr s',
    poll p s = (None, withPoller p q, s')
    ∧ trace s' = trace s1 ++ polled events ++ tr
    ∧ published (producer p) events tr
    ∧ (∀ ev, ev ∈ events ->
         ∃ out, EvWrite (processesWriter (producer p)) (processMessage ev) out ∈ tr
                ∧ (out = None -> ∀ a, a ∈ Activities ev ->
                   ∃ out', EvWrite (eventsWriter (producer p)) (activityMessage ev a) out'
                           ∈ tr))
    ∧ (∀ w msg e, EvWrite w msg (Some e) ∈ tr ->
         EvLog "Failed to send process %s: %v" [AStr (Key msg); AStr e] ∈ tr
         ∨ EvLog "Failed to send activity %s: %v" [AStr (Key msg); AStr e] ∈ tr).
Proof.
  intros HP. destruct (poll_spec p s _ _ _ HP) as (tr & s' & Hpoll & Htr & Hpub).
  exists tr, s'. split_and!; try done.
  - intros ev Hin. by eapply published_written.
  - intros w msg e Hin.
    destruct (published_origin _ _ _ _ _ _ Hpub Hin)
      as [(ev & _ & _ & -> & Hlog)|(ev & a & _ & _ & _ & -> & Hlog)]; [by left|by right].
Qed.

Lemma processRecord_fields ev :
  processRecord ev !! "_id" = Some (AStr (ProcessInstanceID ev))
  ∧ processRecord ev !! "_valid_from" = Some (AStr (StartTime ev)).
Proof. split; reflexivity. Qed.

Lemma activityRecord_fields ev (a : HistoricActivityInstance) :
  activityRecord ev a !! "_id" = Some (AStr (hai_ID a))
  ∧ activityRecord ev a !! "_valid_from" = Some (AStr (hai_StartTime a))
  ∧ snapshot (activityRecord ev a)
    = if decide (0 < lenVariables ev)%nat
      then Some (AStr (json_marshal (optMap (Variables ev))))
      else None.
Proof. unfold snapshot, activityRecord. case_decide; split_and!; reflexivity. Qed.

(** C5 (amended).  In the publish step every event has one
    process-level record written, keyed by the process instance id;
    when that write succeeds, every activity of the event has one
    activity-level record written, keyed by the activity instance
    id, and nothing else is written.  Every record has [_id] and
    [_valid_from], the latter the start time of its entity.  An
    activity-level record has a [process_variables] entry, the
    serialized variables of the event, exactly when the event has
    at least one variable. *)
Theorem poll_records p s events q s1 :
  Poll (poller p) s = (Ok events, q, s1) ->
  ∃ tr s',
    poll p s = (None, withPoller p q, s')
    ∧ trace s' = trace s1 ++ polled events ++ tr
    ∧ published (producer p) events tr
    ∧ (∀ w msg out, EvWrite w msg out ∈ tr ->
         (∃ ev, ev ∈ events ∧ w = processesWriter (producer p)
                ∧ Key msg = ProcessInstanceID ev
                ∧ Value msg = AMap (processRecord ev)
                ∧ processRecord ev !! "_id" = Some (AStr (ProcessInstanceID ev))
                ∧ processRecord ev !! "_valid_from" = Some (AStr (StartTime ev)))
         ∨ (∃ ev a, ev ∈ events ∧ a ∈ Activities ev ∧ w = eventsWriter (producer p)
                    ∧ Key msg = hai_ID a
                    ∧ Value msg = AMap (activityRecord ev a)
                    ∧ activityRecord ev a !! "_id" = Some (AStr (hai_ID a))
                    ∧ activityRecord ev a !! "_valid_from" = Some (AStr (hai_StartTime a))
                    ∧ snapshot (activityRecord ev a)
                      = if decide (0 < lenVariables ev)%nat
                        then Some (AStr (json_marshal (optMap (Variables ev))))
                        else None)).
Proof.
  intros HP. destruct (poll_spec p s _ _ _ HP) as (tr & s' & Hpoll & Htr & Hpub).
  exists tr, s'. split_and!; try done.
  intros w msg out Hin.
  destruct (published_origin _ _ _ _ _ _ Hpub Hin)
    as [(ev & Hev & -> & -> & _)|(ev & a & Hev & Ha & -> & -> & _)].
  - left. exists ev. destruct (processRecord_fields ev). by split_and!.
  - right. exists ev, a. destruct (activityRecord_fields ev a) as (? & ? & ?).
    by split_and!.
Qed.
End Claims.

End publisher_claims.

(** ** The publish step on the scripted platform *)

Module publisher_examples.
Import fluxnova kafka pipeline scripted examples publisher_props publisher_claims.

(** C2, counterexample.  The cycle polls [P1] with the activities
    [A1] and [A2]; the write of the process-level record fails, and
    no activity-level record is written at all. *)
Lemma poll_drops_activities :
  (fun ev => (ProcessInstanceID ev, hai_ID <$> Activities ev))
    <$> batch (Poll freshPoller refusedWorld).1.1 = [("P1", ["A1"; "A2"])]
  ∧ (poll pipe refusedWorld).1.1 = None
  ∧ attempts (poll pipe refusedWorld).2
    = [("fluxnova-processes", "P1", Some "broker unavailable")].
Proof. vm_compute. split_and!; reflexivity. Qed.

(** A failed activity write does not stop the next one. *)
Example poll_flaky :
  attempts (poll pipe flakyWorld).2
  = [("fluxnova-processes", "P1", None);
     ("fluxnova-events", "A1", Some "write timeout");
     ("fluxnova-events", "A2", None)].
Proof. vm_compute. reflexivity. Qed.

Lemma poll_failure_isolation_witness :
  ∃ tr s',
    poll pipe flakyWorld = (None, withPoller pipe (Poll freshPoller flakyWorld).1.2, s')
    ∧ published (producer pipe) (batch (Poll freshPoller flakyWorld).1.1) tr.
Proof.
  destruct (poll_failure_isolation pipe flakyWorld
              (batch (Poll freshPoller flakyWorld).1.1)
              (Poll freshPoller flakyWorld).1.2 (Poll freshPoller flakyWorld).2)
    as (tr & s' & Hpoll & _ & Hpub & _).
  { vm_compute. reflexivity. }
  by exists tr, s'.
Defined.

(** C5, counterexample.  The cycle polls [P1] with the activity [A1];
    the variable query failed, so the event has no variables: the
    activity-level record of [A1] is written without any
    [process_variables] entry.  (And where the write of the
    process-level record fails, as in [refusedWorld], the two
    activities of the event get no record at all.) *)
Lemma poll_record_without_snapshot :
  (fun ev => (ProcessInstanceID ev, hai_ID <$> Activities ev, Variables ev))
    <$> batch (Poll freshPoller bareWorld).1.1 = [("P1", ["A1"], None)]
  ∧ attempts (poll pipe bareWorld).2
    = [("fluxnova-processes", "P1", None); ("fluxnova-events", "A1", None)]
  ∧ activitySnapshots (poll pipe bareWorld).2 = [("A1", None)]
  ∧ (fun ev => hai_ID <$> Activities ev) <$> batch (Poll freshPoller refusedWorld).1.1
    = [["A1"; "A2"]]
  ∧ activitySnapshots (poll pipe refusedWorld).2 = [].
Proof. vm_compute. split_and!; reflexivity. Qed.

(** With a variable, the entry is there. *)
Example poll_record_with_snapshot :
  activitySnapshots (poll pipe flakyWorld).2
  = [("A1", Some (AStr (json_marshal (AMap {[ "tier" := AStr "gold" ]}))));
     ("A2", Some (AStr (json_marshal (AMap {[ "tier" := AStr "gold" ]}))))].
Proof. vm_compute. reflexivity. Qed.

Lemma poll_records_witness :
  ∃ (tr : list Event) s',
    poll pipe flakyWorld = (None, withPoller pipe (Poll freshPoller flakyWorld).1.2, s')
    ∧ ∀ w msg out, EvWrite w msg out ∈ tr ->
        ∃ record, Value msg = AMap record ∧ is_Some (record !! "_valid_from").
Proof.
  destruct (poll_records pipe flakyWorld
              (batch (Poll freshPoller flakyWorld).1.1)
              (Poll freshPoller flakyWorld).1.2 (Poll freshPoller flakyWorld).2)
    as (tr & s' & Hpoll & _ & _ & Hrec).
  { vm_compute. reflexivity. }
  exists tr, s'. split; [exact Hpoll|].
  intros w msg out Hin.
  destruct (Hrec w msg out Hin)
    as [(ev & _ & _ & _ & Hv & _ & Hvf)|(ev & a & _ & _ & _ & _ & Hv & _ & Hvf & _)];
    eexists; (split; [exact Hv|]); rewrite Hvf; by eexists.
Defined.

End publisher_examples.

(** ** The orchestrator *)

Module orchestrator_facts.
Import fluxnova kafka pipeline orchestrator_props.

Section Orchestrator.
Context {World : Type} `{!Platform World} `{!TimeLayout} `{!JSONEncode}
        `{!JSONDecode (list HistoricProcessInstance)}
        `{!JSONDecode (list HistoricActivityInstance)}
        `{!JSONDecode (list HistoricVariableInstance)}.

Implicit Types (p : Pipeline) (s : St World).

Lemma poll_producer p s : producer (poll p s).1.2 = producer p.
Proof.
  unfold poll. rewrite bind_run.
  destruct (Poll (poller p) s) as [[[[|ev events]|e] q] s1]; cbn [fst snd]; try done.
  rewrite !bind_run. done.
Qed.

Lemma cycle_producer format p s : producer (cycle format p s).1 = producer p.
Proof.
  unfold cycle. rewrite bind_run. pose proof (poll_producer p s) as Hp.
  destruct (poll p s) as [[err q] s1]. cbn [fst snd] in *.
  rewrite bind_run. done.
Qed.

Lemma cycles_producer n p s : producer (cycles n p s).1 = producer p.
Proof.
  revert p s. induction n as [|n IH]; intros p s; [done|].
  cbn [cycles]. rewrite bind_run, IH. apply cycle_producer.
Qed.

(** A tick: one cycle, then the loop again. *)
Lemma Run_loop_tick wakes p s :
  Run_loop (Tick :: wakes) p s
  = Run_loop wakes (cycle "Poll error: %v" p s).1 (cycle "Poll error: %v" p s).2.
Proof.
  cbn [Run_loop]. unfold cycle. rewrite !bind_run.
  destruct (poll p s) as [[err q] s1]. cbn [fst snd].
  rewrite !bind_run. done.
Qed.

Lemma Run_loop_ticks n wakes p s :
  Run_loop (replicate n Tick ++ wakes) p s
  = Run_loop wakes (cycles n p s).1 (cycles n p s).2.
Proof.
  revert p s. induction n as [|n IH]; intros p s; [done|].
  cbn [replicate app]. rewrite Run_loop_tick, IH. cbn [cycles]. by rewrite bind_run.
Qed.

Lemma Run_loop_cancelled wakes p s :
  Run_loop (Cancelled :: wakes) p s = (Returned (shutdown p s).1, p, (shutdown p s).2).
Proof. cbn [Run_loop]. unfold shutdown. rewrite !bind_run. done. Qed.

Lemma Run_loop_returned wakes p s r p' s' :
  Run_loop wakes p s = (Returned r, p', s') -> Cancelled ∈ wakes.
Proof.
  revert p s. induction wakes as [|[|] wakes IH]; intros p s Hrun.
  - done.
  - apply list_elem_of_here.
  - rewrite Run_loop_tick in Hrun. apply list_elem_of_further. by eapply IH.
Qed.

(** [Run], by the outcome of the connectivity check and the sign of
    the poll interval. *)
Lemma Run_spec wakes p s :
  Run wakes p s
  = match (checked p s).1 with
    | Some e => (Returned (Some ("failed to connect to Fluxnova: " +:+ e)), p, (checked p s).2)
    | None =>
        if decide (config.PollInterval (config.Pipeline (cfg p)) <= 0)
        then (Panicked "non-positive interval for NewTicker", p,
              (connected (checked p s).2).2)
        else Run_loop wakes (running 0 p (checked p s).2).1 (running 0 p (checked p s).2).2
    end.
Proof.
  unfold Run, checked, running, connected. rewrite !bind_run. cbn [fst snd].
  destruct (Ping (client p) _) as [[e|] s1]; cbn [fst snd]; [done|].
  rewrite !bind_run. case_decide; [done|].
  rewrite !bind_run. cbn [cycles]. unfold cycle. rewrite !bind_run.
  destruct (poll p _) as [[err q] s2]. cbn [fst snd]. rewrite !bind_run. done.
Qed.

(** With a ticker [Run] is the loop after the initial cycle. *)
Lemma Run_ticking wakes p s :
  (checked p s).1 = None ->
  0 < config.PollInterval (config.Pipeline (cfg p)) ->
  Run wakes p s
  = Run_loop wakes (running 0 p (checked p s).2).1 (running 0 p (checked p s).2).2.
Proof. intros Hping Hpos. rewrite Run_spec, Hping. by rewrite decide_False by lia. Qed.

(** [Run] returns through the connectivity check or the cancellation. *)
Lemma Run_returned wakes p s r p' s' :
  Run wakes p s = (Returned r, p', s') ->
  (checked p s).1 = None -> Cancelled ∈ wakes.
Proof.
  intros Hrun Hping. rewrite Run_spec, Hping in Hrun.
  case_decide; [done|]. by eapply Run_loop_returned.
Qed.

(** The shutdown when the close of the events writer succeeds. *)
Lemma shutdown_closes p s :
  (kafka_close (eventsWriter (producer p)) (world s)).1 = None ->
  trace (shutdown p s).2
  = trace s ++ [EvLog "Shutting down pipeline" [];
                EvClose (eventsWriter (producer p)) None;
                EvClose (processesWriter (producer p)) (shutdown p s).1].
Proof.
  intros Hclose. unfold shutdown, Close. rewrite !bind_run. run.
  destruct (kafka_close (eventsWriter (producer p)) (world s)) as [[e|] w1]; simpl in *;
    [done|].
  destruct (kafka_close (processesWriter (producer p)) w1) as [out w2]; simpl.
  by rewrite <- !app_assoc.
Qed.

Lemma running_cycles n p s1 :
  running n p s1 = cycles n (running 0 p s1).1 (running 0 p s1).2.
Proof. unfold running. rewrite !bind_run. cbn [cycles]. done. Qed.

Lemma running_producer n p s1 : producer (running n p s1).1 = producer p.
Proof.
  rewrite running_cycles, cycles_producer. unfold running. rewrite !bind_run.
  cbn [cycles]. unfold ret. cbn [fst snd]. apply cycle_producer.
Qed.

(** What the shutdown does: both writers are closed, or the close of
    the events writer failed and its error is the result. *)
Lemma shutdown_trace p s :
  ∃ tr, trace (shutdown p s).2 = trace s ++ EvLog "Shutting down pipeline" [] :: tr
        ∧ (tr = [EvClose (eventsWriter (producer p)) None;
                 EvClose (processesWriter (producer p)) (shutdown p s).1]
           ∨ ∃ e, (shutdown p s).1 = Some e
                  ∧ tr = [EvClose (eventsWriter (producer p)) (Some e)]).
Proof.
  unfold shutdown, Close. rewrite !bind_run. run.
  destruct (kafka_close (eventsWriter (producer p)) (world s)) as [[e|] w1]; simpl.
  - eexists. split; [by rewrite <- app_assoc|]. right. by exists e.
  - destruct (kafka_close (processesWriter (producer p)) w1) as [out w2]; simpl.
    eexists. split; [by rewrite <- !app_assoc|]. by left.
Qed.

(** With a ticker, [n] ticks: the initial cycle and [n] more. *)
Lemma Run_ticks n p s :
  (checked p s).1 = None ->
  0 < config.PollInterval (config.Pipeline (cfg p)) ->
  Run (replicate n Tick) p s
  = (Waiting, (running n p (checked p s).2).1, (running n p (checked p s).2).2).
Proof.
  intros Hping Hpos. rewrite Run_ticking by done.
  rewrite <- (app_nil_r (replicate n Tick)), Run_loop_ticks, (running_cycles n).
  cbn [Run_loop]. unfold ret. by destruct (cycles n _ _).
Qed.

(** With a ticker, the cancellation after [n] ticks: the shutdown. *)
Lemma Run_cancelled n rest p s :
  (checked p s).1 = None ->
  0 < config.PollInterval (config.Pipeline (cfg p)) ->
  Run (replicate n Tick ++ Cancelled :: rest) p s
  = (Returned (shutdown p (running n p (checked p s).2).2).1,
     (running n p (checked p s).2).1,
     (shutdown p (running n p (checked p s).2).2).2).
Proof.
  intros Hping Hpos. rewrite Run_ticking by done.
  rewrite Run_loop_ticks, Run_loop_cancelled, <- (running_cycles n).
  unfold shutdown. by rewrite running_producer.
Qed.

Lemma checked_trace p s :
  ∃ out, trace (checked p s).2 = trace s ++ banner p ++ [EvHttp (Ping_request (client p)) out]
         ∧ (checked p s).1 = Ping_result out.
Proof.
  unfold checked, Ping. rewrite !bind_run. run.
  destruct (http_do (Ping_request (client p)) (world s)) as [out w1].
  exists out. simpl. rewrite <- !app_assoc. done.
Qed.
End Orchestrator.

End orchestrator_facts.

Module orchestrator_claims.
Import fluxnova kafka pipeline orchestrator_props orchestrator_facts.

Section Claims.
Context {World : Type} `{!Platform World} `{!TimeLayout} `{!JSONEncode}
        `{!JSONDecode (list HistoricProcessInstance)}
        `{!JSONDecode (list HistoricActivityInstance)}
        `{!JSONDecode (list HistoricVariableInstance)}.

Implicit Types (p : Pipeline) (s : St World).

(** C9.  When the connectivity check at startup fails, [Run] returns
    an error, whatever the schedule of wake-ups; the pipeline is as it
    was, and beyond the banner the trace holds the connectivity
    request alone: no history query, no write to the broker. *)
Theorem Run_unreachable wakes p s e :
  (checked p s).1 = Some e ->
  Run wakes p s
  = (Returned (Some ("failed to connect to Fluxnova: " +:+ e)), p, (checked p s).2)
  ∧ ∃ out, Ping_result out = Some e
           ∧ trace (checked p s).2
             = trace s ++ banner p ++ [EvHttp (Ping_request (client p)) out].
Proof.
  intros Hping. split.
  - by rewrite Run_spec, Hping.
  - destruct (checked_trace p s) as (out & Htr & Hres). exists out. split; [congruence|done].
Qed.

(** C8 (amended).  With a positive poll interval, after a successful
    connectivity check: as long as the wake-ups are ticks, [Run] has
    not ended, whatever the cycles returned; after [n] ticks it has
    run the initial cycle and [n] more.  At the first wake-up by
    cancellation it logs the shutdown, closes the producer and
    returns what [Close] returned; when the close of the events
    writer does not fail, the events writer and then the processes
    writer have been closed, and nothing else is done.  [Run] returns
    in no other way. *)
Theorem Run_until_cancelled p s :
  (checked p s).1 = None ->
  0 < config.PollInterval (config.Pipeline (cfg p)) ->
  (∀ n, Run (replicate n Tick) p s
        = (Waiting, (running n p (checked p s).2).1, (running n p (checked p s).2).2))
  ∧ (∀ n rest,
       let at_n := running n p (checked p s).2 in
       Run (replicate n Tick ++ Cancelled :: rest) p s
       = (Returned (shutdown p at_n.2).1, at_n.1, (shutdown p at_n.2).2)
       ∧ ((kafka_close (eventsWriter (producer p)) (world at_n.2)).1 = None ->
          trace (shutdown p at_n.2).2
          = trace at_n.2
            ++ [EvLog "Shutting down pipeline" [];
                EvClose (eventsWriter (producer p)) None;
                EvClose (processesWriter (producer p)) (shutdown p at_n.2).1]))
  ∧ (∀ wakes r p' s', Run wakes p s = (Returned r, p', s') -> Cancelled ∈ wakes).
Proof.
  intros Hping Hpos. split_and!.
  - intros n. by apply Run_ticks.
  - intros n rest at_n. subst at_n. split; [by apply Run_cancelled|apply shutdown_closes].
  - intros wakes r p' s' Hrun. by eapply Run_returned.
Qed.
End Claims.

End orchestrator_claims.

(** ** The orchestrator on the scripted platform *)

Module orchestrator_examples.
Import fluxnova kafka pipeline scripted examples orchestrator_props orchestrator_claims.

(** The cycle of the first tick fails, the loop goes on, and the
    cancellation ends it. *)
Example Run_through_outage :
  (Run [Tick; Tick] pipe outageWorld).1.1 = Waiting
  ∧ (Run [Tick; Tick; Cancelled] pipe outageWorld).1.1 = Returned None
  ∧ EvLog "Poll error: %v" [AStr "connection reset"]
      ∈ trace (Run [Tick; Tick] pipe outageWorld).2.
Proof. vm_compute. split_and!; try reflexivity. repeat constructor. Qed.

(** The shutdown, as the closes of the trace show it: both writers
    are closed; or the close of the events writer fails, and [Run]
    returns its error at once. *)
Example Run_shutdown :
  closes (trace (Run [Cancelled] pipe outageWorld).2)
  = [(eventsWriter (producer pipe), None); (processesWriter (producer pipe), None)]
  ∧ (Run [Cancelled] pipe stuckWorld).1.1 = Returned (Some "flush failed")
  ∧ closes (trace (Run [Cancelled] pipe stuckWorld).2)
    = [(eventsWriter (producer pipe), Some "flush failed")].
Proof. vm_compute. split_and!; reflexivity. Qed.

(** C8, counterexample.  The connectivity check succeeds in both
    runs.  With a poll interval of zero [Run] ends on its own, by the
    panic of [time.NewTicker], before any cycle and with no
    cancellation in sight.  And when the close of the events writer
    fails at the shutdown, [Run] returns with the processes writer
    still open. *)
Lemma Run_ends_uncancelled :
  (checked hasty outageWorld).1 = None
  ∧ (Run [Tick; Tick] hasty outageWorld).1.1
    = Panicked "non-positive interval for NewTicker"
  ∧ http_calls (trace (Run [Tick; Tick] hasty outageWorld).2)
    = [(Ping_request engine, ok "{}")]
  ∧ (checked pipe stuckWorld).1 = None
  ∧ (Run [Cancelled] pipe stuckWorld).1.1 = Returned (Some "flush failed")
  ∧ closes (trace (Run [Cancelled] pipe stuckWorld).2)
    = [(eventsWriter (producer pipe), Some "flush failed")].
Proof. vm_compute. split_and!; reflexivity. Qed.

Lemma Run_until_cancelled_witness :
  (Run [Tick; Tick] pipe outageWorld).1.1 = Waiting
  ∧ (Run [Tick; Tick; Cancelled; Tick] pipe outageWorld).1.1 = Returned None
  ∧ closes (trace (Run [Tick; Tick; Cancelled; Tick] pipe outageWorld).2)
    = [(eventsWriter (producer pipe), None); (processesWriter (producer pipe), None)].
Proof.
  destruct (Run_until_cancelled pipe outageWorld) as (Hticks & Hcancel & _).
  { vm_compute. reflexivity. }
  { vm_compute. reflexivity. }
  destruct (Hcancel 2%nat [Tick]) as [Hrun Hclosed].
  split_and!.
  - by rewrite (Hticks 2%nat : Run [Tick; Tick] pipe outageWorld = _).
  - rewrite (Hrun : Run [Tick; Tick; Cancelled; Tick] pipe outageWorld = _).
    vm_compute. reflexivity.
  - rewrite (Hrun : Run [Tick; Tick; Cancelled; Tick] pipe outageWorld = _).
    cbn [snd]. rewrite Hclosed by (vm_compute; reflexivity).
    vm_compute. reflexivity.
Defined.

Lemma Run_unreachable_witness :
  Run [Tick; Cancelled] pipe downWorld
  = (Returned (Some "failed to connect to Fluxnova: connection refused"), pipe,
     (checked pipe downWorld).2)
  ∧ http_calls (trace (checked pipe downWorld).2)
    = [(Ping_request engine, HttpErr "connection refused")]
  ∧ writes (trace (checked pipe downWorld).2) = [].
Proof.
  destruct (Run_unreachable [Tick; Cancelled] pipe downWorld "connection refused")
    as [Hrun _].
  { vm_compute. reflexivity. }
  split; [exact Hrun|]. vm_compute. split; reflexivity.
Defined.

End orchestrator_examples.

(** ** The dispatch loop of the worker *)

Module worker_facts.
Import worker worker_props.

Section Worker.
Context {World : Type} `{!Platform World} `{!Activities World}
        `{!JSONDecode (list ExternalTask)}.

Implicit Types (s : St World) (task : ExternalTask).

Lemma calls_app tr1 tr2 : calls (tr1 ++ tr2) = calls tr1 ++ calls tr2.
Proof. apply omap_app. Qed.

Lemma failedCompletion_error out e :
  completeTask_error out = Some e <-> failedCompletion out e.
Proof.
  split.
  - destruct out as [e'|status body]; simpl.
    + intros [= ->]. constructor.
    + case_decide as Hs; [|done]. intros [= <-]. destruct Hs. by constructor.
  - destruct 1 as [e|status body H200 H204]; simpl; [done|].
    case_decide as Hs; [done|]. destruct Hs. done.
Qed.

(** The document of a failure report, as the engine receives it. *)
Lemma failureReport_document baseURL taskID message :
  ∃ doc, Payload (failureReport baseURL taskID message) = Some (AMap doc)
         ∧ FailureRequest_json (failureRequest message) = AMap doc
         ∧ doc !! "workerId" = Some (AStr WorkerID)
         ∧ doc !! "errorMessage" = Some (AStr message)
         ∧ doc !! "errorDetails" = Some (AStr EmptyString)
         ∧ doc !! "retries" = Some (AInt 0)
         ∧ doc !! "retryTimeout" = Some (AInt 0).
Proof.
  eexists. split; [reflexivity|]. split; [reflexivity|].
  cbn [list_to_map foldr fst snd failure_WorkerID ErrorMessage ErrorDetails Retries
       RetryTimeout].
  split_and!; by rewrite ?lookup_insert_ne by done; rewrite lookup_insert_eq.
Qed.

Lemma failTask_spec baseURL taskID message s :
  ∃ out format args,
    trace (failTask baseURL taskID message s).2
    = trace s ++ [EvHttp (failureReport baseURL taskID message) out; EvLog format args].
Proof.
  unfold failTask, post. rewrite bind_run. unfold call.
  change (post_request (baseURL +:+ "/external-task/" +:+ taskID +:+ "/failure")
            (FailureRequest_json (failureRequest message)))
    with (failureReport baseURL taskID message).
  destruct (http_do (failureReport baseURL taskID message) (world s)) as [out w1].
  destruct out as [e|status body]; run; rewrite <- app_assoc; by eexists _, _, _.
Qed.

(** [handleTask], by its result. *)
Lemma handleTask_spec baseURL task s :
  ∃ tr, trace (handleTask baseURL task s).2 = trace s ++ tr
        ∧ match (handleTask baseURL task s).1 with
          | None =>
              ∃ method variable json out,
                route (TopicName task) = Some (method, variable)
                ∧ completeTask_error out = None
                ∧ calls tr
                  = [EvActivity method (ProcessInstanceID task) (Variables task) (Ok json);
                     EvHttp (completionReport baseURL (ID task) variable json) out]
          | Some e =>
              (route (TopicName task) = None
               ∧ e = "unknown topic: " +:+ TopicName task ∧ calls tr = [])
              ∨ (∃ method variable,
                   route (TopicName task) = Some (method, variable)
                   ∧ calls tr
                     = [EvActivity method (ProcessInstanceID task) (Variables task) (Err e)])
              ∨ (∃ method variable json out,
                   route (TopicName task) = Some (method, variable)
                   ∧ failedCompletion out e
                   ∧ calls tr
                     = [EvActivity method (ProcessInstanceID task) (Variables task) (Ok json);
                        EvHttp (completionReport baseURL (ID task) variable json) out])
          end.
Proof.
  unfold handleTask.
  destruct (route (TopicName task)) as [[method variable]|] eqn:R; steps.
  - destruct (activity_call method (ProcessInstanceID task) (Variables task) (world s))
      as [[json|e] w1] eqn:EA; steps.
    + unfold completeTask, post. steps.
      change (post_request (baseURL +:+ "/external-task/" +:+ ID task +:+ "/complete") _)
        with (completionReport baseURL (ID task) variable json).
      destruct (http_do (completionReport baseURL (ID task) variable json) w1)
        as [out w2] eqn:EC; steps.
      destruct (completeTask_error out) as [e|] eqn:CE; steps.
      * eexists. split; [rewrite <- !app_assoc; reflexivity|].
        right. right. exists method, variable, json, out.
        split_and!; [done|by apply failedCompletion_error|done].
      * eexists. split; [rewrite <- !app_assoc; reflexivity|].
        by exists method, variable, json, out.
    + eexists. split; [rewrite <- !app_assoc; reflexivity|].
      right. left. by exists method, variable.
  - eexists. split; [reflexivity|]. by left.
Qed.

(** One task of a batch. *)
Lemma main_task_spec baseURL task s :
  ∃ tr, trace (main_task baseURL task s).2 = trace s ++ tr
        ∧ handled baseURL task (calls tr).
Proof.
  unfold main_task. rewrite bind_run.
  destruct (handleTask_spec baseURL task s) as (tr & Htr & Hres).
  destruct (handleTask baseURL task s) as [[e|] s1]; cbn [fst snd] in *.
  - steps.
    match goal with |- context [failTask _ _ _ ?s2] =>
      destruct (failTask_spec baseURL (ID task) e s2) as (out' & f & a & Hf) end.
    cbn [trace] in Hf.
    eexists. split; [rewrite Hf, Htr, <- !app_assoc; reflexivity|].
    rewrite !calls_app.
    destruct Hres as [(R & -> & ->)|[(m & v & R & ->)|(m & v & json & out & R & Hfc & ->)]];
      simpl.
    + by apply handled_unknown.
    + by eapply handled_failed.
    + by eapply handled_unconfirmed.
  - steps. exists tr. split; [done|].
    destruct Hres as (m & v & json & out & R & Hok & ->). by eapply handled_completed.
Qed.

(** A whole batch. *)
Lemma main_batch_spec baseURL tasks s :
  ∃ tr, trace (forM_ tasks (main_task baseURL) s).2 = trace s ++ tr
        ∧ dispatched baseURL tasks (calls tr).
Proof.
  revert s. induction tasks as [|task tasks IH]; intros s.
  - exists []. simpl. rewrite app_nil_r. split; [done|constructor].
  - rewrite forM_cons.
    destruct (main_task_spec baseURL task s) as (tr1 & Htr1 & H1).
    destruct (IH (main_task baseURL task s).2) as (tr2 & Htr2 & H2).
    exists (tr1 ++ tr2). split.
    + by rewrite Htr2, Htr1, <- app_assoc.
    + rewrite calls_app. by constructor.
Qed.

Lemma main_loop_tick baseURL wakes s :
  main_loop baseURL (Tick :: wakes) s = main_loop baseURL wakes (main_tick baseURL s).2.
Proof. cbn [main_loop]. by rewrite bind_run. Qed.

Lemma main_loop_ticks baseURL n s : (main_loop baseURL (replicate n Tick) s).1 = Waiting.
Proof.
  revert s. induction n as [|n IH]; intros s; [done|].
  cbn [replicate]. by rewrite main_loop_tick.
Qed.
End Worker.

End worker_facts.

Module worker_claims.
Import worker worker_props worker_facts.

Section Claims.
Context {World : Type} `{!Platform World} `{!Activities World}
        `{!JSONDecode (list ExternalTask)}.

Implicit Types (s : St World) (task : ExternalTask).

Lemma dispatched_handled baseURL tasks cs task :
  dispatched baseURL tasks cs -> task ∈ tasks ->
  ∃ cs1 cs2 cs3, cs = cs1 ++ cs2 ++ cs3 ∧ handled baseURL task cs2.
Proof.
  induction 1 as [|task' cs tasks cs' Hh _ IH]; intros Hin.
  - by apply elem_of_nil in Hin.
  - apply elem_of_cons in Hin as [->|Hin].
    + by exists [], cs, cs'.
    + destruct (IH Hin) as (cs1 & cs2 & cs3 & -> & Hh').
      exists (cs ++ cs1), cs2, cs3. by rewrite <- app_assoc.
Qed.

(** C7.  For a fetched batch the worker makes, task after task, the
    calls of that task alone, whatever happened to the tasks before it
    ([dispatched]).  A task whose topic has no handler, whose handler
    fails, or whose completion report fails is reported to the engine
    by a failure request ([handled], [failureReport]): a POST to the
    failure address of the task whose document holds the worker id,
    the error message under [errorMessage] and [0] under [retries];
    a task whose handler and completion report succeed is reported
    by its completion request.  And the loop is still there after
    any number of ticks. *)
Theorem main_tick_failure_isolation baseURL s tasks s1 :
  fetchAndLock baseURL topics s = (Ok tasks, s1) ->
  (∃ tr s', main_tick baseURL s = (tt, s')
            ∧ trace s' = trace s1 ++ tr
            ∧ dispatched baseURL tasks (calls tr)
            ∧ ∀ task, task ∈ tasks ->
                ∃ cs1 cs2 cs3, calls tr = cs1 ++ cs2 ++ cs3 ∧ handled baseURL task cs2)
  ∧ (∀ taskID message,
       Payload (failureReport baseURL taskID message)
       = Some (FailureRequest_json (failureRequest message))
       ∧ ErrorMessage (failureRequest message) = message
       ∧ Retries (failureRequest message) = 0
       ∧ Method (failureReport baseURL taskID message) = "POST"
       ∧ URL (failureReport baseURL taskID message)
         = baseURL +:+ "/external-task/" +:+ taskID +:+ "/failure"
       ∧ ∃ doc, Payload (failureReport baseURL taskID message) = Some (AMap doc)
                ∧ doc !! "workerId" = Some (AStr WorkerID)
                ∧ doc !! "errorMessage" = Some (AStr message)
                ∧ doc !! "retries" = Some (AInt 0))
  ∧ (∀ n s0, (main_loop baseURL (replicate n Tick) s0).1 = Waiting).
Proof.
  intros Hfetch. split_and!.
  - unfold main_tick. rewrite bind_run, Hfetch. cbn [fst snd].
    destruct (main_batch_spec baseURL tasks s1) as (tr & Htr & Hd).
    exists tr, (forM_ tasks (main_task baseURL) s1).2. split_and!; try done.
    + by destruct (forM_ tasks (main_task baseURL) s1) as [[] ?].
    + intros task Hin. by eapply dispatched_handled.
  - intros taskID message.
    destruct (failureReport_document baseURL taskID message)
      as (doc & Hdoc & _ & Hworker & Hmessage & _ & Hretries & _).
    split_and!; try done. by exists doc.
  - intros n s0. apply main_loop_ticks.
Qed.

(** C10.  When the handler of a task succeeds and the completion
    report fails (a transport error, or a status other than 200 and
    204), the worker makes exactly three calls for the task: the
    handler, the completion request, once, and then a failure request
    for the same task, whose document holds the error of the
    completion under [errorMessage] and [0] under [retries]. *)
Theorem completion_failure_reported baseURL task s method variable json w1 out w2 e :
  route (TopicName task) = Some (method, variable) ->
  activity_call method (ProcessInstanceID task) (Variables task) (world s) = (Ok json, w1) ->
  http_do (completionReport baseURL (ID task) variable json) w1 = (out, w2) ->
  failedCompletion out e ->
  ∃ out' tr s',
    main_task baseURL task s = (tt, s')
    ∧ trace s' = trace s ++ tr
    ∧ calls tr
      = [EvActivity method (ProcessInstanceID task) (Variables task) (Ok json);
         EvHttp (completionReport baseURL (ID task) variable json) out;
         EvHttp (failureReport baseURL (ID task) e) out']
    ∧ Payload (failureReport baseURL (ID task) e)
      = Some (FailureRequest_json
                {| failure_WorkerID := WorkerID; ErrorMessage := e; ErrorDetails := EmptyString;
                   Retries := 0; RetryTimeout := 0 |})
    ∧ URL (failureReport baseURL (ID task) e)
      = baseURL +:+ "/external-task/" +:+ ID task +:+ "/failure"
    ∧ ∃ doc, Payload (failureReport baseURL (ID task) e) = Some (AMap doc)
             ∧ doc !! "workerId" = Some (AStr WorkerID)
             ∧ doc !! "errorMessage" = Some (AStr e)
             ∧ doc !! "retries" = Some (AInt 0).
Proof.
  intros R EA EC Hfail. apply failedCompletion_error in Hfail.
  unfold main_task, handleTask. rewrite R. steps. rewrite EA. steps.
  unfold completeTask, post. steps.
  change (post_request (baseURL +:+ "/external-task/" +:+ ID task +:+ "/complete") _)
    with (completionReport baseURL (ID task) variable json).
  rewrite EC. steps. rewrite Hfail. steps.
  match goal with |- context [failTask _ _ _ ?s2] =>
    destruct (failTask_spec baseURL (ID task) e s2) as (out' & f & a & Hf);
    destruct (failTask baseURL (ID task) e s2) as [[] s'] eqn:EF end.
  cbn [snd trace] in Hf. eexists out', _, s'.
  destruct (failureReport_document baseURL (ID task) e)
    as (doc & Hdoc & _ & Hworker & Hmessage & _ & Hretries & _).
  split_and!; [done|rewrite Hf, <- !app_assoc; reflexivity|reflexivity|done|done|].
  by exists doc.
Qed.
End Claims.

End worker_claims.

(** ** The worker on the scripted platform *)

Module worker_examples.
Import worker scripted examples worker_props worker_claims.

(** One tick on the batch of three: a failure report for [K1] with
    the handler's error, a completion report for [K2], a failure
    report for [K3]. *)
Example main_tick_three :
  requests (main_tick "http://engine" batchOfThree).2
  = [("http://engine/external-task/fetchAndLock", None, None, ok "[K1,K2,K3]");
     ("http://engine/external-task/K1/failure",
      Some (AStr "model unavailable"), Some (AInt 0), HttpResp 204 EmptyString);
     ("http://engine/external-task/K2/complete", None, None, HttpResp 204 EmptyString);
     ("http://engine/external-task/K3/failure",
      Some (AStr "unknown topic: archive-ticket"), Some (AInt 0),
      HttpErr "connection reset")].
Proof. vm_compute. reflexivity. Qed.

Lemma main_tick_failure_isolation_witness :
  (∃ tr s', main_tick "http://engine" batchOfThree = (tt, s')
            ∧ dispatched "http://engine" [K1; K2; K3] (calls tr))
  ∧ ∃ doc, Payload (failureReport "http://engine" "K1" "model unavailable") = Some (AMap doc)
           ∧ doc !! "errorMessage" = Some (AStr "model unavailable")
           ∧ doc !! "retries" = Some (AInt 0).
Proof.
  destruct (main_tick_failure_isolation "http://engine" batchOfThree [K1; K2; K3]
              (fetchAndLock "http://engine" topics batchOfThree).2)
    as ((tr & s' & Htick & _ & Hd & _) & Hreport & _).
  { vm_compute. reflexivity. }
  split; [by exists tr, s'|].
  destruct (Hreport "K1" "model unavailable")
    as (_ & _ & _ & _ & _ & doc & Hdoc & _ & Hmessage & Hretries).
  by exists doc.
Defined.

(** The completion report of [K2] fails with status 500: a failure
    report follows, with the error of the completion and no retries. *)
Example main_task_unconfirmed :
  requests (main_task "http://engine" K2 unconfirmed).2
  = [("http://engine/external-task/K2/complete", None, None, HttpResp 500 "engine error");
     ("http://engine/external-task/K2/failure",
      Some (AStr "complete failed with status 500: engine error"), Some (AInt 0),
      HttpResp 204 EmptyString)].
Proof. vm_compute. reflexivity. Qed.

Lemma completion_failure_reported_witness :
  ∃ out' tr s',
    main_task "http://engine" K2 unconfirmed = (tt, s')
    ∧ trace s' = trace unconfirmed ++ tr
    ∧ calls tr
      = [EvActivity "LookupCustomerProfile" "P1" (Variables K2) (Ok "{}");
         EvHttp (completionReport "http://engine" "K2" "customerProfile" "{}")
           (HttpResp 500 "engine error");
         EvHttp (failureReport "http://engine" "K2"
                   "complete failed with status 500: engine error") out']
    ∧ ∃ doc, Payload (failureReport "http://engine" "K2"
                        "complete failed with status 500: engine error") = Some (AMap doc)
             ∧ doc !! "errorMessage"
               = Some (AStr "complete failed with status 500: engine error")
             ∧ doc !! "retries" = Some (AInt 0).
Proof.
  destruct (completion_failure_reported "http://engine" K2 unconfirmed
              "LookupCustomerProfile" "customerProfile" "{}"
              (activity_call "LookupCustomerProfile" "P1" (Variables K2) (world unconfirmed)).2
              (HttpResp 500 "engine error")
              (http_do (completionReport "http://engine" "K2" "customerProfile" "{}")
                 (activity_call "LookupCustomerProfile" "P1" (Variables K2)
                    (world unconfirmed)).2).2
              "complete failed with status 500: engine error")
    as (out' & tr & s' & Hrun & Htr & Hcalls & _ & _ & doc & Hdoc & _ & Hmessage & Hretries).
  - reflexivity.
  - reflexivity.
  - reflexivity.
  - exact (failedCompletion_status 500 "engine error" ltac:(done) ltac:(done)).
  - exists out', tr, s'. split_and!; [done..|]. by exists doc.
Defined.

End worker_examples.

(** * Further properties *)

(** ** The poller *)

Module poller_more.
Import fluxnova poller_props watermark_facts poller_facts.

Section Poller.
Context {World : Type} `{!Platform World} `{!TimeLayout}
        `{!JSONDecode (list HistoricProcessInstance)}
        `{!JSONDecode (list HistoricActivityInstance)}
        `{!JSONDecode (list HistoricVariableInstance)}.

Implicit Types (p : Poller) (s : St World).

(** The instant of a join is fixed by the instants joined. *)
Lemma join_level a a' b b' :
  instant <$> a = instant <$> a' -> instant <$> b = instant <$> b' ->
  instant <$> watermark.join a b = instant <$> watermark.join a' b'.
Proof.
  destruct a as [x|], a' as [x'|], b as [y|], b' as [y'|]; simpl; intros Ha Hb;
    simplify_eq; try done; try (by f_equal).
  unfold After. repeat case_decide; simpl; f_equal; lia.
Qed.

Lemma join_swap_level x y c :
  instant <$> watermark.join (Some x) (watermark.join (Some y) c)
  = instant <$> watermark.join (Some y) (watermark.join (Some x) c).
Proof.
  destruct c as [z|]; simpl; unfold After; repeat (case_decide; simpl);
    unfold After in *; f_equal; lia.
Qed.

Lemma latest_permutation l1 l2 :
  l1 ≡ₚ l2 -> instant <$> watermark.latest l1 = instant <$> watermark.latest l2.
Proof.
  unfold watermark.latest.
  induction 1 as [|x l1 l2 _ IH|x y l|l1 l2 l3 _ IH1 _ IH2]; cbn [foldr].
  - done.
  - by apply join_level.
  - apply join_swap_level.
  - congruence.
Qed.

(** The latest of a list is one of its elements. *)
Lemma latest_elem l t : watermark.latest l = Some t -> t ∈ l.
Proof.
  revert t. induction l as [|x l IH]; intros t; [done|].
  unfold watermark.latest. cbn [foldr]. fold (watermark.latest l).
  destruct (watermark.latest l) as [u|]; simpl.
  - case_decide; intros [= <-]; [apply list_elem_of_further; by apply IH|apply list_elem_of_here].
  - intros [= <-]. apply list_elem_of_here.
Qed.

(** A join is one of the two joined. *)
Lemma join_either a b : watermark.join a b = a ∨ watermark.join a b = b.
Proof. destruct a, b; simpl; try case_decide; auto. Qed.

Lemma foldl_advance_fields starts p :
  client (foldl advance p starts) = client p
  ∧ batchSize (foldl advance p starts) = batchSize p.
Proof.
  revert p. induction starts as [|x l IH]; intros p; simpl; [done|].
  destruct (IH (advance p x)) as [-> ->]. unfold advance.
  destruct (time_parse x); [|done]. destruct (lastPollTime p); [case_decide|]; done.
Qed.

Lemma poller_ext p q :
  client p = client q -> batchSize p = batchSize q -> lastPollTime p = lastPollTime q ->
  p = q.
Proof. destruct p, q; simpl; congruence. Qed.

(** The poller a successful [Poll] leaves, from the events it returned. *)
Lemma Poll_ok_poller p s events p' s' :
  Poll p s = (Ok events, p', s') -> p' = foldl advance p (StartTime <$> events).
Proof.
  intros HP. pose proof (Poll_spec p s) as Hspec. rewrite HP in Hspec.
  destruct (GetHistoricProcessInstances _ _ _ s) as [[[|proc procs]|e] s1].
  - by simplify_eq.
  - destruct Hspec as (events' & tr & s'' & Heq & _ & Hasm). simplify_eq.
    by rewrite (assembled_starts _ _ _ _ Hasm).
  - simplify_eq.
Qed.

(** X1.  After a successful [Poll] the watermark is where it was exactly
    when no returned instance has a start time that parses and lies
    strictly after it: a batch that is replayed, or that holds only
    instances at or before the watermark, or only instances whose
    start time does not parse, does not move it. *)
Theorem Poll_watermark_unchanged p s events p' s' :
  Poll p s = (Ok events, p', s') ->
  lastPollTime p' = lastPollTime p
  <-> (∀ ev t, ev ∈ events -> time_parse (StartTime ev) = Some t ->
               watermark.le (Some t) (lastPollTime p)).
Proof.
  intros HP. apply Poll_ok_poller in HP as ->. rewrite foldl_advance_watermark.
  assert (Hin : ∀ t, t ∈ startInstants (StartTime <$> events)
                     <-> ∃ ev, ev ∈ events ∧ time_parse (StartTime ev) = Some t).
  { intros t. unfold startInstants. rewrite list_elem_of_omap. split.
    - intros (start & Hs & Ht). apply list_elem_of_fmap in Hs as (ev & -> & Hev). eauto.
    - intros (ev & Hev & Ht). exists (StartTime ev). split; [|done].
      by apply list_elem_of_fmap_2. }
  generalize dependent (startInstants (StartTime <$> events)). intros l Hin.
  generalize (lastPollTime p). intros wm. split.
  - intros Heq ev t Hev Ht.
    assert (t ∈ l) as Htl by (apply Hin; eauto).
    rewrite <- Heq. eapply le_trans; [by apply latest_upper|apply le_join_r].
  - intros Hle.
    assert (Hall : ∀ t, t ∈ l -> watermark.le (Some t) wm).
    { intros t Ht. apply Hin in Ht as (ev & Hev & Ht). eauto. }
    clear Hin Hle. induction l as [|x l IH].
    + apply join_none_r.
    + change (watermark.latest (x :: l))
        with (watermark.join (Some x) (watermark.latest l)).
      assert (watermark.le (Some x) wm) as Hx by (apply Hall, list_elem_of_here).
      rewrite <- join_assoc.
      replace (watermark.join wm (Some x)) with wm
        by (destruct wm; simpl in *; [by rewrite decide_False by (unfold After; lia)|done]).
      apply IH. intros t Ht. by apply Hall, list_elem_of_further.
Qed.

(** X2.  The instant of the watermark a successful [Poll] leaves does
    not depend on the order in which the engine listed the instances:
    two cycles from the same poller whose batches have the same start
    times, in any order, end with the same client, the same batch
    size and watermarks at the same instant.  The time stored is the
    first in the listing at that instant, so its zone can depend on
    the order; when the start times that denote one instant are all
    the same time, the two cycles end with the same poller. *)
Theorem Poll_order_irrelevant p s1 s2 events1 events2 p1 p2 s1' s2' :
  Poll p s1 = (Ok events1, p1, s1') ->
  Poll p s2 = (Ok events2, p2, s2') ->
  StartTime <$> events1 ≡ₚ StartTime <$> events2 ->
  client p1 = client p2 ∧ batchSize p1 = batchSize p2
  ∧ instant <$> lastPollTime p1 = instant <$> lastPollTime p2
  ∧ ((∀ t u, t ∈ startInstants (StartTime <$> events1) ->
             u ∈ startInstants (StartTime <$> events1) -> instant t = instant u -> t = u) ->
     p1 = p2).
Proof.
  intros H1 H2 Hperm. apply Poll_ok_poller in H1 as ->. apply Poll_ok_poller in H2 as ->.
  destruct (foldl_advance_fields (StartTime <$> events1) p) as [Hc1 Hb1].
  destruct (foldl_advance_fields (StartTime <$> events2) p) as [Hc2 Hb2].
  assert (startInstants (StartTime <$> events1) ≡ₚ startInstants (StartTime <$> events2))
    as Hstarts by (unfold startInstants; by rewrite Hperm).
  pose proof (latest_permutation _ _ Hstarts) as Hlevel.
  split_and!; [congruence..| |].
  - rewrite !foldl_advance_watermark. by apply join_level.
  - intros Hone. apply poller_ext; [congruence..|].
    rewrite !foldl_advance_watermark. f_equal.
    destruct (watermark.latest (startInstants (StartTime <$> events1))) as [t|] eqn:E1,
             (watermark.latest (startInstants (StartTime <$> events2))) as [u|] eqn:E2;
      simplify_eq; [|done].
    f_equal. apply Hone; [by apply latest_elem| |by simplify_eq/=].
    rewrite Hstarts. by apply latest_elem.
Qed.

Lemma peek_run {A} (f : World -> A * World) s :
  peek f s = ((f (world s)).1, MkSt (f (world s)).2 (trace s)).
Proof. unfold peek. by destruct (f (world s)). Qed.

(** One iteration of the loop of [Poll] only reads. *)
Lemma Poll_step_reading events p proc s :
  ∃ tr, trace (Poll_step (events, p) proc s).2 = trace s ++ tr ∧ reading tr.
Proof.
  unfold Poll_step, GetHistoricActivityInstances, GetHistoricVariableInstances, get.
  rewrite bind_run, peek_run. steps.
  destruct (get_result _) as [acts|eA]; steps;
    destruct (get_result _) as [vars|eV]; steps;
    (eexists; split; [rewrite <- !app_assoc; reflexivity|]);
    repeat constructor.
Qed.

Lemma reading_app tr1 tr2 : reading tr1 -> reading tr2 -> reading (tr1 ++ tr2).
Proof. apply Forall_app_2. Qed.

Lemma Poll_loop_reading procs acc s :
  ∃ tr, trace (foldM Poll_step procs acc s).2 = trace s ++ tr ∧ reading tr.
Proof.
  revert acc s. induction procs as [|proc procs IH]; intros [events p] s.
  - exists []. simpl. rewrite app_nil_r. split; [done|constructor].
  - rewrite foldM_cons.
    destruct (Poll_step_reading events p proc s) as (tr1 & Htr1 & H1).
    destruct (IH (Poll_step (events, p) proc s).1 (Poll_step (events, p) proc s).2)
      as (tr2 & Htr2 & H2).
    exists (tr1 ++ tr2). split; [by rewrite Htr2, Htr1, app_assoc|by apply reading_app].
Qed.

Lemma query_run c wm size s :
  GetHistoricProcessInstances c wm size s
  = (get_result (http_do (get_request c (processes_url c wm size)) (world s)).1,
     MkSt (http_do (get_request c (processes_url c wm size)) (world s)).2
          (trace s ++ [EvHttp (get_request c (processes_url c wm size))
                         (http_do (get_request c (processes_url c wm size)) (world s)).1])).
Proof. unfold GetHistoricProcessInstances, get. by steps. Qed.

(** The trace of [Poll]: the history query, then reads only. *)
Lemma Poll_reading p s :
  ∃ tr, trace (Poll p s).2
        = trace s
          ++ EvHttp (get_request (client p)
                       (processes_url (client p) (lastPollTime p) (batchSize p)))
               (http_do (get_request (client p)
                           (processes_url (client p) (lastPollTime p) (batchSize p)))
                  (world s)).1 :: tr
        ∧ reading tr.
Proof.
  unfold Poll. rewrite bind_run, query_run. cbn [fst snd].
  set (req := get_request (client p) (processes_url (client p) (lastPollTime p) (batchSize p))).
  destruct (get_result _) as [[|proc procs]|e]; steps.
  - exists []. split; [done|constructor].
  - match goal with |- context [foldM Poll_step ?l ?acc ?s1] =>
      destruct (Poll_loop_reading l acc s1) as (tr & Htr & Hread) end.
    exists tr. split; [|exact Hread].
    rewrite Htr. cbn [trace]. by rewrite <- app_assoc.
  - exists []. split; [done|constructor].
Qed.

Lemma reading_quiet tr : reading tr -> writes tr = [] ∧ closes tr = [].
Proof.
  induction 1 as [|ev tr Hev _ [IH1 IH2]]; [done|].
  destruct ev; try done; simpl; by rewrite ?IH1, ?IH2.
Qed.

Lemma assembled_calls c procs events calls :
  assembled c procs events calls -> length calls = (2 * length procs)%nat.
Proof. induction 1; simpl; lia. Qed.

(** X3.  What a call of [Poll] does to the outside and to the poller: it
    only reads from the engine (GET requests without body), beginning
    with the history query for the poller's watermark and batch size,
    followed by two sub-queries per returned instance and nothing
    else; it writes nothing to the broker; and it leaves the client
    and the batch size of the poller as they were. *)
Theorem Poll_footprint p s r p' s' :
  Poll p s = (r, p', s') ->
  client p' = client p ∧ batchSize p' = batchSize p
  ∧ ∃ out tr,
      trace s'
      = trace s
        ++ EvHttp (get_request (client p)
                     (processes_url (client p) (lastPollTime p) (batchSize p))) out :: tr
      ∧ reading tr ∧ writes tr = [] ∧ closes tr = []
      ∧ length (http_calls tr)
        = match r with Ok events => (2 * length events)%nat | Err _ => 0%nat end.
Proof.
  intros HP.
  pose proof (Poll_spec p s) as Hspec. pose proof (Poll_reading p s) as Hread.
  rewrite HP in Hspec, Hread. rewrite query_run in Hspec.
  set (req := get_request (client p) (processes_url (client p) (lastPollTime p) (batchSize p)))
    in *.
  destruct (http_do req (world s)) as [out w1]. cbn [fst snd] in *.
  destruct Hread as (tr0 & Htr0 & Hread). cbn [snd] in Htr0.
  destruct (reading_quiet tr0 Hread) as [Hw Hcl].
  assert (Hfields : client p' = client p ∧ batchSize p' = batchSize p).
  { destruct (get_result out) as [[|proc procs]|e]; [by simplify_eq| |by simplify_eq].
    destruct Hspec as (events & tr & s'' & Heq & _). simplify_eq.
    apply foldl_advance_fields. }
  destruct Hfields as [Hc Hb]. split_and!; [done..|].
  exists out, tr0. split_and!; try done.
  destruct (get_result out) as [[|proc procs]|e].
  - simplify_eq. cbn [trace] in Htr0. apply app_inv_head in Htr0. by simplify_eq.
  - destruct Hspec as (events & tr & s'' & Heq & Htr & Hasm). simplify_eq.
    cbn [trace] in Htr. rewrite Htr, <- app_assoc in Htr0.
    apply app_inv_head in Htr0. simpl in Htr0. injection Htr0 as <-.
    by rewrite (assembled_calls _ _ _ _ Hasm), (assembled_length _ _ _ _ Hasm).
  - simplify_eq. cbn [trace] in Htr0. apply app_inv_head in Htr0. by simplify_eq.
Qed.

(** X4.  Where the next call resumes.  After a successful [Poll] the
    next call, whatever happened in between, opens with the history
    query rendered from the time the poller stores: the old
    watermark when no returned start time lies strictly after it,
    and otherwise the first in the listing of the start times at the
    latest instant, in the zone its text was written in; with the
    client and the batch size of the first call. *)
Theorem Poll_resumes p s events p' s' s2 :
  Poll p s = (Ok events, p', s') ->
  ∃ out tr,
    trace (Poll p' s2).2
    = trace s2
      ++ EvHttp (get_request (client p)
                   (processes_url (client p)
                      (watermark.join (lastPollTime p)
                         (watermark.latest (startInstants (StartTime <$> events))))
                      (batchSize p))) out :: tr
    ∧ reading tr.
Proof.
  intros HP. apply Poll_ok_poller in HP as ->.
  destruct (Poll_reading (foldl advance p (StartTime <$> events)) s2) as (tr & Htr & Hread).
  destruct (foldl_advance_fields (StartTime <$> events) p) as [Hc Hb].
  rewrite Hc, Hb, foldl_advance_watermark in Htr. by eexists _, tr.
Qed.

(** X5.  A checkpoint set by [SetCheckpoint] is where the next [Poll]
    starts: its history query asks for the instances started after
    the checkpoint, and the watermark it leaves is the checkpoint or later, even when the
    new checkpoint is earlier than the old watermark. *)
Theorem SetCheckpoint_resumes p t s :
  GetCheckpoint (SetCheckpoint p t) = Some t
  ∧ watermark.le (Some t) (GetCheckpoint (Poll (SetCheckpoint p t) s).1.2)
  ∧ ∃ out tr,
      trace (Poll (SetCheckpoint p t) s).2
      = trace s
        ++ EvHttp (get_request (client p)
                     (processes_url (client p) (Some t) (batchSize p))) out :: tr
      ∧ reading tr.
Proof.
  split_and!; [done|apply (poller_claims.Poll_le (SetCheckpoint p t) s)|].
  destruct (Poll_reading (SetCheckpoint p t) s) as (tr & Htr & Hread).
  by eexists _, tr.
Qed.

(** X6.  The variable bag of an event: a name is bound to the value of the
    last variable instance of that name in the engine's answer, and
    is unbound when there is none. *)
Theorem collectVariables_lookup (variables : list HistoricVariableInstance) (name : string) :
  collectVariables variables !! name
  = hvi_Value <$> last (filter (fun v => hvi_Name v = name) variables).
Proof.
  unfold collectVariables.
  induction variables as [|v l IH] using rev_ind; [done|].
  rewrite foldl_snoc, filter_app, lookup_insert.
  case_decide as Hn.
  - rewrite filter_cons_True by done. by rewrite filter_nil, last_snoc.
  - rewrite filter_cons_False by done. by rewrite filter_nil, app_nil_r.
Qed.
End Poller.

End poller_more.

(** ** The client and the producer *)

Module client_more.
Import fluxnova fluxnova_client kafka.

Section Client.
Context {World : Type} `{!Platform World} `{!TimeLayout} `{!Base64}.

(** X7.  A client made by [NewClient] keeps the base URL, and its requests
    carry an [Authorization] header exactly when both the user name
    and the password are non-empty: with a user name alone, or a
    password alone, the client is anonymous.  The header is
    [Basic] followed by the base64 text of [username:password]. *)
Theorem NewClient_authorization base username password url :
  baseURL (NewClient base username password) = base
  ∧ Header (get_request (NewClient base username password) url)
    = (if decide (username ≠ EmptyString ∧ password ≠ EmptyString)
       then [("Authorization",
              "Basic " +:+ base64_encode (username +:+ ":" +:+ password))]
       else []) ++ [("Accept", "application/json")]
  ∧ Header (Ping_request (NewClient base username password))
    = (if decide (username ≠ EmptyString ∧ password ≠ EmptyString)
       then [("Authorization",
              "Basic " +:+ base64_encode (username +:+ ":" +:+ password))]
       else []).
Proof.
  unfold NewClient, get_request, Ping_request, authHeaders.
  case_decide; simpl; by split_and!.
Qed.

(** X8.  [Close] returns no error exactly when it has closed both writers
    and neither close failed.  When the close of the events writer
    fails, [Close] returns that error and the processes writer is not
    closed. *)
Theorem Close_writers (P : Producer) (s : St World) :
  ∃ tr,
    trace (Close P s).2 = trace s ++ tr
    ∧ http_calls tr = [] ∧ writes tr = []
    ∧ ((Close P s).1 = None
       <-> closes tr = [(eventsWriter P, None); (processesWriter P, None)])
    ∧ (∀ e, (kafka_close (eventsWriter P) (world s)).1 = Some e ->
            (Close P s).1 = Some e ∧ tr = [EvClose (eventsWriter P) (Some e)]).
Proof.
  unfold Close. steps.
  destruct (kafka_close (eventsWriter P) (world s)) as [[e|] w1]; steps.
  - eexists. split; [reflexivity|]. split_and!; try done. by intros e' [= ->].
  - destruct (kafka_close (processesWriter P) w1) as [out w2]; cbn [fst snd].
    eexists. split; [by rewrite <- app_assoc|]. split_and!; try done.
    simpl. split; [by intros ->|by intros [= ->]].
Qed.
End Client.

End client_more.

(** ** The pipeline *)

Module pipeline_more.
Import fluxnova kafka pipeline pipeline_new publisher_props publisher_facts
       orchestrator_props orchestrator_facts.

Section Pipeline.
Context {World : Type} `{!Platform World} `{!TimeLayout} `{!JSONEncode} `{!Base64}
        `{!JSONDecode (list HistoricProcessInstance)}
        `{!JSONDecode (list HistoricActivityInstance)}
        `{!JSONDecode (list HistoricVariableInstance)}.

Implicit Types (p : Pipeline) (s : St World).

(** X9.  The error a cycle returns and the pipeline it leaves are fixed by
    the call of [Poll] alone: the cycle returns an error exactly when
    [Poll] does, whatever the broker answered to the writes, and the
    pipeline keeps the poller, hence the watermark, [Poll] left,
    with its configuration, client and producer as they were. *)
Theorem poll_outcome p s r q s1 :
  Poll (poller p) s = (r, q, s1) ->
  (poll p s).1.1 = match r with Err e => Some e | Ok _ => None end
  ∧ poller (poll p s).1.2 = q
  ∧ cfg (poll p s).1.2 = cfg p
  ∧ client (poll p s).1.2 = client p
  ∧ producer (poll p s).1.2 = producer p.
Proof.
  intros HP. pose proof (poll_spec p s r q s1 HP) as Hspec.
  destruct r as [events|e].
  - destruct Hspec as (tr & s' & -> & _). by split_and!.
  - rewrite Hspec. by split_and!.
Qed.

(** X10.  A cycle whose [Poll] fails or finds nothing does nothing more:
    no line is logged, nothing is written, and the state is the one
    [Poll] left. *)
Theorem poll_nothing_to_publish p s r q s1 :
  Poll (poller p) s = (r, q, s1) ->
  (∀ events, r = Ok events -> events = []) ->
  (poll p s).2 = s1.
Proof.
  intros HP Hempty. unfold poll. rewrite bind_run, HP. cbn [fst snd].
  destruct r as [[|ev events]|e]; [done| |done].
  by specialize (Hempty _ eq_refl).
Qed.

Lemma published_only_writes P events tr w msg out :
  published P events tr -> EvWrite w msg out ∈ tr ->
  (∃ ev, ev ∈ events ∧ w = processesWriter P ∧ msg = processMessage ev)
  ∨ (∃ ev a, ev ∈ events ∧ a ∈ Activities ev ∧ w = eventsWriter P
             ∧ msg = activityMessage ev a).
Proof.
  intros Hpub Hin.
  destruct (publisher_claims.published_origin _ _ _ _ _ _ Hpub Hin)
    as [(ev & ? & ? & ? & _)|(ev & a & ? & ? & ? & ? & _)]; [left|right]; eauto 10.
Qed.

(** X11.  [New] does not fail, and the pipeline it makes is wired to the
    configuration: the poller starts without watermark, with the
    configured batch size and the pipeline's client; and in every
    cycle, the first as well as those of the pipeline with the
    poller any earlier cycle left, the process-level records go to
    the configured processes topic, the activity-level records to
    the configured events topic, both at the configured brokers. *)
Theorem New_wiring (c : config.Config) :
  ∃ p, New c = Ok p
       ∧ cfg p = c
       ∧ baseURL (client p) = config.BaseURL (config.Fluxnova c)
       ∧ poller p = NewPoller (client p) (config.BatchSize (config.Pipeline c))
       ∧ (∀ s events q s1, Poll (poller p) s = (Ok events, q, s1) ->
           ∃ tr, trace (poll p s).2 = trace s1 ++ polled events ++ tr
                 ∧ ∀ w msg out, EvWrite w msg out ∈ tr ->
                     Addr w = config.Brokers (config.Kafka c)
                     ∧ ((∃ ev, ev ∈ events ∧ msg = processMessage ev
                               ∧ Topic w = config.ProcessesTopic (config.Kafka c))
                        ∨ (∃ ev a, ev ∈ events ∧ a ∈ Activities ev
                                   ∧ msg = activityMessage ev a
                                   ∧ Topic w = config.EventsTopic (config.Kafka c))))
       ∧ ∀ later s events q s1, Poll later s = (Ok events, q, s1) ->
           ∃ tr, trace (poll (withPoller p later) s).2 = trace s1 ++ polled events ++ tr
                 ∧ ∀ w msg out, EvWrite w msg out ∈ tr ->
                     Addr w = config.Brokers (config.Kafka c)
                     ∧ ((∃ ev, ev ∈ events ∧ msg = processMessage ev
                               ∧ Topic w = config.ProcessesTopic (config.Kafka c))
                        ∨ (∃ ev a, ev ∈ events ∧ a ∈ Activities ev
                                   ∧ msg = activityMessage ev a
                                   ∧ Topic w = config.EventsTopic (config.Kafka c))).
Proof.
  unfold New.
  set (p := {| cfg := c; client := _; poller := _; producer := _ |}).
  exists p. split; [reflexivity|]. split_and!.
  - done.
  - simpl. unfold fluxnova_client.NewClient. by case_decide.
  - done.
  - intros s events q s1 HP.
    destruct (poll_spec p s _ _ _ HP) as (tr & s' & Hpoll & Htr & Hpub).
    exists tr. rewrite Hpoll. split; [done|].
    intros w msg out Hin.
    destruct (published_only_writes _ _ _ _ _ _ Hpub Hin)
      as [(ev & ? & -> & ->)|(ev & a & ? & ? & -> & ->)].
    + split; [done|]. left. by exists ev.
    + split; [done|]. right. by exists ev, a.
  - intros later s events q s1 HP.
    destruct (poll_spec (withPoller p later) s _ _ _ HP) as (tr & s' & Hpoll & Htr & Hpub).
    exists tr. rewrite Hpoll. split; [done|].
    intros w msg out Hin.
    destruct (published_only_writes _ _ _ _ _ _ Hpub Hin)
      as [(ev & ? & -> & ->)|(ev & a & ? & ? & -> & ->)].
    + split; [done|]. left. by exists ev.
    + split; [done|]. right. by exists ev, a.
Qed.

(** The trace of a cycle begins with the history query of its poller. *)
Lemma cycle_first_query format p s :
  ∃ out tr,
    trace (cycle format p s).2
    = trace s
      ++ EvHttp (get_request (fluxnova.client (poller p))
                   (processes_url (fluxnova.client (poller p)) (lastPollTime (poller p))
                      (batchSize (poller p)))) out :: tr.
Proof.
  destruct (poller_more.Poll_reading (poller p) s) as (tr0 & Htr0 & _).
  unfold cycle. rewrite bind_run.
  destruct (Poll (poller p) s) as [[r q] s1] eqn:HP. cbn [snd] in Htr0.
  pose proof (poll_spec p s r q s1 HP) as Hspec.
  destruct r as [events|e].
  - destruct Hspec as (tr & s' & -> & Htr & _). steps.
    eexists _, _. rewrite Htr, Htr0. rewrite <- !app_assoc. reflexivity.
  - rewrite Hspec. steps. eexists _, _. rewrite Htr0, <- !app_assoc. reflexivity.
Qed.

(** X12.  After a successful connectivity check [Run] logs the
    connection and starts its ticker.  With a positive poll interval
    it then runs one cycle before it first looks at the cancellation:
    even when the context is already cancelled at the first wake-up,
    the history query of the initial cycle has been made, right
    after the line that reports the connection.  With a poll
    interval of zero or less it panics instead, whatever the
    wake-ups: the pipeline is as it was, the line that reports the
    connection is the last of the trace, and no query is made. *)
Theorem Run_initial_cycle p s wakes :
  (checked p s).1 = None ->
  (0 < config.PollInterval (config.Pipeline (cfg p)) ->
   ∃ out tr,
     trace (Run (Cancelled :: wakes) p s).2
     = trace (checked p s).2
       ++ EvLog "Connected to Fluxnova" []
       :: EvHttp (get_request (fluxnova.client (poller p))
                    (processes_url (fluxnova.client (poller p)) (lastPollTime (poller p))
                       (batchSize (poller p)))) out
       :: tr)
  ∧ (config.PollInterval (config.Pipeline (cfg p)) <= 0 ->
     Run wakes p s
     = (Panicked "non-positive interval for NewTicker", p,
        MkSt (world (checked p s).2)
             (trace (checked p s).2 ++ [EvLog "Connected to Fluxnova" []]))).
Proof.
  intros Hping. split.
  - intros Hpos. rewrite Run_ticking, Run_loop_cancelled by done. cbn [snd].
    destruct (shutdown_trace (running 0 p (checked p s).2).1 (running 0 p (checked p s).2).2)
      as (tr1 & Htr1 & _).
    rewrite Htr1. unfold running. steps. cbn [cycles]. steps.
    match goal with |- context [cycle ?f p ?s0] =>
      destruct (cycle_first_query f p s0) as (out & tr & Htr) end.
    rewrite Htr. cbn [trace]. eexists out, _. rewrite <- !app_assoc. reflexivity.
  - intros Hneg. rewrite Run_spec, Hping. rewrite decide_True by done.
    unfold connected. by rewrite logf_run.
Qed.
End Pipeline.

End pipeline_more.

(** ** The configuration *)

Module config_more.
Import config config_load config_props.

Section Load.
Context `{!YAML}.

Lemma Load_overrides os :
  Load os
  = match loaded os with
    | Err e => Err e
    | Ok base =>
        Ok (fromEnv os "LOG_LEVEL" setLogLevel
              (fromEnv os "KAFKA_BROKERS" (fun v => setBrokers [v])
                 (fromEnv os "FLUXNOVA_PASSWORD" setPassword
                    (fromEnv os "FLUXNOVA_USERNAME" setUsername
                       (fromEnv os "FLUXNOVA_BASE_URL" setBaseURL base)))))
    end.
Proof. unfold Load, loaded. by destruct (ReadFile os "config.yaml"). Qed.

(** X13.  [Load] fails exactly when the configuration file can be read and
    is not valid YAML, with the error of the YAML reader; a missing
    or unreadable file is no error, and the environment never is. *)
Theorem Load_error os e :
  Load os = Err e
  <-> ∃ data, ReadFile os "config.yaml" = Some data ∧ yaml_unmarshal data defaults = Err e.
Proof.
  rewrite Load_overrides. unfold loaded.
  destruct (ReadFile os "config.yaml") as [data|].
  - destruct (yaml_unmarshal data defaults) as [base|e'] eqn:Hy.
    + split; [done|]. intros (data' & [= <-] & Hy'). congruence.
    + split; [intros [= ->]; eauto|]. intros (data' & [= <-] & Hy'). congruence.
  - split; [done|]. by intros (data & ? & _).
Qed.

(** X14.  A variable of the environment that is set and not empty wins over
    the configuration file and the defaults: the base URL, the user
    name, the password and the log level take its value; the list
    of brokers becomes the one-element list of its value, which is
    not split at commas. *)
Theorem Load_environment_wins os cfg :
  Load os = Ok cfg ->
  (Getenv os "FLUXNOVA_BASE_URL" ≠ EmptyString ->
   BaseURL (Fluxnova cfg) = Getenv os "FLUXNOVA_BASE_URL")
  ∧ (Getenv os "FLUXNOVA_USERNAME" ≠ EmptyString ->
     Username (Fluxnova cfg) = Getenv os "FLUXNOVA_USERNAME")
  ∧ (Getenv os "FLUXNOVA_PASSWORD" ≠ EmptyString ->
     Password (Fluxnova cfg) = Getenv os "FLUXNOVA_PASSWORD")
  ∧ (Getenv os "KAFKA_BROKERS" ≠ EmptyString ->
     Brokers (Kafka cfg) = [Getenv os "KAFKA_BROKERS"])
  ∧ (Getenv os "LOG_LEVEL" ≠ EmptyString -> LogLevel cfg = Getenv os "LOG_LEVEL").
Proof.
  rewrite Load_overrides. destruct (loaded os) as [base|e]; [|done].
  intros [= <-]. unfold fromEnv.
  split_and!; intros Hset; repeat case_decide; done.
Qed.

(** X15.  Where the environment is silent the configuration is the one the
    file gave, or the default: a variable that is unset or empty
    changes nothing; and the topics, the poll interval and the batch
    size are never taken from the environment. *)
Theorem Load_environment_silent os cfg :
  Load os = Ok cfg ->
  ∃ base,
    loaded os = Ok base
    ∧ EventsTopic (Kafka cfg) = EventsTopic (Kafka base)
    ∧ ProcessesTopic (Kafka cfg) = ProcessesTopic (Kafka base)
    ∧ Pipeline cfg = Pipeline base
    ∧ (Getenv os "FLUXNOVA_BASE_URL" = EmptyString ->
       BaseURL (Fluxnova cfg) = BaseURL (Fluxnova base))
    ∧ (Getenv os "FLUXNOVA_USERNAME" = EmptyString ->
       Username (Fluxnova cfg) = Username (Fluxnova base))
    ∧ (Getenv os "FLUXNOVA_PASSWORD" = EmptyString ->
       Password (Fluxnova cfg) = Password (Fluxnova base))
    ∧ (Getenv os "KAFKA_BROKERS" = EmptyString -> Brokers (Kafka cfg) = Brokers (Kafka base))
    ∧ (Getenv os "LOG_LEVEL" = EmptyString -> LogLevel cfg = LogLevel base).
Proof.
  rewrite Load_overrides. destruct (loaded os) as [base|e]; [|done].
  intros [= <-]. exists base. split; [done|]. unfold fromEnv.
  split_and!; try intros Hset; repeat case_decide; done.
Qed.
End Load.

End config_more.

(** ** The command *)

Module main_more.
Import pipeline pipeline_new cdc_main orchestrator_props orchestrator_facts.

Section Main.
Context {World : Type} `{!Platform World} `{!TimeLayout} `{!JSONEncode} `{!Base64} `{!YAML}
        `{!JSONDecode (list fluxnova.HistoricProcessInstance)}
        `{!JSONDecode (list fluxnova.HistoricActivityInstance)}
        `{!JSONDecode (list fluxnova.HistoricVariableInstance)}.

(** X16.  How the command ends, from the configuration, the
    connectivity check, the poll interval and the wake-ups.  When
    the configuration does not load, or the check fails, it exits
    with status 1 after one more log line, without a history query
    or a write.  After a successful check it dies of the panic of
    the ticker when the poll interval is zero or less; with a
    positive interval it keeps running while the wake-ups are ticks
    and exits at the first cancellation, with status 0 when the
    producer closed without error and 1 otherwise.  It exits with
    status 0 in no other way. *)
Theorem main_exit os (s : St World) :
  (∀ e wakes, config_load.Load os = Err e ->
     main os wakes s
     = (Returned 1, MkSt (world s) (trace s ++ [EvLog "Failed to load config:" [AStr e]])))
  ∧ (∀ c, config_load.Load os = Ok c ->
       ∃ p, New c = Ok p
         ∧ (∀ e wakes, (checked p s).1 = Some e ->
              main os wakes s
              = (Returned 1,
                 MkSt (world (checked p s).2)
                      (trace (checked p s).2
                       ++ [EvLog "Pipeline error:"
                             [AStr ("failed to connect to Fluxnova: " +:+ e)]])))
         ∧ ((checked p s).1 = None ->
            (config.PollInterval (config.Pipeline c) <= 0 ->
             ∀ wakes, (main os wakes s).1 = Panicked "non-positive interval for NewTicker")
            ∧ (0 < config.PollInterval (config.Pipeline c) ->
               (∀ n, (main os (replicate n Tick) s).1 = Waiting)
               ∧ (∀ n rest,
                    (main os (replicate n Tick ++ Cancelled :: rest) s).1
                    = match (shutdown p (running n p (checked p s).2).2).1 with
                      | None => Returned 0
                      | Some _ => Returned 1
                      end))))
  ∧ (∀ wakes, (main os wakes s).1 = Returned 0 -> Cancelled ∈ wakes).
Proof.
  split_and!.
  - intros e wakes He. unfold main. by rewrite He.
  - intros c Hc. eexists. split; [reflexivity|].
    unfold main. rewrite Hc. cbn [New].
    match goal with |- context [Run _ ?q] => set (p := q) end.
    split; [|intros Hping; split; [|intros Hpos; split]].
    + intros e wakes Hping. rewrite bind_run, Run_spec, Hping. cbn [fst snd].
      unfold Fatal. by steps.
    + intros Hneg wakes. rewrite bind_run, Run_spec, Hping.
      by rewrite decide_True by done.
    + intros n. by rewrite bind_run, (Run_ticks n p s Hping Hpos).
    + intros n rest. rewrite bind_run, (Run_cancelled n rest p s Hping Hpos). cbn [fst snd].
      by destruct (shutdown p _).1.
  - intros wakes. unfold main. destruct (config_load.Load os) as [c|e]; [|done].
    cbn [New]. rewrite bind_run.
    match goal with |- context [Run wakes ?p s] =>
      pose proof (Run_spec wakes p s) as Hrun;
      destruct (Run wakes p s) as [[[|[e|]|reason] p'] s'] eqn:ERun end; cbn [fst snd]; try done.
    intros _. destruct (checked _ s).1 as [e|] eqn:Hping; [done|].
    eapply Run_returned; [exact ERun|exact Hping].
Qed.
End Main.

End main_more.

(** ** The worker *)

Module worker_more.
Import worker worker_props worker_facts worker_ticks worker_vars.

Section Worker.
Context {World : Type} `{!Platform World} `{!Activities World}
        `{!JSONDecode (list ExternalTask)}.

Implicit Types (s : St World) (task : ExternalTask).

(** X17.  The topics the worker subscribes to are exactly the topics it
    has a handler for, and no two topics store their result under
    the same process variable: a task of a subscribed topic is never
    failed as unknown, and the results of different handlers do not
    overwrite one another. *)
Theorem route_topics :
  (∀ topicName, is_Some (route topicName) <-> topicName ∈ sub_TopicName <$> topics)
  ∧ (∀ t1 t2 m1 m2 variable,
       route t1 = Some (m1, variable) -> route t2 = Some (m2, variable) -> t1 = t2).
Proof.
  split.
  - intros t. unfold route, topics. simpl.
    rewrite !elem_of_cons, elem_of_nil.
    repeat case_decide; subst; split; intros Hx; try (by eexists); try tauto;
      try (by destruct Hx as [? [=]]);
      destruct Hx as [?|[?|[?|[?|[?|[]]]]]]; congruence.
  - intros t1 t2 m1 m2 v. unfold route.
    repeat case_decide; intros; simplify_eq; done.
Qed.

Lemma fetchAndLock_run baseURL subs s :
  fetchAndLock baseURL subs s
  = (match (http_do (fetchRequest baseURL subs) (world s)).1 with
     | HttpErr e => Err e
     | HttpResp status body =>
         if decide (status = 200) then json_decode body
         else Err ("fetch failed with status " +:+ itoa status +:+ ": " +:+ body)
     end,
     MkSt (http_do (fetchRequest baseURL subs) (world s)).2
          (trace s ++ [EvHttp (fetchRequest baseURL subs)
                         (http_do (fetchRequest baseURL subs) (world s)).1])).
Proof.
  unfold fetchAndLock, post. steps. fold (fetchRequest baseURL subs).
  destruct (http_do (fetchRequest baseURL subs) (world s)) as [[e|status body] w1];
    cbn [fst snd]; [done|]. by case_decide.
Qed.

(** X18.  A tick whose fetch fails ends there: the worker has made the
    fetch request and logged the error; it has called no handler and
    reported nothing to the engine.  The fetch fails on a transport
    error, on any status other than 200, and on a body that does not
    decode. *)
Theorem main_tick_fetch_failure baseURL s e s1 :
  fetchAndLock baseURL topics s = (Err e, s1) ->
  ∃ out,
    main_tick baseURL s
    = (tt, MkSt (world s1)
             (trace s ++ [EvHttp (fetchRequest baseURL topics) out;
                          EvLog "Error fetching tasks: %v" [AStr e]]))
    ∧ (out = HttpErr e
       ∨ (∃ status body, out = HttpResp status body ∧ status ≠ 200
            ∧ e = "fetch failed with status " +:+ itoa status +:+ ": " +:+ body)
       ∨ (∃ body, out = HttpResp 200 body
            ∧ json_decode (T:=list ExternalTask) body = Err e)).
Proof.
  intros Hfetch. unfold main_tick. rewrite bind_run, Hfetch. cbn [fst snd].
  rewrite fetchAndLock_run in Hfetch.
  destruct (http_do (fetchRequest baseURL topics) (world s)) as [out w1].
  cbn [fst snd] in Hfetch. injection Hfetch as Hres <-.
  exists out. steps. split; [by rewrite <- app_assoc|].
  destruct out as [e'|status body].
  - left. congruence.
  - case_decide as Hs.
    + right. right. subst. by exists body.
    + right. left. exists status, body. split_and!; congruence.
Qed.

Lemma ticks_snoc baseURL n wakes s :
  main_loop baseURL (replicate n Tick ++ wakes) s
  = main_loop baseURL wakes (ticks baseURL n s).2.
Proof.
  revert s. induction n as [|n IH]; intros s; [done|].
  cbn [replicate app ticks]. by rewrite main_loop_tick, IH, bind_run.
Qed.

(** X19.  The loop of the worker runs one fetch-and-dispatch per tick and
    returns at the first wake-up by cancellation, after one log
    line, without looking at the wake-ups that follow; it returns in
    no other way.  Unlike the pipeline it does nothing before its
    first tick. *)
Theorem main_loop_until_cancelled baseURL s :
  (∀ n, main_loop baseURL (replicate n Tick) s = (Waiting, (ticks baseURL n s).2))
  ∧ (∀ n rest,
       main_loop baseURL (replicate n Tick ++ Cancelled :: rest) s
       = (Returned tt,
          MkSt (world (ticks baseURL n s).2)
               (trace (ticks baseURL n s).2 ++ [EvLog "Worker shutting down" []])))
  ∧ (∀ wakes, (main_loop baseURL wakes s).1 = Returned tt -> Cancelled ∈ wakes)
  ∧ main_loop baseURL [] s = (Waiting, s).
Proof.
  split_and!.
  - intros n. by rewrite <- (app_nil_r (replicate n Tick)), ticks_snoc.
  - intros n rest. rewrite ticks_snoc. cbn [main_loop]. by steps.
  - intros wakes. revert s. induction wakes as [|[|] wakes IH]; intros s Hret.
    + done.
    + apply list_elem_of_here.
    + rewrite main_loop_tick in Hret. apply list_elem_of_further. by eapply IH.
  - done.
Qed.

Lemma handled_reported baseURL task cs :
  handled baseURL task cs ->
  reported baseURL task (http_calls cs) ∧ writes cs = [] ∧ closes cs = [].
Proof.
  destruct 1 as [out R|method variable e out R|method variable json out R Hok
                 |method variable json out e out' R Hfail];
    cbn; split_and!; try done; auto.
  apply failedCompletion_error in Hfail. by rewrite Hfail.
Qed.

Lemma reported_length baseURL task reports :
  reported baseURL task reports -> (1 <= length reports <= 2)%nat.
Proof.
  destruct reports as [|[] [|[] [|]]]; simpl; try done; lia.
Qed.

Lemma dispatched_reported baseURL tasks cs :
  dispatched baseURL tasks cs ->
  ∃ reports, http_calls cs = concat reports ∧ Forall2 (reported baseURL) tasks reports
             ∧ writes cs = [] ∧ closes cs = [].
Proof.
  induction 1 as [|task cs tasks cs' Hh _ (reports & Hcalls & Hall & IHw & IHc)].
  - exists []. split_and!; done || constructor.
  - destruct (handled_reported _ _ _ Hh) as (Hrep & Hw & Hc).
    exists (http_calls cs :: reports).
    unfold http_calls, writes, closes in *. rewrite !omap_app, Hw, Hc, IHw, IHc, Hcalls.
    split_and!; try done. by constructor.
Qed.

Lemma reported_total baseURL tasks reports :
  Forall2 (reported baseURL) tasks reports ->
  (length tasks <= length (concat reports) <= 2 * length tasks)%nat.
Proof.
  induction 1 as [|task seg tasks reports Hrep _ IH]; simpl; [lia|].
  apply reported_length in Hrep. rewrite length_app. lia.
Qed.

Lemma http_calls_calls tr : http_calls (calls tr) = http_calls tr.
Proof.
  induction tr as [|ev tr IH]; [done|]. destruct ev; simpl; by rewrite ?IH.
Qed.

Lemma writes_calls tr : writes (calls tr) = writes tr.
Proof.
  induction tr as [|ev tr IH]; [done|]. destruct ev; simpl; by rewrite ?IH.
Qed.

(** X20.  In a tick the reports to the engine are, task by task in the
    order of the batch, those of that task: one failure report, or
    one completion report that the engine accepted, or a completion
    report that failed followed by one failure report, each sent to
    the address of that very task.  So every task is reported at
    least once and at most twice, [n] tasks make between [n] and
    [2n] requests after the fetch, and nothing is written to the
    broker. *)
Theorem main_tick_reports baseURL s tasks s1 :
  fetchAndLock baseURL topics s = (Ok tasks, s1) ->
  ∃ tr reports,
    trace (main_tick baseURL s).2 = trace s1 ++ tr
    ∧ http_calls tr = concat reports
    ∧ Forall2 (reported baseURL) tasks reports
    ∧ (length tasks <= length (http_calls tr) <= 2 * length tasks)%nat
    ∧ writes tr = [].
Proof.
  intros Hfetch. unfold main_tick. rewrite bind_run, Hfetch. cbn [fst snd].
  destruct (main_batch_spec baseURL tasks s1) as (tr & Htr & Hd).
  destruct (dispatched_reported _ _ _ Hd) as (reports & Hcalls & Hall & Hw & _).
  rewrite http_calls_calls in Hcalls. rewrite writes_calls in Hw.
  pose proof (reported_total _ _ _ Hall) as Htotal. rewrite <- Hcalls in Htotal.
  exists tr, reports. split_and!; done || lia.
Qed.

(** X21.  The two readers of a task variable read the same text: a bare
    string, or the string under ["value"] of a typed value.
    [getStringVar] gives that text and [getJSONVar] decodes it into
    the target; where there is no such text (no variable of the
    name, or one of another shape) [getStringVar] gives the empty
    string and [getJSONVar] leaves the target as it is. *)
Theorem variable_readers {T} `{!JSONUnmarshal T} (vars : gmap string Any) name (target : T) :
  ((vars !! name = Some (AStr (getStringVar vars name))
    ∨ ∃ m, vars !! name = Some (AMap m) ∧ m !! "value" = Some (AStr (getStringVar vars name)))
   ∧ getJSONVar vars name target = json_unmarshal (getStringVar vars name) target)
  ∨ (getStringVar vars name = EmptyString ∧ getJSONVar vars name target = target
     ∧ (∀ text, vars !! name ≠ Some (AStr text))
     ∧ (∀ m text, vars !! name = Some (AMap m) -> m !! "value" ≠ Some (AStr text))).
Proof.
  unfold getStringVar, getJSONVar.
  destruct (vars !! name) as [[| | | |text|l|m]|] eqn:Hv;
    try (right; split_and!; [done|done|by intros ?|by intros ? ? [=]]).
  - left. split; [by left|done].
  - destruct (m !! "value") as [[| | | |text| |]|] eqn:Hm;
      try (right; split_and!; [done|done|by intros ? [=]|intros ? ? [= <-]; by rewrite Hm]).
    left. split; [|done]. right. by exists m.
Qed.

(** X22.  What a handler's completion report publishes, a later task reads
    back: in the body of the report the result is under the variable
    of the topic, as a typed value, and both readers of task
    variables find its text there. *)
Theorem completion_read_back {T} `{!JSONUnmarshal T} baseURL taskID variable json
    (target : T) :
  ∃ doc vars,
    Payload (completionReport baseURL taskID variable json) = Some (AMap doc)
    ∧ doc !! "workerId" = Some (AStr WorkerID)
    ∧ doc !! "variables" = Some (AMap vars)
    ∧ getStringVar vars variable = json
    ∧ getJSONVar vars variable target = json_unmarshal json target.
Proof.
  unfold completionReport, CompleteRequest_json. cbn [Payload complete_Variables complete_WorkerID].
  rewrite decide_False by (rewrite map_size_singleton; lia).
  eexists _, _. split; [reflexivity|]. split_and!.
  - by rewrite lookup_insert_ne, lookup_singleton_eq.
  - by rewrite lookup_insert_eq.
  - unfold getStringVar. by rewrite lookup_singleton_eq, lookup_singleton_eq.
  - unfold getJSONVar. by rewrite lookup_singleton_eq, lookup_singleton_eq.
Qed.

(** X23.  The ticket of a task is the JSON variable [ticket] when that
    decodes to a ticket with an id; otherwise its id, customer,
    subject, body and channel are the flat variables of these names,
    and only the submission time is kept from what the JSON gave.
    Without a variable [ticket] the ticket is made of the flat
    variables alone. *)
Theorem extractTicketInput_fallback `{!JSONUnmarshal TicketInput} (vars : gmap string Any) :
  let zero := {| TicketID := EmptyString; CustomerID := EmptyString; Subject := EmptyString;
                 Body := EmptyString; Channel := EmptyString; SubmittedAt := EmptyString |} in
  let decoded := getJSONVar vars "ticket" zero in
  (TicketID decoded ≠ EmptyString -> extractTicketInput vars = decoded)
  ∧ (TicketID decoded = EmptyString ->
     extractTicketInput vars
     = {| TicketID := getStringVar vars "ticketId";
          CustomerID := getStringVar vars "customerId";
          Subject := getStringVar vars "subject";
          Body := getStringVar vars "body";
          Channel := getStringVar vars "channel";
          SubmittedAt := SubmittedAt decoded |})
  ∧ (vars !! "ticket" = None ->
     extractTicketInput vars
     = {| TicketID := getStringVar vars "ticketId";
          CustomerID := getStringVar vars "customerId";
          Subject := getStringVar vars "subject";
          Body := getStringVar vars "body";
          Channel := getStringVar vars "channel";
          SubmittedAt := EmptyString |}).
Proof.
  intros zero decoded. unfold extractTicketInput. fold zero. fold decoded. split_and!.
  - intros Hid. by rewrite decide_False.
  - intros Hid. by rewrite decide_True.
  - intros Hnone. subst decoded. unfold getJSONVar. rewrite Hnone. done.
Qed.
End Worker.

End worker_more.

(** ** Quoting *)

Module quote_more.
Import xtdb sql.

Lemma append_nil (b : string) : EmptyString +:+ b = b.
Proof. reflexivity. Qed.

Lemma append_cons x (a b : string) : String x a +:+ b = String x (a +:+ b).
Proof. reflexivity. Qed.

Lemma append_assoc (a b c : string) : (a +:+ b) +:+ c = a +:+ (b +:+ c).
Proof. induction a as [|x a IH]; [done|]. by rewrite !append_cons, IH. Qed.

Lemma readBody_escaped s rest :
  clear rest ->
  readBody (ReplaceAll s apostrophe (String apostrophe (String apostrophe EmptyString))
            +:+ String apostrophe rest)
  = Some (s, rest).
Proof.
  intros Hrest. induction s as [|c s IH].
  - cbn [ReplaceAll]. rewrite append_nil. cbn [readBody]. rewrite decide_True by done.
    destruct rest as [|c' rest]; [done|].
    cbn [clear] in Hrest. by rewrite decide_False.
  - cbn [ReplaceAll]. case_decide as Hc.
    + subst c. rewrite !append_cons, append_nil. cbn [readBody].
      rewrite decide_True by done. rewrite decide_True by done. by rewrite IH.
    + rewrite append_cons. cbn [readBody]. rewrite decide_False by done. by rewrite IH.
Qed.

(** X24.  [quote] makes an SQL string literal that reads back as the string
    it was given, whatever that string holds, apostrophes included,
    and wherever the literal is put: the reader stops exactly at the
    end of the literal, provided the text after it does not begin
    with an apostrophe.  So no two strings have the same literal. *)
Theorem quote_read_back s :
  (∀ rest, clear rest -> readLiteral (quote s +:+ rest) = Some (s, rest))
  ∧ (∀ s', quote s = quote s' -> s = s').
Proof.
  assert (∀ s rest, clear rest -> readLiteral (quote s +:+ rest) = Some (s, rest)) as Hread.
  { intros s0 rest Hrest. unfold quote. rewrite !append_cons. cbn [readLiteral].
    rewrite decide_True by done. rewrite append_assoc, append_cons, append_nil.
    by apply readBody_escaped. }
  split; [by apply Hread|].
  intros s' Heq.
  pose proof (Hread s EmptyString I) as H1. pose proof (Hread s' EmptyString I) as H2.
  rewrite Heq in H1. congruence.
Qed.

End quote_more.

(** ** The further properties on the sample data *)

Module more_examples.
Import fluxnova scripted examples samples.

Lemma Poll_watermark_unchanged_witness :
  ids tieSecond.1.1 = ["P3"] ∧ lastPollTime tieSecond.1.2 = lastPollTime tieFirst.1.2.
Proof.
  split; [vm_compute; reflexivity|].
  assert (HP : Poll tieFirst.1.2 tieFirst.2 = (Ok (batch tieSecond.1.1), tieSecond.1.2, tieSecond.2))
    by (vm_compute; reflexivity).
  apply (proj2 (poller_more.Poll_watermark_unchanged _ _ _ _ _ HP)).
  intros ev t Hev Hparse.
  assert (Hall : Forall (fun ev => StartTime ev = "2024-01-01T00:00:01.000+0000")
                   (batch tieSecond.1.1)) by (vm_compute; repeat constructor).
  rewrite (proj1 (Forall_forall _ _) Hall ev Hev) in Hparse.
  vm_compute in Hparse. injection Hparse as <-.
  vm_compute. intros Hgt. discriminate Hgt.
Defined.

(** The listing order decides the zone of the stored watermark, and
    with it the text of the next history query. *)
Example Poll_order_zone :
  ids forwards.1.1 = ["P2"; "P4"] ∧ ids backwards.1.1 = ["P4"; "P2"]
  ∧ lastPollTime forwards.1.2 = Some T1
  ∧ lastPollTime backwards.1.2 = Some {| instant := instant T1; offset := 3600 |}
  ∧ time_format T1 = "2024-01-01T00:00:01.000+0000"
  ∧ time_format {| instant := instant T1; offset := 3600 |} = "2024-01-01T01:00:01.000+0100".
Proof. vm_compute. split_and!; reflexivity. Qed.

Lemma Poll_order_irrelevant_witness :
  instant <$> lastPollTime forwards.1.2 = instant <$> lastPollTime backwards.1.2
  ∧ batchSize forwards.1.2 = batchSize backwards.1.2.
Proof.
  destruct (@poller_more.Poll_order_irrelevant World platform layout eitherOrder
              activityDocuments variableDocuments freshPoller
              (serving [ok "[P2,P4]"; ok "[]"; ok "[]"; ok "[]"; ok "[]"] [])
              (serving [ok "[P4,P2]"; ok "[A1]"; ok "[]"; ok "[]"; ok "[tier]"] [])
              (batch forwards.1.1) (batch backwards.1.1) forwards.1.2 backwards.1.2
              forwards.2 backwards.2) as (_ & Hsize & Hlevel & _).
  - vm_compute. reflexivity.
  - vm_compute. reflexivity.
  - vm_compute. apply Permutation_swap.
  - split; [exact Hlevel|exact Hsize].
Defined.

Lemma Poll_footprint_witness :
  ∃ out tr,
    trace (Poll freshPoller partialWorld).2
    = EvHttp (get_request engine (processes_url engine None 100)) out :: tr
    ∧ length (http_calls tr) = 4%nat ∧ writes tr = [].
Proof.
  assert (HP : Poll freshPoller partialWorld
               = (Ok (batch (Poll freshPoller partialWorld).1.1),
                  (Poll freshPoller partialWorld).1.2, (Poll freshPoller partialWorld).2))
    by (vm_compute; reflexivity).
  destruct (poller_more.Poll_footprint _ _ _ _ _ HP)
    as (_ & _ & out & tr & Htr & _ & Hw & _ & Hn).
  exists out, tr. split_and!; [exact Htr|exact Hn|exact Hw].
Defined.

Lemma Poll_resumes_witness :
  ∃ out tr,
    trace tieSecond.2
    = trace tieFirst.2
      ++ EvHttp (get_request engine (processes_url engine (Some T1) 100)) out :: tr.
Proof.
  assert (HP : Poll freshPoller tieWorld = (Ok (batch tieFirst.1.1), tieFirst.1.2, tieFirst.2))
    by (vm_compute; reflexivity).
  destruct (poller_more.Poll_resumes _ _ _ _ _ tieFirst.2 HP) as (out & tr & Htr & _).
  exists out, tr.
  assert (Hwm : watermark.join (lastPollTime freshPoller)
                  (watermark.latest
                     (poller_props.startInstants (StartTime <$> batch tieFirst.1.1)))
                = Some T1) by (vm_compute; reflexivity).
  rewrite Hwm in Htr. exact Htr.
Defined.

Lemma Close_writers_witness :
  (kafka.Close (pipeline.producer pipe) stuckWorld).1 = Some "flush failed".
Proof.
  destruct (client_more.Close_writers (pipeline.producer pipe) stuckWorld)
    as (tr & _ & _ & _ & _ & Hfail).
  apply (Hfail "flush failed"). vm_compute. reflexivity.
Defined.

Lemma poll_outcome_witness :
  (pipeline.poll pipe downWorld).1.1 = Some "connection refused"
  ∧ pipeline.poller (pipeline.poll pipe downWorld).1.2 = freshPoller.
Proof.
  assert (HP : Poll (pipeline.poller pipe) downWorld
               = (Err "connection refused", freshPoller, (Poll freshPoller downWorld).2))
    by (vm_compute; reflexivity).
  destruct (pipeline_more.poll_outcome _ _ _ _ _ HP) as (He & Hq & _).
  split; [exact He|exact Hq].
Defined.

Lemma poll_nothing_to_publish_witness :
  (pipeline.poll pipe idleWorld).2 = (Poll freshPoller idleWorld).2.
Proof.
  apply (pipeline_more.poll_nothing_to_publish pipe idleWorld (Ok []) freshPoller).
  - vm_compute. reflexivity.
  - intros events [= <-]. reflexivity.
Defined.

Lemma New_wiring_witness :
  ∃ p, pipeline_new.New settings = Ok p ∧ pipeline.poller p = freshPoller
       ∧ ∃ tr, trace (pipeline.poll p flakyWorld).2
               = trace (Poll freshPoller flakyWorld).2
                 ++ publisher_props.polled (batch (Poll freshPoller flakyWorld).1.1) ++ tr
               ∧ Forall (fun x => Addr x.1.1 = ["localhost:9092"]) (writes tr).
Proof.
  destruct (pipeline_more.New_wiring settings) as (p & Hnew & _ & _ & Hpoller & Hcycle & _).
  exists p. split; [exact Hnew|]. split; [rewrite Hpoller; injection Hnew as <-; reflexivity|].
  destruct (Hcycle flakyWorld (batch (Poll freshPoller flakyWorld).1.1)
              (Poll freshPoller flakyWorld).1.2 (Poll freshPoller flakyWorld).2)
    as (tr & Htr & Hwrites).
  { injection Hnew as <-. vm_compute. reflexivity. }
  exists tr. split; [exact Htr|].
  apply Forall_forall. intros [[w msg] out] Hin.
  apply list_elem_of_omap in Hin as (ev & Hev & Hsome).
  destruct ev; try discriminate Hsome. injection Hsome as -> -> ->.
  exact (proj1 (Hwrites _ _ _ Hev)).
Defined.

Lemma Run_initial_cycle_witness :
  (∃ out tr,
     trace (pipeline.Run [Cancelled] pipe stuckWorld).2
     = trace (orchestrator_props.checked pipe stuckWorld).2
       ++ EvLog "Connected to Fluxnova" []
       :: EvHttp (get_request engine (processes_url engine None 100)) out :: tr)
  ∧ (pipeline.Run [Tick; Cancelled] hasty stuckWorld).1.1
    = Panicked "non-positive interval for NewTicker".
Proof.
  split.
  - apply (pipeline_more.Run_initial_cycle pipe stuckWorld []); vm_compute; reflexivity.
  - destruct (pipeline_more.Run_initial_cycle hasty stuckWorld [Tick; Cancelled]) as [_ Hpanic].
    { vm_compute. reflexivity. }
    rewrite Hpanic; [reflexivity|]. vm_compute. discriminate.
Defined.

Lemma Load_error_witness : config_load.Load broken = Err "yaml: unmarshal errors".
Proof.
  apply (proj2 (config_more.Load_error broken "yaml: unmarshal errors")).
  exists "{{". split; vm_compute; reflexivity.
Defined.

Lemma Load_environment_wins_witness :
  ∃ cfg, config_load.Load overridden = Ok cfg
         ∧ config.Brokers (config.Kafka cfg) = ["b1:9092,b2:9092"].
Proof.
  assert (HL : config_load.Load overridden
               = Ok (match config_load.Load overridden with
                     | Ok cfg => cfg | Err _ => config_load.defaults end))
    by (vm_compute; reflexivity).
  eexists. split; [exact HL|].
  destruct (config_more.Load_environment_wins _ _ HL) as (_ & _ & _ & Hbrokers & _).
  apply Hbrokers. vm_compute. discriminate.
Defined.

Lemma Load_environment_silent_witness :
  ∃ cfg base, config_load.Load overridden = Ok cfg ∧ config_props.loaded overridden = Ok base
              ∧ config.Brokers (config.Kafka base) = ["k1:9092"; "k2:9092"]
              ∧ config.LogLevel cfg = config.LogLevel base
              ∧ config.Pipeline cfg = config.Pipeline base.
Proof.
  assert (HL : config_load.Load overridden
               = Ok (match config_load.Load overridden with
                     | Ok cfg => cfg | Err _ => config_load.defaults end))
    by (vm_compute; reflexivity).
  destruct (config_more.Load_environment_silent _ _ HL)
    as (base & Hbase & _ & _ & Hpipeline & _ & _ & _ & _ & Hlevel).
  eexists _, base. split_and!; [exact HL|exact Hbase| |apply Hlevel; vm_compute; reflexivity|exact Hpipeline].
  vm_compute in Hbase. injection Hbase as <-. reflexivity.
Defined.

Lemma main_exit_witness :
  cdc_main.main broken [Tick; Cancelled] idleWorld
  = (Returned 1,
     MkSt (world idleWorld) [EvLog "Failed to load config:" [AStr "yaml: unmarshal errors"]])
  ∧ (started [Tick; Cancelled]).1 = Returned 0
  ∧ Cancelled ∈ [Tick; Cancelled].
Proof.
  destruct (main_more.main_exit broken idleWorld) as (Hload & _ & _).
  destruct (main_more.main_exit bare outageWorld) as (_ & _ & Hzero).
  split_and!.
  - apply (Hload "yaml: unmarshal errors"). vm_compute. reflexivity.
  - vm_compute. reflexivity.
  - apply Hzero. vm_compute. reflexivity.
Defined.

Lemma main_tick_fetch_failure_witness :
  trace (worker.main_tick "http://engine" unavailable).2
  = [EvHttp (worker_ticks.fetchRequest "http://engine" worker.topics)
       (HttpResp 503 "maintenance");
     EvLog "Error fetching tasks: %v" [AStr "fetch failed with status 503: maintenance"]].
Proof.
  destruct (worker_more.main_tick_fetch_failure "http://engine" unavailable
              "fetch failed with status 503: maintenance"
              (worker.fetchAndLock "http://engine" worker.topics unavailable).2)
    as (out & Htick & [Hout|[(status & body & Hout & _)|(body & Hout & _)]]).
  { vm_compute. reflexivity. }
  all: rewrite Htick; cbn [snd trace];
    assert (Hseen : (worker.main_tick "http://engine" unavailable).2.(trace) !! 0%nat
                    = Some (EvHttp (worker_ticks.fetchRequest "http://engine" worker.topics)
                              (HttpResp 503 "maintenance"))) by (vm_compute; reflexivity);
    rewrite Htick in Hseen; cbn [snd trace] in Hseen; simpl in Hseen;
    injection Hseen as ->; reflexivity.
Defined.

Lemma main_loop_until_cancelled_witness :
  (worker.main_loop "http://engine" [Tick; Tick; Cancelled; Tick] twoTicks).1 = Returned tt
  ∧ Cancelled ∈ [Tick; Tick; Cancelled; Tick].
Proof.
  destruct (worker_more.main_loop_until_cancelled "http://engine" twoTicks)
    as (_ & Hstop & Honly & _).
  pose proof (Hstop 2%nat [Tick]) as Hrun.
  change (replicate 2 Tick ++ Cancelled :: [Tick]) with [Tick; Tick; Cancelled; Tick] in Hrun.
  split; [by rewrite Hrun|].
  apply Honly. by rewrite Hrun.
Defined.

Lemma main_tick_reports_witness :
  ∃ tr reports,
    trace (worker.main_tick "http://engine" batchOfThree).2
    = trace (worker.fetchAndLock "http://engine" worker.topics batchOfThree).2 ++ tr
    ∧ http_calls tr = concat reports
    ∧ Forall2 (worker_ticks.reported "http://engine") [K1; K2; K3] reports.
Proof.
  destruct (worker_more.main_tick_reports "http://engine" batchOfThree [K1; K2; K3]
              (worker.fetchAndLock "http://engine" worker.topics batchOfThree).2)
    as (tr & reports & Htr & Hcalls & Hall & _).
  { vm_compute. reflexivity. }
  by exists tr, reports.
Defined.

Lemma extractTicketInput_fallback_witness :
  worker_vars.TicketID (worker_vars.extractTicketInput ticketVars) = "7"
  ∧ worker_vars.extractTicketInput flatVars
    = {| worker_vars.TicketID := "9"; worker_vars.CustomerID := "C1";
         worker_vars.Subject := EmptyString; worker_vars.Body := EmptyString;
         worker_vars.Channel := EmptyString; worker_vars.SubmittedAt := EmptyString |}.
Proof.
  split.
  - rewrite (proj1 (worker_more.extractTicketInput_fallback ticketVars)).
    + vm_compute. reflexivity.
    + vm_compute. discriminate.
  - rewrite (proj2 (proj2 (worker_more.extractTicketInput_fallback flatVars))).
    + vm_compute. reflexivity.
    + vm_compute. reflexivity.
Defined.

Lemma quote_read_back_witness :
  sql.readLiteral (xtdb.quote "O'Brien" +:+ ", 7)") = Some ("O'Brien", ", 7)").
Proof.
  apply (proj1 (quote_more.quote_read_back "O'Brien")). vm_compute. discriminate.
Defined.

End more_examples.
